(** * async_cts: search deduplication over a persistent store

    A shallow embedding of [resilient_async_cts]: the relational
    persistence layer ([util/db.py]), the document persistence layer
    ([util/mongo.py]) and the request orchestrator ([async_cts.py]).

    Python coroutines are run in a state-and-exception monad: a
    computation takes the state of the outside world and returns either a
    value or a raised exception, together with the world it leaves
    behind.  Unlike a transaction, a raised exception keeps every effect
    performed before it. *)

From Stdlib Require Import String Ascii List Bool Arith NArith Lia.
From Stdlib Require Import DecimalString HexadecimalString.
Import ListNotations.
Open Scope string_scope.
Open Scope list_scope.

(** ** Python values *)

(** An f-string is the concatenation of its literal and interpolated
    pieces. *)
Definition fstring (parts : list string) : string :=
  fold_right String.append "" parts.

(** Keyword arguments that default to [None] are [option string];
    [if x:] holds for a non-empty string only. *)
Definition truthy (x : option string) : bool :=
  match x with
  | Some s => negb (s =? "")
  | None => false
  end.

(** [f"{x}"] *)
Definition format (x : option string) : string :=
  match x with
  | Some s => s
  | None => "None"
  end.

Definition str_of_nat (n : nat) : string :=
  DecimalString.NilEmpty.string_of_uint (Nat.to_uint n).

(** A search id reaches the functions below as text.  A Python [int] is
    written as its numeral, [str_of_nat n]; any other text is a [str],
    such as the uuid the request handler draws. *)
Definition is_numeral (s : string) : bool :=
  match DecimalString.NilEmpty.uint_of_string s with
  | Some u => str_of_nat (Nat.of_uint u) =? s
  | None => false
  end.

Fixpoint string_forall (p : ascii -> bool) (s : string) : bool :=
  match s with
  | EmptyString => true
  | String c rest => p c && string_forall p rest
  end.

(** ** Exceptions *)

Inductive exn : Type :=
| Exception (msg : string)
| ValueError (msg : string)
| TypeError (msg : string)
| InvalidId (oid : string)
| InsertException
| DeletedMultipleActiveSearches (search_id : string)
| ActiveSearchNotFound (search_id : string)
| MultipleTablesForCTS
| ConnectionRefusedError
| InterfaceError
| PostgresSyntaxError
| UndefinedTableError (name : string)
| UndefinedColumnError (name : string)
| UniqueViolationError
| DataError (argument : string)
| FileNotFoundError (path : string)
| SearcherFailure (msg : string).

Inductive result (A : Type) : Type :=
| Ok (a : A)
| Raise (e : exn).
Arguments Ok {A} a.
Arguments Raise {A} e.

(** ** The coroutine monad *)

Definition M (St A : Type) : Type := St -> result A * St.

Definition ret {St A} (a : A) : M St A := fun s => (Ok a, s).

Definition raise {St A} (e : exn) : M St A := fun s => (Raise e, s).

Definition bind {St A B} (m : M St A) (k : A -> M St B) : M St B :=
  fun s =>
    match m s with
    | (Ok a, s') => k a s'
    | (Raise e, s') => (Raise e, s')
    end.

(** [try: body finally: fin]: [fin] runs whatever [body] did; the outcome
    of [body] stands unless [fin] itself raises. *)
Definition try_finally {St A} (body : M St A) (fin : M St unit) : M St A :=
  fun s =>
    let (r, s1) := body s in
    match fin s1 with
    | (Ok _, s2) => (r, s2)
    | (Raise e, s2) => (Raise e, s2)
    end.

Definition gets {St A} (f : St -> A) : M St A := fun s => (Ok (f s), s).

Definition modify {St} (f : St -> St) : M St unit := fun s => (Ok tt, f s).

Declare Scope coro_scope.
Delimit Scope coro_scope with coro.
Notation "x <- m ;; k" := (bind m (fun x => k))
  (at level 61, m at next level, right associativity) : coro_scope.
Notation "m ;;; k" := (bind m (fun _ => k))
  (at level 61, right associativity) : coro_scope.
Open Scope coro_scope.

(** ** Rows and documents *)

(** An [asyncpg.Record] and a BSON document are both read with
    [.get(key)]; a column holding NULL is an absent key. *)
Definition row : Type := list (string * string).

Fixpoint get (key : string) (r : row) : option string :=
  match r with
  | [] => None
  | (k, v) :: rest => if k =? key then Some v else get key rest
  end.

Definition cell (key : string) (v : option string) : row :=
  match v with
  | Some s => [(key, s)]
  | None => []
  end.

(** ** The relational store

    The store is PostgreSQL.  A statement reaches it either as text with
    separate arguments ([$1], [$2], ...), whose values never take part in
    parsing, or as text alone, which the server lexes and parses as it
    stands.  The second kind is modelled for the fragment the statements
    of this program are written in: [SELECT cols FROM rel WHERE cond;]
    with [cond] built from [=], [IN (...)], [AND] and [OR] over column
    names and quoted literals.  A statement of the fragment reads and
    changes nothing.  Text outside the fragment (numbers, comments,
    other operators, function calls) is answered with a syntax error
    here, which the server need not do: what is stated below about the
    lookups is stated for arguments that keep their text inside the
    fragment, a CTS id that is an identifier and values without a
    quote, or for an explicit text.  A literal compared with
    [search_id] is compared as text, which is the server's comparison
    of integers when the literal is the numeral of an id. *)

Module Sql.

Inductive token : Type :=
| TWord (w : string)
| TLit (s : string)
| TEq
| TStar
| TComma
| TLParen
| TRParen
| TSemi.

(** Where the lexer stands: between tokens, inside a word, inside a
    quoted literal, or just after a quote met inside a literal (which
    closes the literal unless a second quote follows). *)
Inductive mode : Type :=
| Between
| InWord (acc : string)
| InLit (acc : string)
| LitQuote (acc : string).

Definition between (lo hi : nat) (c : ascii) : bool :=
  Nat.leb lo (nat_of_ascii c) && Nat.leb (nat_of_ascii c) hi.

Definition is_space (c : ascii) : bool :=
  between 9 10 c || between 13 13 c || between 32 32 c.

Definition is_word_char (c : ascii) : bool :=
  between 65 90 c || between 97 122 c || between 48 57 c
  || (c =? "_")%char || (c =? ".")%char || (c =? "$")%char.

(** A word starts with a letter or an underscore. *)
Definition is_word_start (c : ascii) : bool :=
  between 65 90 c || between 97 122 c || (c =? "_")%char.

Definition is_quote (c : ascii) : bool := (c =? "'")%char.

(** Text that can sit inside a quoted literal, and text that makes one
    word. *)
Definition no_quote (s : string) : bool :=
  string_forall (fun c => negb (is_quote c)) s.

Definition wordlike (s : string) : bool := string_forall is_word_char s.

Definition identifier (s : string) : bool :=
  match s with
  | EmptyString => false
  | String c rest => is_word_start c && wordlike rest
  end.

(** Text that an identifier can begin with: nothing, or an identifier. *)
Definition identifier_start (s : string) : bool :=
  match s with
  | EmptyString => true
  | String c rest => is_word_start c && wordlike rest
  end.

Definition lex_symbol (c : ascii) : option token :=
  if (c =? "=")%char then Some TEq
  else if (c =? "*")%char then Some TStar
  else if (c =? ",")%char then Some TComma
  else if (c =? "(")%char then Some TLParen
  else if (c =? ")")%char then Some TRParen
  else if (c =? ";")%char then Some TSemi
  else None.

Definition snoc (acc : string) (c : ascii) : string :=
  (acc ++ String c EmptyString)%string.

Definition lex_between (c : ascii) : option (list token * mode) :=
  if is_space c then Some ([], Between)
  else if is_quote c then Some ([], InLit "")
  else if is_word_start c then Some ([], InWord (String c EmptyString))
  else match lex_symbol c with
       | Some t => Some ([t], Between)
       | None => None
       end.

Definition lex_step (m : mode) (c : ascii) : option (list token * mode) :=
  match m with
  | Between => lex_between c
  | InWord acc =>
      if is_word_char c then Some ([], InWord (snoc acc c))
      else match lex_between c with
           | Some (out, m') => Some (TWord acc :: out, m')
           | None => None
           end
  | InLit acc =>
      if is_quote c then Some ([], LitQuote acc)
      else Some ([], InLit (snoc acc c))
  | LitQuote acc =>
      if is_quote c then Some ([], InLit (snoc acc c))
      else match lex_between c with
           | Some (out, m') => Some (TLit acc :: out, m')
           | None => None
           end
  end.

Fixpoint lex_run (m : mode) (s : string) : option (list token * mode) :=
  match s with
  | EmptyString => Some ([], m)
  | String c rest =>
      match lex_step m c with
      | Some (out, m1) =>
          match lex_run m1 rest with
          | Some (ts, m2) => Some (out ++ ts, m2)
          | None => None
          end
      | None => None
      end
  end.

Definition lex_end (m : mode) : option (list token) :=
  match m with
  | Between => Some []
  | InWord acc => Some [TWord acc]
  | InLit _ => None
  | LitQuote acc => Some [TLit acc]
  end.

Definition lex (s : string) : option (list token) :=
  match lex_run Between s with
  | Some (ts, m) =>
      match lex_end m with
      | Some last => Some (ts ++ last)
      | None => None
      end
  | None => None
  end.

(** *** Syntax *)

Inductive operand : Type :=
| Col (name : string)
| Lit (s : string).

Inductive atom : Type :=
| Cmp (a b : operand)
| In (a : operand) (bs : list operand).

(** A condition is a disjunction of conjunctions: [AND] binds tighter
    than [OR]. *)
Definition cond : Type := list (list atom).

Record select : Type := {
  sel_cols : option string;     (* [None] is [*] *)
  sel_from : string;
  sel_where : cond
}.

Definition upper_ascii (c : ascii) : ascii :=
  if between 97 122 c then ascii_of_nat (nat_of_ascii c - 32) else c.

Definition lower_ascii (c : ascii) : ascii :=
  if between 65 90 c then ascii_of_nat (nat_of_ascii c + 32) else c.

Fixpoint string_map (f : ascii -> ascii) (s : string) : string :=
  match s with
  | EmptyString => EmptyString
  | String c rest => String (f c) (string_map f rest)
  end.

Definition upper : string -> string := string_map upper_ascii.
Definition lower : string -> string := string_map lower_ascii.

(** Key words are recognised in any letter case. *)
Definition kw (k w : string) : bool := upper w =? k.

Definition is_keyword (w : string) : bool :=
  kw "SELECT" w || kw "FROM" w || kw "WHERE" w || kw "AND" w || kw "OR" w
  || kw "IN" w.

Definition parse_operand (t : token) : option operand :=
  match t with
  | TWord w => if is_keyword w then None else Some (Col (lower w))
  | TLit s => Some (Lit s)
  | _ => None
  end.

Fixpoint parse_in_list (ts : list token)
  : option (list operand * list token) :=
  match ts with
  | t :: TRParen :: rest =>
      match parse_operand t with
      | Some o => Some ([o], rest)
      | None => None
      end
  | t :: TComma :: rest =>
      match parse_operand t, parse_in_list rest with
      | Some o, Some (os, rest') => Some (o :: os, rest')
      | _, _ => None
      end
  | _ => None
  end.

Definition parse_atom (ts : list token) : option (atom * list token) :=
  match ts with
  | a :: TEq :: b :: rest =>
      match parse_operand a, parse_operand b with
      | Some x, Some y => Some (Cmp x y, rest)
      | _, _ => None
      end
  | a :: TWord w :: TLParen :: rest =>
      if kw "IN" w then
        match parse_operand a, parse_in_list rest with
        | Some x, Some (ys, rest') => Some (In x ys, rest')
        | _, _ => None
        end
      else None
  | _ => None
  end.

Definition and_with (a : atom) (c : cond) : cond :=
  match c with
  | first :: others => (a :: first) :: others
  | [] => [[a]]
  end.

Fixpoint parse_cond (fuel : nat) (ts : list token)
  : option (cond * list token) :=
  match fuel with
  | 0 => None
  | S fuel' =>
      match parse_atom ts with
      | Some (a, TWord w :: rest) =>
          if kw "AND" w then
            match parse_cond fuel' rest with
            | Some (c, rest') => Some (and_with a c, rest')
            | None => None
            end
          else if kw "OR" w then
            match parse_cond fuel' rest with
            | Some (c, rest') => Some ([a] :: c, rest')
            | None => None
            end
          else Some ([[a]], TWord w :: rest)
      | Some (a, rest) => Some ([[a]], rest)
      | None => None
      end
  end.

Definition parse_cols (t : token) : option (option string) :=
  match t with
  | TStar => Some None
  | TWord w => if is_keyword w then None else Some (Some (lower w))
  | _ => None
  end.

(** One statement only; the closing semicolon is optional. *)
Definition parse_select (ts : list token) : option select :=
  match ts with
  | TWord s :: cols :: TWord f :: TWord rel :: TWord wh :: rest =>
      if kw "SELECT" s && kw "FROM" f && kw "WHERE" wh
         && negb (is_keyword rel) then
        match parse_cols cols, parse_cond (length rest) rest with
        | Some cs, Some (c, ([] | [TSemi])) =>
            Some {| sel_cols := cs; sel_from := rel; sel_where := c |}
        | _, _ => None
        end
      else None
  | _ => None
  end.

Definition parse (text : string) : option select :=
  match lex text with
  | Some ts => parse_select ts
  | None => None
  end.

(** *** Evaluation *)

Definition operand_value (r : row) (o : operand) : option string :=
  match o with
  | Col c => get c r
  | Lit s => Some s
  end.

(** A comparison with NULL is not true. *)
Definition eq_value (x y : option string) : bool :=
  match x, y with
  | Some a, Some b => a =? b
  | _, _ => false
  end.

Definition eval_atom (r : row) (a : atom) : bool :=
  match a with
  | Cmp x y => eq_value (operand_value r x) (operand_value r y)
  | In x ys =>
      existsb (fun y => eq_value (operand_value r x) (operand_value r y)) ys
  end.

Definition eval_cond (c : cond) (r : row) : bool :=
  existsb (forallb (eval_atom r)) c.

Definition operand_cols (o : operand) : list string :=
  match o with
  | Col c => [c]
  | Lit _ => []
  end.

Definition atom_cols (a : atom) : list string :=
  match a with
  | Cmp x y => operand_cols x ++ operand_cols y
  | In x ys => operand_cols x ++ flat_map operand_cols ys
  end.

Definition cond_cols (c : cond) : list string :=
  flat_map (flat_map atom_cols) c.

Definition has_col (columns : list string) (c : string) : bool :=
  existsb (String.eqb c) columns.

Definition project (cols : option string) (r : row) : row :=
  match cols with
  | None => r
  | Some c =>
      match get c r with
      | Some v => [(c, v)]
      | None => []
      end
  end.

End Sql.

Module Pg.

(** A relation of the database: the two tables of [create_cts_tables]
    have the columns [search_id SERIAL PRIMARY KEY], [artifact_type],
    [artifact_value] (and [date_found], [hit] for results).  Cells are
    kept as the text the server renders. *)
Record relation : Type := {
  rel_schema : string;
  rel_type : string;
  rel_name : string;
  rel_columns : list string;
  rel_rows : list row;
  rel_serial : nat              (* last value handed out by SERIAL *)
}.

(** The server as one process sees it. *)
Record pg : Type := {
  reachable : bool;             (* does [asyncpg.connect] get through *)
  next_conn : nat;
  open_conns : list nat;
  relations : list relation;
  clock : string                (* [datetime.datetime.now()] *)
}.

Definition with_conns (s : pg) (n : nat) (conns : list nat) : pg :=
  {| reachable := reachable s; next_conn := n; open_conns := conns;
     relations := relations s; clock := clock s |}.

Definition with_relations (s : pg) (rels : list relation) : pg :=
  {| reachable := reachable s; next_conn := next_conn s;
     open_conns := open_conns s; relations := rels; clock := clock s |}.

Definition with_rows (r : relation) (rows : list row) (serial : nat)
  : relation :=
  {| rel_schema := rel_schema r; rel_type := rel_type r;
     rel_name := rel_name r; rel_columns := rel_columns r;
     rel_rows := rows; rel_serial := serial |}.

(** *** Connections *)

(** The state right after [asyncpg.connect] got through. *)
Definition opened (s : pg) : pg :=
  with_conns s (S (next_conn s)) (next_conn s :: open_conns s).

Definition connect : M pg nat :=
  fun s =>
    if reachable s then (Ok (next_conn s), opened s)
    else (Raise ConnectionRefusedError, s).

Definition is_open (conn : nat) (s : pg) : bool :=
  existsb (Nat.eqb conn) (open_conns s).

(** The state [conn.close()] leaves. *)
Definition closed (conn : nat) (s : pg) : pg :=
  with_conns s (next_conn s)
    (filter (fun c => negb (Nat.eqb conn c)) (open_conns s)).

Definition close (conn : nat) : M pg unit := modify (closed conn).

(** *** Name resolution *)

(** [information_schema.tables], the columns the program reads. *)
Definition catalog_row (r : relation) : row :=
  [("table_schema", rel_schema r); ("table_name", rel_name r);
   ("table_type", rel_type r)].

Definition catalog_columns : list string :=
  ["table_schema"; "table_name"; "table_type"].

(** PostgreSQL keeps relation names unique within a schema. *)
Definition relation_key (r : relation) : string * string :=
  (rel_schema r, rel_name r).

Definition names_unique (rels : list relation) : Prop :=
  NoDup (map relation_key rels).

Definition named (name : string) (r : relation) : bool :=
  (rel_schema r =? "public") && (rel_name r =? name).

(** An unquoted name is folded to lower case and looked up in the
    [public] schema. *)
Definition resolve (rels : list relation) (name : string)
  : option (list string * list row) :=
  if Sql.lower name =? "information_schema.tables" then
    Some (catalog_columns, map catalog_row rels)
  else
    match find (named (Sql.lower name)) rels with
    | Some r => Some (rel_columns r, rel_rows r)
    | None => None
    end.

(** *** Statements sent as text: [conn.fetch(text)] *)

Definition select_cols (q : Sql.select) : list string :=
  match Sql.sel_cols q with
  | Some c => [c]
  | None => []
  end ++ Sql.cond_cols (Sql.sel_where q).

Definition run_select (rels : list relation) (text : string)
  : result (list row) :=
  match Sql.parse text with
  | None => Raise PostgresSyntaxError
  | Some q =>
      match resolve rels (Sql.sel_from q) with
      | None => Raise (UndefinedTableError (Sql.sel_from q))
      | Some (columns, rows) =>
          match find (fun c => negb (Sql.has_col columns c)) (select_cols q)
          with
          | Some c => Raise (UndefinedColumnError c)
          | None =>
              Ok (map (Sql.project (Sql.sel_cols q))
                    (filter (Sql.eval_cond (Sql.sel_where q)) rows))
          end
      end
  end.

Definition fetch (conn : nat) (text : string) : M pg (list row) :=
  fun s =>
    if is_open conn s then (run_select (relations s) text, s)
    else (Raise InterfaceError, s).

(** The rows a fingerprint names, said without SQL. *)
Definition fingerprint_match (artifact_type artifact_value : string)
  (r : row) : bool :=
  Sql.eq_value (get "artifact_type" r) (Some artifact_type)
  && Sql.eq_value (get "artifact_value" r) (Some artifact_value).

(** A base table of [public] whose name in the catalog is [name],
    character for character: what [table_name in ('name')] selects.  The
    name is compared as written, not folded as the name of a table in a
    statement is. *)
Definition is_base_table (name : string) (r : relation) : bool :=
  (rel_schema r =? "public") && (rel_type r =? "BASE TABLE")
  && (rel_name r =? name).

Definition base_table_exists (rels : list relation) (name : string) : bool :=
  existsb (is_base_table name) rels.

(** *** Statements sent with arguments

    The text holds the relation name and the placeholders; the
    arguments travel beside it as values. *)

Definition plain_name (name : string) : bool :=
  Sql.identifier name && negb (Sql.is_keyword name).

Fixpoint update_named (name : string) (f : relation -> relation)
  (rels : list relation) : list relation :=
  match rels with
  | [] => []
  | r :: rest =>
      if named name r then f r :: rest
      else r :: update_named name f rest
  end.

Definition with_relation {A} (rel : string)
  (k : relation -> result A * relation) : M pg A :=
  fun s =>
    if plain_name rel then
      match find (named (Sql.lower rel)) (relations s) with
      | Some r =>
          let (out, r') := k r in
          (out,
           with_relations s
             (update_named (Sql.lower rel) (fun _ => r') (relations s)))
      | None => (Raise (UndefinedTableError rel), s)
      end
    else (Raise PostgresSyntaxError, s).

Definition has_key (search_id : string) (r : row) : bool :=
  Sql.eq_value (get "search_id" r) (Some search_id).

(** The argument bound to the [search_id] column, of type [int4], when
    it is not an [int]: asyncpg refuses it with [DataError] while it
    encodes the arguments, after the statement was prepared and before
    anything is executed. *)
Definition refused_search_id (search_id : option string) : option string :=
  match search_id with
  | Some v => if is_numeral v then None else Some v
  | None => None
  end.

(** [INSERT INTO rel (...) VALUES ($1, ...) RETURNING search_id]: a row
    that brings no [search_id] takes the next SERIAL value; the primary
    key admits no second row with the same [search_id].  The row is kept
    in the order of the statement's column list and read by key. *)
Definition insert_returning (conn : nat) (rel : string) (values : row)
  : M pg string :=
  fun s =>
    if is_open conn s then
      with_relation rel (fun r =>
        match refused_search_id (get "search_id" values) with
        | Some v => (Raise (DataError v), r)
        | None =>
            let serial :=
              match get "search_id" values with
              | Some _ => rel_serial r
              | None => S (rel_serial r)
              end in
            let search_id :=
              match get "search_id" values with
              | Some v => v
              | None => str_of_nat serial
              end in
            if existsb (has_key search_id) (rel_rows r) then
              (Raise UniqueViolationError, with_rows r (rel_rows r) serial)
            else
              (Ok search_id,
               with_rows r
                 (rel_rows r
                  ++ [("search_id", search_id)
                      :: filter (fun kv => negb (fst kv =? "search_id")) values])
                 serial)
        end) s
    else (Raise InterfaceError, s).

(** [DELETE FROM rel WHERE search_id = $1]: the status line counts the
    rows removed.  The argument is bound to an [int4] column. *)
Definition delete_where_search_id (conn : nat) (rel : string)
  (search_id : string) : M pg string :=
  fun s =>
    if is_open conn s then
      with_relation rel (fun r =>
        match refused_search_id (Some search_id) with
        | Some v => (Raise (DataError v), r)
        | None =>
            let gone := filter (has_key search_id) (rel_rows r) in
            let kept :=
              filter (fun x => negb (has_key search_id x)) (rel_rows r) in
            (Ok (fstring ["DELETE "; str_of_nat (length gone)]),
             with_rows r kept (rel_serial r))
        end) s
    else (Raise InterfaceError, s).

End Pg.

(** ** [util/db.py] *)

Module DB.
Import Pg.

(** [self.config]: the one entry the statements use. *)
Record DB : Type := { cts_id : string }.

(** The decorator: connect, run the wrapped coroutine with the
    connection, close the connection whatever happened, hand back what
    the coroutine returned. *)
Definition handle_db_connection {A} (func : nat -> M pg A) : M pg A :=
  conn <- connect ;;
  execution_results <- try_finally (func conn) (close conn) ;;
  ret execution_results.

Definition required_parameters : string :=
  "search_id or artifact_typea and artifact_value are required parameters".

Definition active_searches_table (self : DB) : string :=
  fstring [cts_id self; "_active_searches"].

Definition results_table (self : DB) : string :=
  fstring [cts_id self; "_results"].

Definition search_for_active_search (self : DB)
  (search_id artifact_type artifact_value : option string)
  : M pg (list row) :=
  handle_db_connection (fun conn =>
    if negb (truthy search_id)
       && (negb (truthy artifact_type) || negb (truthy artifact_value))
    then raise (Exception required_parameters)
    else if truthy search_id then
      fetch conn
        (fstring ["SELECT * FROM "; cts_id self;
                  "_active_searches WHERE search_id = '";
                  format search_id; "';"])
    else
      fetch conn
        (fstring ["SELECT * FROM "; cts_id self;
                  "_active_searches WHERE artifact_type = '";
                  format artifact_type; "' AND artifact_value = '";
                  format artifact_value; "';"])).

Definition store_search_results (self : DB) (search_id : string)
  (artifact_type artifact_value : option string) (hit : string)
  : M pg string :=
  handle_db_connection (fun conn =>
    now <- gets clock ;;
    insert_returning conn (results_table self)
      ([("search_id", search_id)]
       ++ cell "artifact_type" artifact_type
       ++ cell "artifact_value" artifact_value
       ++ [("hit", hit); ("date_found", now)])).

Definition search_for_results (self : DB)
  (search_id artifact_type artifact_value : option string)
  : M pg (list row) :=
  handle_db_connection (fun conn =>
    if negb (truthy search_id)
       && (negb (truthy artifact_type) || negb (truthy artifact_value))
    then raise (Exception required_parameters)
    else if truthy search_id then
      fetch conn
        (fstring ["SELECT * FROM "; cts_id self;
                  "_results WHERE search_id = '"; format search_id; "';"])
    else
      fetch conn
        (fstring ["SELECT * FROM "; cts_id self;
                  "_results WHERE artifact_type = '";
                  format artifact_type; "' AND artifact_value = '";
                  format artifact_value; "';"])).

Definition remove_active_search (self : DB) (search_id : string)
  : M pg string :=
  handle_db_connection (fun conn =>
    delete_where_search_id conn (active_searches_table self) search_id).

(** The wrapped coroutine is declared with two parameters after [conn];
    the decorator passes on whatever positional arguments it is called
    with, and Python refuses a call whose arguments do not fit the
    parameters before the body starts. *)
Definition add_active_search (self : DB) (args : list (option string))
  : M pg string :=
  handle_db_connection (fun conn =>
    match args with
    | [artifact_type; artifact_value] =>
        insert_returning conn (active_searches_table self)
          (cell "artifact_type" artifact_type
           ++ cell "artifact_value" artifact_value)
    | _ =>
        raise (TypeError "add_active_search() positional arguments")
    end).

(** The statement of [cts_tables_exist], a triple-quoted f-string: the
    text before the first interpolation and the text after the last. *)
Definition tables_statement_head : string :=
  "
            SELECT table_name FROM information_schema.tables WHERE table_schema = 'public' AND table_type = 'BASE TABLE' AND table_name in ('".

Definition tables_statement_tail : string :=
  "_results');
        ".

Definition tables_statement (self : DB) : string :=
  fstring [tables_statement_head; cts_id self; "_active_searches', '";
           cts_id self; tables_statement_tail].

Definition cts_tables_exist (self : DB) : M pg bool :=
  handle_db_connection (fun conn =>
    tables <- fetch conn (tables_statement self) ;;
    if Nat.ltb 2 (length tables) then raise MultipleTablesForCTS
    else ret (Nat.eqb (length tables) 2)).

End DB.

(** ** [util/mongo.py] *)

Module Mongo.

(** A document is read by key like a row; its [_id] is an ObjectId, kept
    as the 24 hexadecimal digits [str()] gives. *)
Definition document : Type := row.

(** A query document: every listed key must hold the listed value. *)
Definition query : Type := list (string * string).

Record mongo : Type := {
  active_searches : list document;
  results : list document;
  next_object_id : N;           (* the driver's id generator *)
  acknowledged : bool           (* write concern of the client *)
}.

Definition is_hex (c : ascii) : bool :=
  Sql.between 48 57 c || Sql.between 97 102 c || Sql.between 65 70 c.

(** [ObjectId(s)] on a [str]: 24 hexadecimal digits, or [InvalidId]. *)
Definition ObjectId {St} (s : string) : M St string :=
  if Nat.eqb (String.length s) 24 && string_forall is_hex s
  then ret (Sql.lower s)
  else raise (InvalidId s).

Fixpoint zeros (n : nat) : string :=
  match n with
  | 0 => EmptyString
  | S n' => String "0" (zeros n')
  end.

Definition object_id_of (n : N) : string :=
  let digits := HexadecimalString.NilZero.string_of_uint (N.to_hex_uint n) in
  (zeros (24 - String.length digits) ++ digits)%string.

Definition matches (q : query) (d : document) : bool :=
  forallb (fun kv => Sql.eq_value (get (fst kv) d) (Some (snd kv))) q.

Definition find_one (coll : list document) (q : query) : option document :=
  find (matches q) coll.

Record DeleteResult : Type := { deleted_count : nat }.

Record InsertOneResult : Type := {
  result_acknowledged : bool;
  inserted_id : string
}.

Definition with_active_searches (s : mongo) (coll : list document) : mongo :=
  {| active_searches := coll; results := results s;
     next_object_id := next_object_id s; acknowledged := acknowledged s |}.

Definition with_results (s : mongo) (coll : list document) : mongo :=
  {| active_searches := active_searches s; results := coll;
     next_object_id := next_object_id s; acknowledged := acknowledged s |}.

Definition fresh_object_id : M mongo string :=
  fun s =>
    (Ok (object_id_of (next_object_id s)),
     {| active_searches := active_searches s; results := results s;
        next_object_id := N.succ (next_object_id s);
        acknowledged := acknowledged s |}).

Definition add_active_search (artifact_type artifact_value : option string)
  : M mongo string :=
  let document :=
    cell "artifact_type" artifact_type
    ++ cell "artifact_value" artifact_value in
  oid <- fresh_object_id ;;
  modify (fun s =>
    with_active_searches s (active_searches s ++ [("_id", oid) :: document])) ;;;
  ack <- gets acknowledged ;;
  let result := {| result_acknowledged := ack; inserted_id := oid |} in
  if result_acknowledged result then ret (inserted_id result)
  else raise InsertException.

Definition need_to_supply : string :=
  "need to supply either search_id or artifact_type and artifact_value".

Definition search_for_active_search
  (search_id artifact_type artifact_value : option string)
  : M mongo (option document) :=
  if truthy search_id then
    oid <- ObjectId (format search_id) ;;
    coll <- gets active_searches ;;
    ret (find_one coll [("_id", oid)])
  else if truthy artifact_type && truthy artifact_value then
    coll <- gets active_searches ;;
    ret (find_one coll
           [("artifact_value", format artifact_value);
            ("artifact_type", format artifact_type)])
  else raise (ValueError need_to_supply).

Definition remove_active_search (search_id : string) : M mongo bool :=
  oid <- ObjectId search_id ;;
  coll <- gets active_searches ;;
  let result :=
    {| deleted_count := length (filter (matches [("_id", oid)]) coll) |} in
  modify (fun s =>
    with_active_searches s
      (filter (fun d => negb (matches [("_id", oid)] d)) coll)) ;;;
  if Nat.eqb (deleted_count result) 1 then ret true
  else if Nat.ltb 1 (deleted_count result)
  then raise (DeletedMultipleActiveSearches search_id)
  else raise (ActiveSearchNotFound search_id).

Definition search_for_results
  (search_id artifact_type artifact_value : option string)
  : M mongo (option document) :=
  if truthy search_id then
    coll <- gets results ;;
    ret (find_one coll [("search_id", format search_id)])
  else if truthy artifact_type && truthy artifact_value then
    coll <- gets results ;;
    ret (find_one coll
           [("artifact_value", format artifact_value);
            ("artifact_type", format artifact_type)])
  else raise (ValueError need_to_supply).

Definition store_search_results (search_id : string)
  (artifact_type artifact_value : option string) (hit : string)
  : M mongo string :=
  let document :=
    [("search_id", search_id)]
    ++ cell "artifact_type" artifact_type
    ++ cell "artifact_value" artifact_value
    ++ [("hit", hit)] in
  oid <- fresh_object_id ;;
  modify (fun s => with_results s (results s ++ [("_id", oid) :: document])) ;;;
  ack <- gets acknowledged ;;
  let result := {| result_acknowledged := ack; inserted_id := oid |} in
  if result_acknowledged result then ret (inserted_id result)
  else raise InsertException.

End Mongo.

(** ** [async_cts.py] *)

Module AsyncCTS.

(** The dict [parse_file] builds for an uploaded file. *)
Record file_payload : Type := {
  path : string;
  content_transfer_encoding : option string
}.

(** What the event loop can be asked to run. *)
Inductive coroutine : Type :=
| Searcher (artifact_type artifact_value : option string)
    (file : option file_payload)
| RemoveActiveSearch (search_id : string)
| StoreSearchResults (search_id : string)
    (artifact_type artifact_value : option string) (hit : string).

(** The closure given to [add_done_callback]: it holds on to the search
    id, the artifact dict and the file dict of the request. *)
Inductive callback : Type :=
| SearchComplete (search_id : string) (artifact_payload : row)
    (file : option file_payload).

Record task : Type := {
  task_id : nat;
  coro : coroutine;
  done_callbacks : list callback
}.

Record world : Type := {
  db : Pg.pg;
  files : list string;          (* temporary files present on disk *)
  unlinked : list string;       (* every successful [os.unlink], in order *)
  uuid_count : nat;             (* identifiers drawn so far *)
  next_task : nat;
  pending : list task;          (* scheduled, not yet run *)
  reported : list exn           (* exceptions that reached the loop *)
}.

Definition with_db (w : world) (s : Pg.pg) : world :=
  {| db := s; files := files w; unlinked := unlinked w;
     uuid_count := uuid_count w; next_task := next_task w;
     pending := pending w; reported := reported w |}.

Definition with_files (w : world) (fs gone : list string) : world :=
  {| db := db w; files := fs; unlinked := gone;
     uuid_count := uuid_count w; next_task := next_task w;
     pending := pending w; reported := reported w |}.

Definition with_uuid_count (w : world) (n : nat) : world :=
  {| db := db w; files := files w; unlinked := unlinked w;
     uuid_count := n; next_task := next_task w;
     pending := pending w; reported := reported w |}.

Definition with_pending (w : world) (n : nat) (ts : list task) : world :=
  {| db := db w; files := files w; unlinked := unlinked w;
     uuid_count := uuid_count w; next_task := n;
     pending := ts; reported := reported w |}.

Definition with_reported (w : world) (es : list exn) : world :=
  {| db := db w; files := files w; unlinked := unlinked w;
     uuid_count := uuid_count w; next_task := next_task w;
     pending := pending w; reported := es |}.

(** Run a database coroutine inside the process. *)
Definition await_db {A} (m : M Pg.pg A) : M world A :=
  fun w => let (r, s) := m (db w) in (r, with_db w s).

(** [asyncio.gather(a, b)]: both coroutines run; the first exception, if
    any, is the outcome. *)
Definition gather {St A B} (a : M St A) (b : M St B) : M St (A * B) :=
  fun s =>
    let (ra, s1) := a s in
    let (rb, s2) := b s1 in
    match ra, rb with
    | Ok x, Ok y => (Ok (x, y), s2)
    | Raise e, _ => (Raise e, s2)
    | _, Raise e => (Raise e, s2)
    end.

(** [asyncio.create_task(coro)]: scheduled, run later by the loop. *)
Definition create_task (c : coroutine) : M world nat :=
  fun w =>
    (Ok (next_task w),
     with_pending w (S (next_task w))
       (pending w
        ++ [{| task_id := next_task w; coro := c; done_callbacks := [] |}])).

Definition add_callback (id : nat) (cb : callback) (t : task) : task :=
  if Nat.eqb (task_id t) id then
    {| task_id := task_id t; coro := coro t;
       done_callbacks := done_callbacks t ++ [cb] |}
  else t.

Definition add_done_callback (id : nat) (cb : callback) : M world unit :=
  modify (fun w =>
    with_pending w (next_task w) (map (add_callback id cb) (pending w))).

Definition os_unlink (p : string) : M world unit :=
  fun w =>
    if existsb (String.eqb p) (files w) then
      (Ok tt,
       with_files w (filter (fun f => negb (p =? f)) (files w))
         (unlinked w ++ [p]))
    else (Raise (FileNotFoundError p), w).

(** [future.result()] *)
Definition future_result {St A} (future : result A) : M St A :=
  match future with
  | Ok a => ret a
  | Raise e => raise e
  end.

(** A JSON value is kept as its text. *)
Definition json_dumps (value : string) : string := value.

Definition json_loads {St} (s : option string) : M St string :=
  match s with
  | Some text => ret text
  | None => raise (TypeError "the JSON object must be str, bytes or bytearray")
  end.

Inductive response : Type :=
| Response (text : string)
| json_response (body : string).

Section Server.

(** The investigation itself: for an artifact and an optional file it
    ends with a payload or with an exception. *)
Variable searcher :
  option string -> option string -> option file_payload -> result string.

(** The [n]-th identifier [uuid.uuid4()] gives. *)
Variable uuid4 : nat -> string.

Variable self_db : DB.DB.

Definition new_uuid : M world string :=
  fun w => (Ok (uuid4 (uuid_count w)), with_uuid_count w (S (uuid_count w))).

Definition search_complete_handler (future : result string)
  (search_id : string) (artifact_type artifact_value : option string)
  (file : option file_payload) : M world unit :=
  create_task (RemoveActiveSearch search_id) ;;;
  hit <- future_result future ;;
  create_task
    (StoreSearchResults search_id artifact_type artifact_value
       (json_dumps hit)) ;;;
  match file with
  | Some f => os_unlink (path f)
  | None => ret tt
  end.

(** The handler from the point where the request has been parsed into
    the artifact dict and, for an upload, the file dict. *)
Definition scanArtifactHandler (artifact_payload : row)
  (file : option file_payload) : M world (option response) :=
  found <- await_db (gather
    (DB.search_for_results self_db None
       (get "type" artifact_payload) (get "value" artifact_payload))
    (DB.search_for_active_search self_db None
       (get "type" artifact_payload) (get "value" artifact_payload))) ;;
  let past_results := fst found in
  let active_searches := snd found in
  if Nat.eqb (length past_results) 0 && Nat.eqb (length active_searches) 0
  then
    resp <- create_task
      (Searcher (get "type" artifact_payload) (get "value" artifact_payload)
         file) ;;
    search_id <- new_uuid ;;
    add_done_callback resp (SearchComplete search_id artifact_payload file) ;;;
    await_db (DB.add_active_search self_db
      [Some search_id; get "type" artifact_payload;
       get "value" artifact_payload]) ;;;
    ret (Some (Response "LAUNCHING SEARCH SMELL U L8R"))
  else if Nat.eqb (length active_searches) 1 then
    ret (Some (Response
      (fstring ["active search ";
                format (get "search_id" (hd [] active_searches))])))
  else if Nat.eqb (length past_results) 1 then
    body <- json_loads (get "hit" (hd [] past_results)) ;;
    ret (Some (json_response body))
  else
    match file with
    | Some f => os_unlink (path f)
    | None => ret tt
    end ;;;
    ret None.

(** *** The event loop *)

Definition run_coroutine (c : coroutine) : M world string :=
  match c with
  | Searcher artifact_type artifact_value file =>
      future_result (searcher artifact_type artifact_value file)
  | RemoveActiveSearch search_id =>
      await_db (DB.remove_active_search self_db search_id)
  | StoreSearchResults search_id artifact_type artifact_value hit =>
      await_db
        (DB.store_search_results self_db search_id artifact_type
           artifact_value hit)
  end.

Definition run_callback (future : result string) (cb : callback)
  : M world unit :=
  match cb with
  | SearchComplete search_id artifact_payload file =>
      search_complete_handler future search_id
        (get "type" artifact_payload) (get "value" artifact_payload) file
  end.

Definition report (e : exn) (w : world) : world :=
  with_reported w (reported w ++ [e]).

(** A callback that raises is reported to the loop and the next one
    runs. *)
Fixpoint run_callbacks (future : result string) (cbs : list callback)
  (w : world) : world :=
  match cbs with
  | [] => w
  | cb :: rest =>
      match run_callback future cb w with
      | (Ok _, w') => run_callbacks future rest w'
      | (Raise e, w') => run_callbacks future rest (report e w')
      end
  end.

(** One turn of the loop: the oldest pending task runs to its end and
    its callbacks are called with the finished future.  A task that
    failed and has no callback to read its result is reported too. *)
Definition run_task (w : world) : world :=
  match pending w with
  | [] => w
  | t :: rest =>
      let (future, w1) :=
        run_coroutine (coro t) (with_pending w (next_task w) rest) in
      match future, done_callbacks t with
      | Raise e, [] => report e w1
      | _, cbs => run_callbacks future cbs w1
      end
  end.

Fixpoint run_loop (turns : nat) (w : world) : world :=
  match turns with
  | 0 => w
  | S n => run_loop n (run_task w)
  end.

End Server.

End AsyncCTS.


(** ** Vocabulary of the statements below *)

(** No lookup key is supplied: no search id, and the fingerprint is not
    complete. *)
Definition no_key (search_id artifact_type artifact_value : option string)
  : bool :=
  negb (truthy search_id)
  && (negb (truthy artifact_type) || negb (truthy artifact_value)).

(** What a lookup does once its connection is open: refuse, look up by
    search id, or look up by fingerprint. *)
Definition lookup_outcome (rels : list Pg.relation) (id suffix : string)
  (search_id artifact_type artifact_value : option string)
  : result (list row) :=
  if no_key search_id artifact_type artifact_value then
    Raise (Exception DB.required_parameters)
  else if truthy search_id then
    Pg.run_select rels
      (fstring ["SELECT * FROM "; id;
                (suffix ++ " WHERE search_id = '")%string;
                format search_id; "';"])
  else
    Pg.run_select rels
      (fstring ["SELECT * FROM "; id;
                (suffix ++ " WHERE artifact_type = '")%string;
                format artifact_type; "' AND artifact_value = '";
                format artifact_value; "';"]).

(** A row of the relational store and a document of the document store
    that record the same thing. *)
Definition same_fingerprint (r : row) (d : Mongo.document) : Prop :=
  get "artifact_type" r = get "artifact_type" d
  /\ get "artifact_value" r = get "artifact_value" d.

Definition same_result (r : row) (d : Mongo.document) : Prop :=
  same_fingerprint r d
  /\ get "search_id" r = get "search_id" d
  /\ get "hit" r = get "hit" d.

(** An active search has no content but its fingerprint: its identifier
    is drawn by the backend that stores it, a serial number there and an
    ObjectId here. *)
Definition same_active_search (r : row) (d : Mongo.document) : Prop :=
  same_fingerprint r d.

Definition related_option {A B} (R : A -> B -> Prop)
  (x : option A) (y : option B) : Prop :=
  match x, y with
  | Some a, Some b => R a b
  | None, None => True
  | _, _ => False
  end.

(** ** A store to run the code on *)

Module Sample.
Import Pg.

Definition cts : DB.DB := {| DB.cts_id := "cts" |}.

Definition active_search (search_id artifact_type artifact_value : string)
  : row :=
  [("search_id", search_id); ("artifact_type", artifact_type);
   ("artifact_value", artifact_value)].

Definition result_record
  (search_id artifact_type artifact_value hit : string) : row :=
  [("search_id", search_id); ("artifact_type", artifact_type);
   ("artifact_value", artifact_value); ("date_found", "2020-05-01 10:00:00");
   ("hit", hit)].

(** The two tables [create_cts_tables] makes for the id [cts]. *)
Definition store (active results : list row) : pg :=
  {| reachable := true; next_conn := 0; open_conns := [];
     relations :=
       [{| rel_schema := "public"; rel_type := "BASE TABLE";
           rel_name := "cts_active_searches";
           rel_columns := ["search_id"; "artifact_type"; "artifact_value"];
           rel_rows := active; rel_serial := length active |};
        {| rel_schema := "public"; rel_type := "BASE TABLE";
           rel_name := "cts_results";
           rel_columns := ["search_id"; "artifact_type"; "artifact_value";
                           "date_found"; "hit"];
           rel_rows := results; rel_serial := length results |}];
     clock := "2020-05-02 09:30:00" |}.

Definition active_document (oid artifact_type artifact_value : string)
  : Mongo.document :=
  [("_id", oid); ("artifact_type", artifact_type);
   ("artifact_value", artifact_value)].

Definition result_document
  (oid search_id artifact_type artifact_value hit : string)
  : Mongo.document :=
  [("_id", oid); ("search_id", search_id); ("artifact_type", artifact_type);
   ("artifact_value", artifact_value); ("hit", hit)].

Definition collections (active results : list Mongo.document)
  : Mongo.mongo :=
  {| Mongo.active_searches := active; Mongo.results := results;
     Mongo.next_object_id := 4096; Mongo.acknowledged := true |}.

Definition oid1 : string := "5ec3e1a0b5f2c41d9c8e4a01".
Definition oid2 : string := "5ec3e1a0b5f2c41d9c8e4a02".

(** A searcher that fails on one value and scores every other, an
    identifier generator, an uploaded file and a process that holds it. *)
Definition searcher (artifact_type artifact_value : option string)
  (file : option AsyncCTS.file_payload) : result string :=
  match artifact_value with
  | Some "http://unreachable" => Raise (SearcherFailure "timed out")
  | _ => Ok "{score: 5}"
  end.

Definition uuid4 (n : nat) : string :=
  fstring ["6f1c2a9e-0b7d-4c55-9a3e-00000000000"; str_of_nat n].

Definition upload : AsyncCTS.file_payload :=
  {| AsyncCTS.path := "/tmp/tmpk3j2x9ab";
     AsyncCTS.content_transfer_encoding := Some "binary" |}.

Definition artifact (artifact_type artifact_value : string) : row :=
  [("type", artifact_type); ("value", artifact_value)].

Definition process (active results : list row) : AsyncCTS.world :=
  {| AsyncCTS.db := store active results;
     AsyncCTS.files := ["/tmp/tmpk3j2x9ab"];
     AsyncCTS.unlinked := [];
     AsyncCTS.uuid_count := 0;
     AsyncCTS.next_task := 0;
     AsyncCTS.pending := [];
     AsyncCTS.reported := [] |}.

End Sample.

From Stdlib Require DecimalNat.

(** ** Invariants of the relational store *)

Module Inv.
Import Pg.

(** Connection handles are handed out in increasing order: every open
    connection is older than the next one to be opened. *)
Definition conns_fresh (s : pg) : Prop :=
  Forall (fun c => c < next_conn s) (open_conns s).

(** The primary key: no two rows of a table carry the same [search_id]. *)
Definition keys_unique (rows : list row) : Prop :=
  NoDup (map (get "search_id") rows).

(** The columns [create_cts_tables] gives the two tables. *)
Definition active_search_columns : list string :=
  ["search_id"; "artifact_type"; "artifact_value"].

Definition result_columns : list string :=
  ["search_id"; "artifact_type"; "artifact_value"; "date_found"; "hit"].

(** A CTS id that can begin the name of a table of the [public] schema:
    letters, digits, [_] and [$] after a first letter or underscore, no
    dot (which would name a schema), and short enough for the longer of
    the two table names to fit the 63 bytes PostgreSQL keeps of an
    identifier. *)
Definition plain_id (id : string) : bool :=
  Sql.identifier_start id
  && string_forall (fun c => negb (c =? ".")%char) id
  && Nat.leb (String.length id) 47.

(** A state of the store with the relations of [s] and, when the handles
    of [s] are in order, its open connections. *)
Definition untouched (s s' : pg) : Prop :=
  relations s' = relations s
  /\ (conns_fresh s -> open_conns s' = open_conns s /\ conns_fresh s').

(** The table of the [public] schema an unquoted name stands for. *)
Definition table_of (s : pg) (name : string) : option relation :=
  find (named (Sql.lower name)) (relations s).

End Inv.

(** ** [util/db.py]: [create_cts_tables]

    This coroutine raises an exception the operations above never
    raise; it is run in the same kind of monad over a wider type of
    exceptions. *)

Module Setup.
Import Pg.

Inductive error : Type :=
| Plain (e : exn)
| DuplicateTableError (name : string).

Inductive outcome (A : Type) : Type :=
| Returned (a : A)
| Raised (e : error).
Arguments Returned {A} a.
Arguments Raised {A} e.

Definition W (St A : Type) : Type := St -> outcome A * St.

Definition ret {St A} (a : A) : W St A := fun s => (Returned a, s).

Definition bind {St A B} (m : W St A) (k : A -> W St B) : W St B :=
  fun s =>
    match m s with
    | (Returned a, s') => k a s'
    | (Raised e, s') => (Raised e, s')
    end.

Definition try_finally {St A} (body : W St A) (fin : W St unit) : W St A :=
  fun s =>
    let (r, s1) := body s in
    match fin s1 with
    | (Returned _, s2) => (r, s2)
    | (Raised e, s2) => (Raised e, s2)
    end.

(** A coroutine of the narrower kind, run here. *)
Definition lift {St A} (m : M St A) : W St A :=
  fun s =>
    match m s with
    | (Ok a, s') => (Returned a, s')
    | (Raise e, s') => (Raised (Plain e), s')
    end.

Declare Scope setup_scope.
Delimit Scope setup_scope with setup.
Notation "x <- m ;; k" := (bind m (fun x => k))
  (at level 61, m at next level, right associativity) : setup_scope.
Notation "m ;;; k" := (bind m (fun _ => k))
  (at level 61, right associativity) : setup_scope.
Local Open Scope setup_scope.

(** The decorator, as in [DB]. *)
Definition handle_db_connection {A} (func : nat -> W pg A) : W pg A :=
  conn <- lift connect ;;
  execution_results <- try_finally (func conn) (lift (close conn)) ;;
  ret execution_results.

(** *** [CREATE TABLE name (column type ..., ...);] *)

Definition is_reserved (w : string) : bool :=
  Sql.is_keyword w || Sql.kw "CREATE" w || Sql.kw "TABLE" w
  || Sql.kw "PRIMARY" w.

(** The column definitions up to the closing parenthesis: each is a
    column name followed by at least one word of type or constraint. *)
Fixpoint parse_columns (ts : list Sql.token) (current : list string)
  : option (list (list string) * list Sql.token) :=
  match ts with
  | Sql.TWord w :: rest => parse_columns rest (current ++ [w])
  | Sql.TComma :: rest =>
      match current, parse_columns rest [] with
      | _ :: _ :: _, Some (columns, rest') => Some (current :: columns, rest')
      | _, _ => None
      end
  | Sql.TRParen :: rest =>
      match current with
      | _ :: _ :: _ => Some ([current], rest)
      | _ => None
      end
  | _ => None
  end.

Definition column_name (definition : list string) : string :=
  Sql.lower (hd "" definition).

Definition parse_create (text : string) : option (string * list string) :=
  match Sql.lex text with
  | Some (Sql.TWord c :: Sql.TWord t :: Sql.TWord name :: Sql.TLParen :: rest) =>
      if Sql.kw "CREATE" c && Sql.kw "TABLE" t && negb (is_reserved name) then
        match parse_columns rest [] with
        | Some (columns, ([] | [Sql.TSemi])) =>
            if forallb (fun d => negb (is_reserved (hd "" d))) columns
            then Some (name, map column_name columns)
            else None
        | _ => None
        end
      else None
  | _ => None
  end.

(** The server keeps the first 63 bytes of an identifier. *)
Definition truncate (name : string) : string := substring 0 63 name.

Definition new_table (name : string) (columns : list string) : relation :=
  {| rel_schema := "public"; rel_type := "BASE TABLE"; rel_name := name;
     rel_columns := columns; rel_rows := []; rel_serial := 0 |}.

(** [conn.execute(text)] for a [CREATE TABLE]: the unquoted name is
    folded to lower case and cut to length; a relation of that name in
    [public] makes the statement fail. *)
Definition execute (conn : nat) (text : string) : W pg string :=
  fun s =>
    if is_open conn s then
      match parse_create text with
      | None => (Raised (Plain PostgresSyntaxError), s)
      | Some (name, columns) =>
          let stored := truncate (Sql.lower name) in
          if existsb (named stored) (relations s) then
            (Raised (DuplicateTableError stored), s)
          else
            (Returned "CREATE TABLE",
             with_relations s (relations s ++ [new_table stored columns]))
      end
    else (Raised (Plain InterfaceError), s).

(** The two tables as [create_cts_tables] leaves them. *)
Definition created_active_searches (self : DB.DB) : relation :=
  new_table (Sql.lower (DB.active_searches_table self))
    Inv.active_search_columns.

Definition created_results (self : DB.DB) : relation :=
  new_table (Sql.lower (DB.results_table self)) Inv.result_columns.

Definition create_cts_tables (self : DB.DB) : W pg unit :=
  handle_db_connection (fun conn =>
    execute conn
      (fstring ["CREATE TABLE "; DB.cts_id self;
                "_active_searches (search_id SERIAL PRIMARY KEY, artifact_type VARCHAR, artifact_value VARCHAR);"]) ;;;
    execute conn
      (fstring ["CREATE TABLE "; DB.cts_id self;
                "_results (search_id SERIAL PRIMARY KEY, artifact_type VARCHAR, artifact_value VARCHAR, date_found timestamp, hit JSON);"]) ;;;
    ret tt).

End Setup.

(** ** Vocabulary for the document store *)

Module MongoInv.

(** The digits [str()] of an ObjectId is written with. *)
Definition is_lower_hex (c : ascii) : bool :=
  Sql.between 48 57 c || Sql.between 97 102 c.

(** The id the driver gives the next document inserted. *)
Definition next_id (m : Mongo.mongo) : string :=
  Mongo.object_id_of (Mongo.next_object_id m).

(** The generator has not run past the ids of 24 digits, and no document
    of the collection bears the id that comes next. *)
Definition id_available (m : Mongo.mongo) (coll : list Mongo.document)
  : Prop :=
  String.length (next_id m) = 24
  /\ existsb (Mongo.matches [("_id", next_id m)]) coll = false.

End MongoInv.

(** ** Vocabulary for the orchestrator *)

Module LoopInv.
Import AsyncCTS.

(** Task ids are handed out in increasing order and never twice. *)
Definition tasks_fresh (w : world) : Prop :=
  Forall (fun t => task_id t < next_task w) (pending w)
  /\ NoDup (map task_id (pending w)).

(** A coroutine that keeps the task ids in order. *)
Definition keeps_tasks_fresh {A} (m : M world A) : Prop :=
  forall w, tasks_fresh w -> tasks_fresh (snd (m w)).

(** The lookups of a request found counts that none of the three
    branches of the handler tests for. *)
Definition falls_through (past_results active_searches : list row) : bool :=
  negb (Nat.eqb (length past_results) 0
        && Nat.eqb (length active_searches) 0)
  && negb (Nat.eqb (length active_searches) 1)
  && negb (Nat.eqb (length past_results) 1).

(** No argument with which a lookup could be made by fingerprint. *)
Definition no_fingerprint (artifact_payload : row) : bool :=
  negb (truthy (get "type" artifact_payload))
  || negb (truthy (get "value" artifact_payload)).

End LoopInv.

(** ** [async_cts.py]: [parse_file] *)

Module Upload.
Import AsyncCTS.

(** A part of a multipart body: its headers and what [read_chunk]
    returns call after call; once the list is used up [read_chunk]
    returns the empty bytes. *)
Record part : Type := {
  headers : row;
  chunks : list string
}.

(** The multipart reader of one request and the disk. *)
Record upload : Type := {
  parts : list part;            (* parts not yet handed out by [next()] *)
  tmp_count : nat;              (* temporary files created so far *)
  disk : list (string * string) (* path and content *)
}.

Inductive error : Type :=
| AttributeError (msg : string).

Inductive outcome (A : Type) : Type :=
| Returned (a : A)
| Raised (e : error).
Arguments Returned {A} a.
Arguments Raised {A} e.

Definition read (d : list (string * string)) (p : string) : option string :=
  get p d.

(** [file_object.write(chunk)]; [file_object.flush()] *)
Fixpoint write (d : list (string * string)) (p chunk : string)
  : list (string * string) :=
  match d with
  | [] => []
  | (q, content) :: rest =>
      if q =? p then (q, (content ++ chunk)%string) :: rest
      else (q, content) :: write rest p chunk
  end.

(** The [while True] loop: read a chunk, stop at the first empty one,
    count it and write it out. *)
Fixpoint read_chunks (stream : list string) (p : string)
  (d : list (string * string)) (size : nat)
  : list (string * string) * nat :=
  match stream with
  | [] => (d, size)
  | chunk :: rest =>
      if chunk =? "" then (d, size)
      else read_chunks rest p (write d p chunk) (size + String.length chunk)
  end.

Section WithTempNames.

(** The name [tempfile] picks for the [n]-th temporary file. *)
Variable tmp_name : nat -> string.

Definition parse_file (s : upload) : outcome file_payload * upload :=
  let name := tmp_name (tmp_count s) in
  let created := (name, EmptyString) :: disk s in
  match parts s with
  | [] =>
      (Raised (AttributeError "'NoneType' object has no attribute 'read_chunk'"),
       {| parts := []; tmp_count := S (tmp_count s); disk := created |})
  | file_part :: rest =>
      let (written, size) := read_chunks (chunks file_part) name created 0 in
      (Returned
         {| path := name;
            content_transfer_encoding :=
              get "Content-Transfer-Encoding" (headers file_part) |},
       {| parts := rest; tmp_count := S (tmp_count s); disk := written |})
  end.

End WithTempNames.

(** The chunks a part delivers before its first empty one, in one
    piece. *)
Fixpoint delivered (stream : list string) : string :=
  match stream with
  | [] => EmptyString
  | chunk :: rest =>
      if chunk =? "" then EmptyString else (chunk ++ delivered rest)%string
  end.

End Upload.

(** ** [dto/artifact_property_dto.py] *)

Module ArtifactPropertyDTO.

(** A Python value, as far as [type(value)] tells values apart. *)
Inductive value : Type :=
| VStr (s : string)
| VInt (z : Z)
| VBool (b : bool)
| VDict (items : list (string * string))
| VNone.

Inductive pytype : Type := str | int | bool_ | dict | NoneType.

Definition type (v : value) : pytype :=
  match v with
  | VStr _ => str
  | VInt _ => int
  | VBool _ => bool_
  | VDict _ => dict
  | VNone => NoneType
  end.

Definition pytype_eqb (a b : pytype) : bool :=
  match a, b with
  | str, str | int, int | bool_, bool_ | dict, dict | NoneType, NoneType =>
      true
  | _, _ => false
  end.

Definition SUPPORTED_TYPES : list string :=
  ["string"; "number"; "uri"; "ip"; "lat_lang"].

Definition VALID_KEYS : list string := ["type"; "name"; "value"].

Inductive error : Type :=
| InvalidPropertyKey (key : string)
| PropertyTypeNotSupported
| ValueTypeMismatch (v : value).

Definition dto : Type := list (string * value).

Definition member (x : string) (l : list string) : bool :=
  existsb (String.eqb x) l.

Definition supported_type (t : string) : option error :=
  if negb (member t SUPPORTED_TYPES) then Some PropertyTypeNotSupported
  else None.

Definition types_match (prop_type : string) (v : value) : option error :=
  if (prop_type =? "string") && negb (pytype_eqb (type v) str)
  then Some (ValueTypeMismatch v)
  else if (prop_type =? "number") && negb (pytype_eqb (type v) int)
  then Some (ValueTypeMismatch v)
  else if (prop_type =? "uri") && negb (pytype_eqb (type v) str)
  then Some (ValueTypeMismatch v)
  else if (prop_type =? "ip") && negb (pytype_eqb (type v) str)
  then Some (ValueTypeMismatch v)
  else if (prop_type =? "lat_lng") && negb (pytype_eqb (type v) dict)
  then Some (ValueTypeMismatch v)
  else None.

(** [ArtifactPropertyDTO(type, name, value)] *)
Definition init (t name : string) (v : value) : dto + error :=
  match supported_type t with
  | Some e => inr e
  | None =>
      match types_match t v with
      | Some e => inr e
      | None => inl [("type", VStr t); ("name", VStr name); ("value", v)]
      end
  end.

(** [dict.__setitem__]: the value of a key that is there is replaced in
    place, a new key goes to the end. *)
Fixpoint dict_setitem (d : dto) (key : string) (v : value) : dto :=
  match d with
  | [] => [(key, v)]
  | (k, old) :: rest =>
      if k =? key then (k, v) :: rest else (k, old) :: dict_setitem rest key v
  end.

(** [dict.__getitem__], [None] for [KeyError]. *)
Fixpoint getitem (d : dto) (key : string) : option value :=
  match d with
  | [] => None
  | (k, x) :: rest => if k =? key then Some x else getitem rest key
  end.

Definition setitem (d : dto) (key : string) (v : value) : dto + error :=
  if negb (member key VALID_KEYS) then inr (InvalidPropertyKey key)
  else inl (dict_setitem d key v).

(** A run of assignments [d[key] = value], each caught when it raises. *)
Fixpoint assign_all (d : dto) (items : list (string * value)) : dto :=
  match items with
  | [] => d
  | (key, v) :: rest =>
      match setitem d key v with
      | inl d' => assign_all d' rest
      | inr _ => assign_all d rest
      end
  end.

End ArtifactPropertyDTO.

(** ** Further sample states *)

Module Fixture.
Import Pg.

(** The two tables of [Sample.store], by themselves. *)
Definition active_relation (rows : list row) : relation :=
  {| rel_schema := "public"; rel_type := "BASE TABLE";
     rel_name := "cts_active_searches";
     rel_columns := Inv.active_search_columns;
     rel_rows := rows; rel_serial := length rows |}.

Definition results_relation (rows : list row) : relation :=
  {| rel_schema := "public"; rel_type := "BASE TABLE";
     rel_name := "cts_results";
     rel_columns := Inv.result_columns;
     rel_rows := rows; rel_serial := length rows |}.

(** A server without tables, and one that does not answer. *)
Definition empty_store : pg :=
  {| reachable := true; next_conn := 0; open_conns := [];
     relations := []; clock := "2020-05-02 09:30:00" |}.

Definition stopped_store : pg :=
  {| reachable := false; next_conn := 0; open_conns := [];
     relations := []; clock := "2020-05-02 09:30:00" |}.

(** A CTS id written with a capital letter. *)
Definition mixed_case : DB.DB := {| DB.cts_id := "Hub" |}.

(** A CTS id that holds quotes, and a server with three base tables
    whose names the catalog statement built from it lists. *)
Definition quoted_id : DB.DB := {| DB.cts_id := "a', 'b" |}.

Definition three_tables : pg :=
  {| reachable := true; next_conn := 0; open_conns := [];
     relations :=
       [Setup.new_table "a" ["note"];
        Setup.new_table "b_active_searches" Inv.active_search_columns;
        Setup.new_table "b_results" Inv.result_columns];
     clock := "2020-05-02 09:30:00" |}.

Definition stopped_process : AsyncCTS.world :=
  AsyncCTS.with_db (Sample.process [] []) stopped_store.

(** A process whose loop holds one search with its completion callback. *)
Definition searching : AsyncCTS.world :=
  {| AsyncCTS.db := Sample.store [] [];
     AsyncCTS.files := ["/tmp/tmpk3j2x9ab"];
     AsyncCTS.unlinked := [];
     AsyncCTS.uuid_count := 1;
     AsyncCTS.next_task := 1;
     AsyncCTS.pending :=
       [{| AsyncCTS.task_id := 0;
           AsyncCTS.coro :=
             AsyncCTS.Searcher (Some "uri") (Some "http://a")
               (Some Sample.upload);
           AsyncCTS.done_callbacks :=
             [AsyncCTS.SearchComplete (Sample.uuid4 0)
                (Sample.artifact "uri" "http://a") (Some Sample.upload)] |}];
     AsyncCTS.reported := [] |}.

(** A multipart request after its first part was read: the file part is
    next; it delivers two chunks and then the empty one. *)
Definition tmp_name (n : nat) : string :=
  fstring ["/tmp/tmp"; str_of_nat n].

Definition multipart : Upload.upload :=
  {| Upload.parts :=
       [{| Upload.headers := [("Content-Transfer-Encoding", "binary")];
           Upload.chunks := ["MZ"; "PE"; EmptyString] |}];
     Upload.tmp_count := 0;
     Upload.disk := [("/tmp/old", "x")] |}.

End Fixture.
(** * Properties *)

(** ** The connection decorator *)

Module ValueFacts.

Lemma is_numeral_str_of_nat (n : nat) : is_numeral (str_of_nat n) = true.
Proof.
  unfold is_numeral, str_of_nat.
  rewrite DecimalString.NilEmpty.usu, DecimalNat.Unsigned.of_to.
  apply String.eqb_refl.
Qed.

Lemma int_search_id_accepted (n : nat) :
  Pg.refused_search_id (Some (str_of_nat n)) = None.
Proof. unfold Pg.refused_search_id. now rewrite is_numeral_str_of_nat. Qed.

End ValueFacts.

Module ConnectionFacts.
Import Pg DB.

Lemma is_open_opened (s : pg) : is_open (next_conn s) (opened s) = true.
Proof.
  unfold is_open, opened; simpl.
  now rewrite Nat.eqb_refl.
Qed.

Lemma is_open_closed (conn : nat) (s : pg) : is_open conn (closed conn s) = false.
Proof.
  unfold is_open, closed; simpl.
  induction (open_conns s) as [|c cs IH]; simpl; [reflexivity|].
  destruct (Nat.eqb conn c) eqn:E; simpl; [exact IH|].
  now rewrite E.
Qed.

Lemma handle_db_connection_run {A} (func : nat -> M pg A) (s : pg) :
  reachable s = true ->
  handle_db_connection func s =
  (fst (func (next_conn s) (opened s)),
   closed (next_conn s) (snd (func (next_conn s) (opened s)))).
Proof.
  intros Hup.
  unfold handle_db_connection, bind, connect, try_finally, close, modify, ret.
  rewrite Hup.
  destruct (func (next_conn s) (opened s)) as [[a|e] s1]; reflexivity.
Qed.

Lemma handle_db_connection_down {A} (func : nat -> M pg A) (s : pg) :
  reachable s = false ->
  handle_db_connection func s = (Raise ConnectionRefusedError, s).
Proof.
  intros Hdown.
  unfold handle_db_connection, bind, connect.
  now rewrite Hdown.
Qed.

(** C9: a call through [handle_db_connection] whose connection was
    opened leaves that connection closed when it completes, whether the
    wrapped operation returned or raised; the outcome of the call (the
    returned value, or the very exception raised) is the outcome of the
    wrapped operation. *)
Theorem handle_db_connection_closes :
  forall (A : Type) (func : nat -> M pg A) (s : pg),
    reachable s = true ->
    let conn := next_conn s in
    is_open conn (opened s) = true
    /\ fst (handle_db_connection func s) = fst (func conn (opened s))
    /\ is_open conn (snd (handle_db_connection func s)) = false
    /\ (forall e, fst (func conn (opened s)) = Raise e ->
          handle_db_connection func s
          = (Raise e, closed conn (snd (func conn (opened s))))).
Proof.
  intros A func s Hup conn.
  rewrite (handle_db_connection_run func s Hup); simpl.
  repeat split.
  - apply is_open_opened.
  - apply is_open_closed.
  - intros e He. subst conn. now rewrite He.
Qed.

Lemma handle_db_connection_closes_witness :
  reachable (Sample.store [] []) = true
  /\ handle_db_connection
       (fun _ : nat => raise (A := unit) (Exception "relation is locked"))
       (Sample.store [] [])
     = (Raise (Exception "relation is locked"),
        closed 0 (opened (Sample.store [] []))).
Proof.
  split; [reflexivity|].
  exact (proj2 (proj2 (proj2
    (handle_db_connection_closes unit
       (fun _ : nat => raise (Exception "relation is locked"))
       (Sample.store [] []) eq_refl)))
    (Exception "relation is locked") eq_refl).
Defined.

End ConnectionFacts.

(** ** Lexing and parsing the statements the program sends *)

Module SqlFacts.
Import Sql.

Lemma append_assoc (a b c : string) :
  ((a ++ b) ++ c)%string = (a ++ (b ++ c))%string.
Proof. induction a as [|x a IH]; simpl; [reflexivity | now rewrite IH]. Qed.

Lemma append_empty_r (a : string) : (a ++ "")%string = a.
Proof. induction a as [|x a IH]; simpl; [reflexivity | now rewrite IH]. Qed.

Lemma length_append (a b : string) :
  String.length (a ++ b) = String.length a + String.length b.
Proof. induction a as [|x a IH]; simpl; [reflexivity | now rewrite IH]. Qed.

Lemma length_string_map (f : ascii -> ascii) (s : string) :
  String.length (string_map f s) = String.length s.
Proof. induction s as [|x s IH]; simpl; [reflexivity | now rewrite IH]. Qed.

Lemma string_forall_append (p : ascii -> bool) (a b : string) :
  string_forall p (a ++ b) = string_forall p a && string_forall p b.
Proof.
  induction a as [|x a IH]; simpl; [reflexivity|].
  now rewrite IH, andb_assoc.
Qed.

(** Lexing a text piece by piece. *)
Lemma lex_run_app (m : mode) (a b : string) :
  lex_run m (a ++ b) =
  match lex_run m a with
  | Some (ts, m1) =>
      match lex_run m1 b with
      | Some (ts', m2) => Some (ts ++ ts', m2)
      | None => None
      end
  | None => None
  end.
Proof.
  revert m; induction a as [|c a IH]; intros m; simpl.
  - now destruct (lex_run m b) as [[ts m2]|].
  - destruct (lex_step m c) as [[out m1]|]; [|reflexivity].
    rewrite IH.
    destruct (lex_run m1 a) as [[ts m2]|]; [|reflexivity].
    destruct (lex_run m2 b) as [[ts' m3]|]; [|reflexivity].
    now rewrite app_assoc.
Qed.

Lemma lex_run_pieces (m m1 m2 : mode) (a b : string) (ts ts' : list token) :
  lex_run m a = Some (ts, m1) ->
  lex_run m1 b = Some (ts', m2) ->
  lex_run m (a ++ b) = Some (ts ++ ts', m2).
Proof. intros Ha Hb. now rewrite lex_run_app, Ha, Hb. Qed.

(** Inside a literal, text without a quote is taken as it is. *)
Lemma lex_run_literal (s acc : string) :
  no_quote s = true ->
  lex_run (InLit acc) s = Some ([], InLit (acc ++ s)).
Proof.
  revert acc; induction s as [|c s IH]; intros acc H; simpl.
  - now rewrite append_empty_r.
  - unfold no_quote in H; simpl in H.
    apply andb_true_iff in H as [Hc Hs].
    apply negb_true_iff in Hc. rewrite Hc.
    rewrite (IH (snoc acc c) Hs). unfold snoc.
    now rewrite append_assoc.
Qed.

Lemma lex_run_word (s acc : string) :
  wordlike s = true ->
  lex_run (InWord acc) s = Some ([], InWord (acc ++ s)).
Proof.
  revert acc; induction s as [|c s IH]; intros acc H; simpl.
  - now rewrite append_empty_r.
  - unfold wordlike in H; simpl in H.
    apply andb_true_iff in H as [Hc Hs]. rewrite Hc.
    rewrite (IH (snoc acc c) Hs). unfold snoc.
    now rewrite append_assoc.
Qed.

Lemma word_start_plain (c : ascii) :
  is_word_start c = true ->
  is_space c = false /\ is_quote c = false /\ is_word_char c = true.
Proof.
  destruct c as [[] [] [] [] [] [] [] []]; vm_compute; intros H;
    try discriminate H; repeat split; reflexivity.
Qed.

Lemma lex_run_identifier (s : string) :
  identifier s = true -> lex_run Between s = Some ([], InWord s).
Proof.
  destruct s as [|c s]; [discriminate|]; intros H.
  simpl in H. apply andb_true_iff in H as [Hc Hs].
  destruct (word_start_plain c Hc) as [Hsp [Hq _]].
  simpl. unfold lex_between. rewrite Hsp, Hq, Hc.
  now rewrite (lex_run_word s _ Hs).
Qed.

(** An identifier may be continued with word characters. *)
Lemma identifier_append (id suffix : string) :
  identifier_start id = true -> identifier suffix = true ->
  identifier (id ++ suffix) = true.
Proof.
  destruct id as [|c id]; simpl; [intros _ H; exact H|].
  intros Hid Hsuf. apply andb_true_iff in Hid as [Hc Hid]. rewrite Hc.
  destruct suffix as [|x suffix]; [discriminate|].
  simpl in Hsuf. apply andb_true_iff in Hsuf as [Hx Hsuf].
  destruct (word_start_plain x Hx) as [_ [_ Hxw]].
  unfold wordlike in *. rewrite string_forall_append, Hid; simpl.
  now rewrite Hxw, Hsuf.
Qed.

(** A word longer than every key word is not a key word. *)
Lemma kw_length (k w : string) : kw k w = true -> String.length w = String.length k.
Proof.
  unfold kw; intros H. apply String.eqb_eq in H.
  rewrite <- H. unfold upper. now rewrite length_string_map.
Qed.

Lemma long_word_not_keyword (w : string) :
  6 < String.length w -> is_keyword w = false.
Proof.
  intros Hlen. unfold is_keyword.
  repeat match goal with
  | |- context [kw ?k w] =>
      let E := fresh "E" in
      destruct (kw k w) eqn:E;
      [apply kw_length in E; simpl in E; lia|]
  end.
  reflexivity.
Qed.

(** The token sequence of a lookup by fingerprint, for a relation name
    made of word characters and values without a quote. *)
Lemma lex_fingerprint_lookup (id suffix t v : string) :
  identifier (id ++ suffix) = true ->
  no_quote t = true -> no_quote v = true ->
  lex (fstring ["SELECT * FROM "; id;
                (suffix ++ " WHERE artifact_type = '")%string; t;
                "' AND artifact_value = '"; v; "';"])
  = Some [TWord "SELECT"; TStar; TWord "FROM"; TWord (id ++ suffix);
          TWord "WHERE"; TWord "artifact_type"; TEq; TLit t;
          TWord "AND"; TWord "artifact_value"; TEq; TLit v; TSemi].
Proof.
  intros Hw Ht Hv.
  unfold lex.
  change (fstring _) with
    ("SELECT * FROM "
     ++ (id ++ ((suffix ++ " WHERE artifact_type = '")
     ++ (t ++ ("' AND artifact_value = '" ++ (v ++ "';"))))))%string.
  rewrite (append_assoc suffix), <- (append_assoc id suffix).
  erewrite lex_run_pieces;
    [ | reflexivity
      | eapply lex_run_pieces;
        [ apply (lex_run_identifier _ Hw)
        | eapply lex_run_pieces;
          [ reflexivity
          | eapply lex_run_pieces;
            [ apply (lex_run_literal t _ Ht)
            | eapply lex_run_pieces;
              [ reflexivity
              | eapply lex_run_pieces;
                [ apply (lex_run_literal v _ Hv) | reflexivity ] ] ] ] ] ].
  reflexivity.
Qed.

(** The token sequence of the catalog query of [cts_tables_exist]. *)
Lemma lex_tables_statement (self : DB.DB) :
  no_quote (DB.cts_id self) = true ->
  lex (DB.tables_statement self)
  = Some [TWord "SELECT"; TWord "table_name"; TWord "FROM";
          TWord "information_schema.tables"; TWord "WHERE";
          TWord "table_schema"; TEq; TLit "public"; TWord "AND";
          TWord "table_type"; TEq; TLit "BASE TABLE"; TWord "AND";
          TWord "table_name"; TWord "in"; TLParen;
          TLit (DB.cts_id self ++ "_active_searches"); TComma;
          TLit (DB.cts_id self ++ "_results"); TRParen; TSemi].
Proof.
  intros Hid. unfold lex.
  change (DB.tables_statement self) with
    (DB.tables_statement_head
     ++ (DB.cts_id self ++ ("_active_searches" ++ ("', '"
     ++ (DB.cts_id self ++ ("_results" ++ "');
        "))))))%string.
  erewrite lex_run_pieces;
    [ | reflexivity
      | eapply lex_run_pieces;
        [ apply (lex_run_literal _ _ Hid)
        | eapply lex_run_pieces;
          [ apply lex_run_literal; reflexivity
          | eapply lex_run_pieces;
            [ reflexivity
            | eapply lex_run_pieces;
              [ apply (lex_run_literal _ _ Hid)
              | eapply lex_run_pieces;
                [ apply lex_run_literal; reflexivity
                | reflexivity ] ] ] ] ] ].
  reflexivity.
Qed.

End SqlFacts.

(** ** What the store answers *)

Module PgFacts.
Import Sql Pg SqlFacts.

Lemma map_project_all (rows : list row) : map (project None) rows = rows.
Proof. induction rows as [|r rows IH]; simpl; [reflexivity | now rewrite IH]. Qed.

Lemma parse_fingerprint_lookup (rel t v : string) :
  6 < String.length rel ->
  parse_select
    [TWord "SELECT"; TStar; TWord "FROM"; TWord rel;
     TWord "WHERE"; TWord "artifact_type"; TEq; TLit t;
     TWord "AND"; TWord "artifact_value"; TEq; TLit v; TSemi]
  = Some {| sel_cols := None; sel_from := rel;
            sel_where := [[Cmp (Col "artifact_type") (Lit t);
                           Cmp (Col "artifact_value") (Lit v)]] |}.
Proof.
  intros Hlen. unfold parse_select.
  rewrite (long_word_not_keyword rel Hlen). reflexivity.
Qed.

(** A lookup by fingerprint whose values hold no quote selects exactly
    the rows with that type and that value. *)
Lemma select_by_fingerprint (rels : list relation)
  (id suffix t v : string) (columns : list string) (rows : list row) :
  identifier_start id = true -> identifier suffix = true ->
  6 < String.length suffix ->
  no_quote t = true -> no_quote v = true ->
  resolve rels (id ++ suffix) = Some (columns, rows) ->
  has_col columns "artifact_type" = true ->
  has_col columns "artifact_value" = true ->
  run_select rels
    (fstring ["SELECT * FROM "; id;
              (suffix ++ " WHERE artifact_type = '")%string; t;
              "' AND artifact_value = '"; v; "';"])
  = Ok (filter (fingerprint_match t v) rows).
Proof.
  intros Hid Hsuf Hlen Ht Hv Hres Hc1 Hc2.
  unfold run_select, parse.
  rewrite (lex_fingerprint_lookup id suffix t v
             (identifier_append id suffix Hid Hsuf) Ht Hv).
  rewrite parse_fingerprint_lookup
    by (rewrite length_append; lia).
  cbn [sel_from sel_cols sel_where]. rewrite Hres.
  unfold select_cols, cond_cols; cbn [sel_cols sel_where flat_map atom_cols
    operand_cols app find].
  rewrite Hc1, Hc2; cbn [negb].
  rewrite map_project_all. f_equal.
  apply filter_ext; intros r.
  unfold eval_cond, fingerprint_match; cbn.
  now rewrite !andb_true_r, orb_false_r.
Qed.

Lemma parse_tables_statement (a b : string) :
  parse_select
    [TWord "SELECT"; TWord "table_name"; TWord "FROM";
     TWord "information_schema.tables"; TWord "WHERE";
     TWord "table_schema"; TEq; TLit "public"; TWord "AND";
     TWord "table_type"; TEq; TLit "BASE TABLE"; TWord "AND";
     TWord "table_name"; TWord "in"; TLParen; TLit a; TComma; TLit b;
     TRParen; TSemi]
  = Some {| sel_cols := Some "table_name";
            sel_from := "information_schema.tables";
            sel_where := [[Cmp (Col "table_schema") (Lit "public");
                           Cmp (Col "table_type") (Lit "BASE TABLE");
                           In (Col "table_name") [Lit a; Lit b]]] |}.
Proof. reflexivity. Qed.

(** The catalog query lists the base tables of [public] that bear one of
    the two names. *)
Lemma select_tables (rels : list relation) (self : DB.DB) :
  no_quote (DB.cts_id self) = true ->
  exists tables,
    run_select rels (DB.tables_statement self) = Ok tables
    /\ length tables
       = length (filter (fun r =>
                   is_base_table (DB.active_searches_table self) r
                   || is_base_table (DB.results_table self) r) rels).
Proof.
  intros Hid. unfold run_select, parse.
  rewrite (lex_tables_statement self Hid), parse_tables_statement.
  eexists; split; [reflexivity|].
  rewrite length_map. cbn [sel_where].
  induction rels as [|r rels IH]; [reflexivity|].
  cbn [map filter].
  replace (eval_cond _ (catalog_row r))
    with (is_base_table (DB.active_searches_table self) r
          || is_base_table (DB.results_table self) r).
  - destruct (is_base_table _ r || is_base_table _ r);
      cbn [length]; now rewrite IH.
  - unfold eval_cond, is_base_table; cbn.
    rewrite !orb_false_r, !andb_true_r.
    destruct (rel_schema r =? "public"), (rel_type r =? "BASE TABLE");
      cbn; reflexivity.
Qed.

Lemma length_filter_either {A} (p q : A -> bool) (l : list A) :
  (forall x, p x = true -> q x = false) ->
  length (filter (fun x => p x || q x) l)
  = length (filter p l) + length (filter q l).
Proof.
  intros Hpq. induction l as [|x l IH]; [reflexivity|]; simpl.
  destruct (p x) eqn:Hp; simpl.
  - rewrite (Hpq x Hp); simpl. now rewrite IH.
  - destruct (q x); simpl; rewrite IH; lia.
Qed.

Lemma base_table_key (name : string) (r : relation) :
  is_base_table name r = true -> relation_key r = ("public", name).
Proof.
  unfold is_base_table, relation_key; intros H.
  apply andb_true_iff in H as [H Hn]. apply andb_true_iff in H as [Hs _].
  apply String.eqb_eq in Hs, Hn. now rewrite Hs, Hn.
Qed.

(** With unique names a name selects at most one base table. *)
Lemma length_filter_base_table (rels : list relation) (name : string) :
  names_unique rels ->
  length (filter (is_base_table name) rels)
  = if base_table_exists rels name then 1 else 0.
Proof.
  unfold names_unique, base_table_exists.
  induction rels as [|r rels IH]; intros Hnd; [reflexivity|].
  simpl in Hnd. inversion Hnd as [|k ks Hnotin Hnd']; subst.
  simpl. destruct (is_base_table name r) eqn:Hr; simpl.
  - assert (Hnone : existsb (is_base_table name) rels = false).
    { destruct (existsb (is_base_table name) rels) eqn:Hex; [|reflexivity].
      apply existsb_exists in Hex as [r' [Hin Hr']].
      exfalso; apply Hnotin.
      rewrite (base_table_key name r Hr), <- (base_table_key name r' Hr').
      now apply in_map. }
    rewrite (IH Hnd'), Hnone. reflexivity.
  - exact (IH Hnd').
Qed.

Lemma append_inj_l (a b c : string) : (a ++ b)%string = (a ++ c)%string -> b = c.
Proof.
  induction a as [|x a IH]; simpl; intros H; [exact H|].
  injection H as H. exact (IH H).
Qed.

Lemma tables_distinct (self : DB.DB) (r : relation) :
  is_base_table (DB.active_searches_table self) r = true ->
  is_base_table (DB.results_table self) r = false.
Proof.
  intros Ha.
  destruct (is_base_table (DB.results_table self) r) eqn:Hb; [|reflexivity].
  apply base_table_key in Ha, Hb. rewrite Ha in Hb.
  injection Hb as Hb.
  unfold DB.active_searches_table, DB.results_table, fstring in Hb;
    simpl in Hb.
  apply append_inj_l in Hb. discriminate Hb.
Qed.

End PgFacts.

(** ** [util/db.py] *)

Module DBFacts.
Import Sql Pg DB ConnectionFacts PgFacts.



(** *** The two lookups *)

Lemma run_select_not_exception (rels : list relation) (text msg : string) :
  run_select rels text <> Raise (Exception msg).
Proof.
  unfold run_select.
  destruct (parse text) as [q|]; [|discriminate].
  destruct (resolve rels (sel_from q)) as [[columns rows]|]; [|discriminate].
  destruct (find _ (select_cols q)); discriminate.
Qed.

Lemma search_for_results_run (self : DB.DB)
  (search_id artifact_type artifact_value : option string) (s : pg) :
  reachable s = true ->
  search_for_results self search_id artifact_type artifact_value s
  = (lookup_outcome (relations s) (cts_id self) "_results"
       search_id artifact_type artifact_value,
     closed (next_conn s) (opened s)).
Proof.
  intros Hup. unfold search_for_results, lookup_outcome, no_key.
  rewrite (handle_db_connection_run _ s Hup).
  destruct (negb (truthy search_id)
            && (negb (truthy artifact_type) || negb (truthy artifact_value)));
    [reflexivity|].
  destruct (truthy search_id); cbn [fst snd];
    unfold fetch; rewrite is_open_opened; reflexivity.
Qed.

Lemma search_for_active_search_run (self : DB.DB)
  (search_id artifact_type artifact_value : option string) (s : pg) :
  reachable s = true ->
  search_for_active_search self search_id artifact_type artifact_value s
  = (lookup_outcome (relations s) (cts_id self) "_active_searches"
       search_id artifact_type artifact_value,
     closed (next_conn s) (opened s)).
Proof.
  intros Hup. unfold search_for_active_search, lookup_outcome, no_key.
  rewrite (handle_db_connection_run _ s Hup).
  destruct (negb (truthy search_id)
            && (negb (truthy artifact_type) || negb (truthy artifact_value)));
    [reflexivity|].
  destruct (truthy search_id); cbn [fst snd];
    unfold fetch; rewrite is_open_opened; reflexivity.
Qed.

Lemma lookup_outcome_rejects (rels : list relation) (id suffix : string)
  (search_id artifact_type artifact_value : option string) :
  lookup_outcome rels id suffix search_id artifact_type artifact_value
  = Raise (Exception required_parameters)
  <-> no_key search_id artifact_type artifact_value = true.
Proof.
  unfold lookup_outcome.
  destruct (no_key search_id artifact_type artifact_value).
  - split; reflexivity.
  - split; [|discriminate]. intros H; exfalso.
    destruct (truthy search_id);
      exact (run_select_not_exception _ _ _ H).
Qed.

Lemma lookup_outcome_by_search_id (rels : list relation) (id suffix : string)
  (search_id artifact_type artifact_value : option string) :
  truthy search_id = true ->
  lookup_outcome rels id suffix search_id artifact_type artifact_value
  = lookup_outcome rels id suffix search_id None None.
Proof.
  intros H. unfold lookup_outcome, no_key. rewrite H. reflexivity.
Qed.

(** A fingerprint made of two non-empty strings without a quote selects,
    in either table, the rows that carry it. *)
Lemma lookup_outcome_by_fingerprint (rels : list relation)
  (id suffix t v : string) (columns : list string) (rows : list row) :
  identifier_start id = true -> identifier suffix = true ->
  6 < String.length suffix ->
  t <> EmptyString -> v <> EmptyString ->
  no_quote t = true -> no_quote v = true ->
  resolve rels (id ++ suffix) = Some (columns, rows) ->
  has_col columns "artifact_type" = true ->
  has_col columns "artifact_value" = true ->
  lookup_outcome rels id suffix None (Some t) (Some v)
  = Ok (filter (fingerprint_match t v) rows).
Proof.
  intros Hid Hsuf Hlen Htne Hvne Ht Hv Hres Hc1 Hc2.
  unfold lookup_outcome, no_key, truthy.
  apply String.eqb_neq in Htne, Hvne. rewrite Htne, Hvne. cbn [negb andb orb].
  now apply (select_by_fingerprint rels id suffix t v columns rows).
Qed.

(** C5: called with an [int] id, the relational [remove_active_search]
    answers with the status line of its [DELETE], which counts the rows
    removed, be they none, one or several: it raises neither
    [ActiveSearchNotFound] nor an error for several records.  (The
    document backend does check the count.) *)
Theorem remove_active_search_returns_status_line :
  forall (self : DB.DB) (n : nat) (s : pg) (r : relation),
    reachable s = true ->
    plain_name (active_searches_table self) = true ->
    find (named (lower (active_searches_table self))) (relations s) = Some r ->
    fst (remove_active_search self (str_of_nat n) s)
    = Ok (fstring ["DELETE ";
                   str_of_nat
                     (length (filter (has_key (str_of_nat n))
                                (rel_rows r)))]).
Proof.
  intros self n s r Hup Hname Hfind. unfold remove_active_search.
  rewrite (handle_db_connection_run _ s Hup); cbn [fst].
  unfold delete_where_search_id. rewrite is_open_opened.
  unfold with_relation. rewrite Hname.
  change (relations (opened s)) with (relations s). rewrite Hfind.
  now rewrite ValueFacts.int_search_id_accepted.
Qed.

Lemma remove_active_search_returns_status_line_witness :
  let s := Sample.store [Sample.active_search "1" "uri" "http://a"] [] in
  (reachable s = true
   /\ plain_name (active_searches_table Sample.cts) = true
   /\ find (named (lower (active_searches_table Sample.cts))) (relations s)
      = Some (Fixture.active_relation
                [Sample.active_search "1" "uri" "http://a"]))
  /\ fst (remove_active_search Sample.cts (str_of_nat 7) s) = Ok "DELETE 0".
Proof.
  cbv zeta. split; [refine (conj _ (conj _ _)); reflexivity|].
  exact (remove_active_search_returns_status_line Sample.cts 7
           (Sample.store [Sample.active_search "1" "uri" "http://a"] [])
           _ eq_refl eq_refl eq_refl).
Defined.

Lemma filter_all {A} (p : A -> bool) (l : list A) :
  (forall x, p x = true) -> filter p l = l.
Proof.
  intros Hp. induction l as [|x l IH]; simpl; [reflexivity|].
  now rewrite Hp, IH.
Qed.

(** C8: the lookups paste their arguments into the statement text.
    Whatever the results table holds, a lookup whose value is
    [' OR '1'='1] returns every record of the table, not the records
    with that value, and a lookup for the value [O'Brien] raises a
    syntax error, whether or not a record carries that value. *)
Theorem lookup_pastes_value_into_statement :
  forall rows : list row,
    fst (search_for_results Sample.cts None (Some "uri")
           (Some "' OR '1'='1") (Sample.store [] rows)) = Ok rows
    /\ fst (search_for_results Sample.cts None (Some "string")
              (Some "O'Brien") (Sample.store [] rows))
       = Raise PostgresSyntaxError.
Proof.
  intros rows.
  rewrite !(search_for_results_run Sample.cts _ _ _ (Sample.store [] rows)
              eq_refl).
  cbn [fst]. unfold lookup_outcome.
  change (no_key None (Some "uri") (Some "' OR '1'='1")) with false.
  change (no_key None (Some "string") (Some "O'Brien")) with false.
  cbn [truthy]. unfold run_select.
  split.
  - change (parse _) with
      (Some {| sel_cols := None; sel_from := "cts_results";
               sel_where :=
                 [[Cmp (Col "artifact_type") (Lit "uri");
                   Cmp (Col "artifact_value") (Lit "")];
                  [Cmp (Lit "1") (Lit "1")]] |}).
    cbn [sel_from sel_cols sel_where].
    change (resolve _ _) with
      (Some (["search_id"; "artifact_type"; "artifact_value"; "date_found";
              "hit"], rows)).
    cbn. rewrite map_project_all. f_equal.
    apply filter_all. intros r. unfold eval_cond; cbn.
    now rewrite orb_true_r.
  - change (parse _) with (@None select). reflexivity.
Qed.

(** On a table with one record for [("ip", "10.0.0.1")] and one for
    [("string", "O'Brien")]: neither record carries the fingerprint the
    first lookup asks for, and one carries the second. *)
Lemma pasted_lookups_on_two_records :
  let rows := [Sample.result_record "7" "ip" "10.0.0.1" "{}";
               Sample.result_record "8" "string" "O'Brien" "{}"] in
  fst (search_for_results Sample.cts None (Some "uri")
         (Some "' OR '1'='1") (Sample.store [] rows)) = Ok rows
  /\ filter (fingerprint_match "uri" "' OR '1'='1") rows = []
  /\ fst (search_for_results Sample.cts None (Some "string")
            (Some "O'Brien") (Sample.store [] rows))
     = Raise PostgresSyntaxError
  /\ filter (fingerprint_match "string" "O'Brien") rows
     = [Sample.result_record "8" "string" "O'Brien" "{}"].
Proof. vm_compute. repeat split. Qed.

(** The relational removal has no check of its own: whatever it raises
    comes from the connection or from the statement. *)
Lemma remove_active_search_unchecked (self : DB.DB) (search_id x : string)
  (s : pg) :
  fst (remove_active_search self search_id s) <> Raise (ActiveSearchNotFound x)
  /\ fst (remove_active_search self search_id s)
     <> Raise (DeletedMultipleActiveSearches x).
Proof.
  unfold remove_active_search.
  destruct (reachable s) eqn:Hup.
  - rewrite (handle_db_connection_run _ s Hup); cbn [fst].
    unfold delete_where_search_id. rewrite is_open_opened.
    unfold with_relation.
    destruct (plain_name (active_searches_table self));
      [|split; discriminate].
    destruct (find _ (relations (opened s))); [|split; discriminate].
    destruct (refused_search_id (Some search_id)); split; discriminate.
  - rewrite (handle_db_connection_down _ s Hup). split; discriminate.
Qed.

End DBFacts.

(** ** [util/mongo.py] *)

Module MongoFacts.
Import Mongo.

Lemma search_for_results_by_fingerprint (t v : string) (m : mongo) :
  t <> EmptyString -> v <> EmptyString ->
  search_for_results None (Some t) (Some v) m
  = (Ok (find_one (results m) [("artifact_value", v); ("artifact_type", t)]),
     m).
Proof.
  intros Ht Hv. apply String.eqb_neq in Ht, Hv.
  unfold search_for_results, truthy. rewrite Ht, Hv. reflexivity.
Qed.

Lemma search_for_active_search_by_fingerprint (t v : string) (m : mongo) :
  t <> EmptyString -> v <> EmptyString ->
  search_for_active_search None (Some t) (Some v) m
  = (Ok (find_one (active_searches m)
           [("artifact_value", v); ("artifact_type", t)]),
     m).
Proof.
  intros Ht Hv. apply String.eqb_neq in Ht, Hv.
  unfold search_for_active_search, truthy. rewrite Ht, Hv. reflexivity.
Qed.

Lemma ObjectId_outcome {St} (s : string) (st : St) :
  ObjectId s st = (Ok (Sql.lower s), st) \/ ObjectId s st = (Raise (InvalidId s), st).
Proof.
  unfold ObjectId.
  destruct (Nat.eqb (String.length s) 24 && string_forall is_hex s);
    [left | right]; reflexivity.
Qed.

(** The document backend checks how many documents a removal deleted. *)
Lemma remove_active_search_checks (search_id oid : string) (m : mongo) :
  ObjectId search_id m = (Ok oid, m) ->
  let n := length (filter (matches [("_id", oid)]) (active_searches m)) in
  (n = 0 ->
   fst (remove_active_search search_id m)
   = Raise (ActiveSearchNotFound search_id))
  /\ (n = 1 -> fst (remove_active_search search_id m) = Ok true)
  /\ (1 < n ->
      fst (remove_active_search search_id m)
      = Raise (DeletedMultipleActiveSearches search_id)).
Proof.
  intros Hoid n.
  assert (Hrun : fst (remove_active_search search_id m)
    = if Nat.eqb n 1 then Ok true
      else if Nat.ltb 1 n
      then Raise (DeletedMultipleActiveSearches search_id)
      else Raise (ActiveSearchNotFound search_id)).
  { unfold remove_active_search, bind. rewrite Hoid.
    unfold gets, modify; cbn [fst snd deleted_count]. fold n.
    destruct (Nat.eqb n 1); [reflexivity|].
    destruct (Nat.ltb 1 n); reflexivity. }
  rewrite Hrun. repeat split; intros Hn.
  - now rewrite Hn.
  - now rewrite Hn.
  - destruct (Nat.eqb_spec n 1); [lia|].
    destruct (Nat.ltb_spec 1 n); [reflexivity | lia].
Qed.

End MongoFacts.

(** ** The two backends side by side *)

Module PortFacts.
Import Sql Pg ConnectionFacts PgFacts DBFacts MongoFacts.

(** Removing an active search whose id matches no record: the
    relational backend, called with the id 7, returns the status line
    [DELETE 0] and leaves the table as it was; the document backend
    raises [ActiveSearchNotFound] on a collection with the same
    content. *)
Lemma remove_active_search_unmatched :
  DB.remove_active_search Sample.cts (str_of_nat 7)
    (Sample.store [Sample.active_search "1" "uri" "http://a"] [])
  = (Ok "DELETE 0",
     closed 0
       (opened (Sample.store [Sample.active_search "1" "uri" "http://a"] [])))
  /\ fst (Mongo.remove_active_search Sample.oid2
            (Sample.collections
               [Sample.active_document Sample.oid1 "uri" "http://a"] []))
     = Raise (ActiveSearchNotFound Sample.oid2).
Proof. vm_compute. split; reflexivity. Qed.

(** *** Which lookups are refused *)

Lemma mongo_search_for_active_search_rejects
  (search_id artifact_type artifact_value : option string) (m : Mongo.mongo) :
  fst (Mongo.search_for_active_search search_id artifact_type artifact_value m)
  = Raise (ValueError Mongo.need_to_supply)
  <-> no_key search_id artifact_type artifact_value = true.
Proof.
  unfold Mongo.search_for_active_search, no_key.
  destruct (truthy search_id); cbn [negb andb].
  - unfold bind.
    destruct (ObjectId_outcome (format search_id) m) as [-> | ->];
      cbn; split; discriminate.
  - destruct (truthy artifact_type), (truthy artifact_value); cbn;
      split; solve [reflexivity | discriminate].
Qed.

Lemma mongo_search_for_results_rejects
  (search_id artifact_type artifact_value : option string) (m : Mongo.mongo) :
  fst (Mongo.search_for_results search_id artifact_type artifact_value m)
  = Raise (ValueError Mongo.need_to_supply)
  <-> no_key search_id artifact_type artifact_value = true.
Proof.
  unfold Mongo.search_for_results, no_key.
  destruct (truthy search_id); cbn [negb andb].
  - cbn; split; discriminate.
  - destruct (truthy artifact_type), (truthy artifact_value); cbn;
      split; solve [reflexivity | discriminate].
Qed.

(** C6, as the code has it: each of the four lookups is refused with
    its missing-key error (a plain [Exception] in the relational
    backend, [ValueError] in the document backend) exactly when no key
    is supplied, that is when the search id is absent or empty and the
    type or the value is absent or empty.  A call that supplies the
    search id together with the fingerprint is not refused: it looks up
    by search id and ignores the fingerprint. *)
Theorem lookup_refused_iff_no_key :
  forall (self : DB.DB) (search_id artifact_type artifact_value : option string)
         (s : pg) (m : Mongo.mongo),
    reachable s = true ->
    (fst (DB.search_for_active_search self search_id artifact_type
            artifact_value s)
     = Raise (Exception DB.required_parameters)
     <-> no_key search_id artifact_type artifact_value = true)
    /\ (fst (DB.search_for_results self search_id artifact_type
               artifact_value s)
        = Raise (Exception DB.required_parameters)
        <-> no_key search_id artifact_type artifact_value = true)
    /\ (fst (Mongo.search_for_active_search search_id artifact_type
               artifact_value m)
        = Raise (ValueError Mongo.need_to_supply)
        <-> no_key search_id artifact_type artifact_value = true)
    /\ (fst (Mongo.search_for_results search_id artifact_type
               artifact_value m)
        = Raise (ValueError Mongo.need_to_supply)
        <-> no_key search_id artifact_type artifact_value = true)
    /\ (truthy search_id = true ->
        DB.search_for_active_search self search_id artifact_type
          artifact_value s
        = DB.search_for_active_search self search_id None None s
        /\ DB.search_for_results self search_id artifact_type
             artifact_value s
           = DB.search_for_results self search_id None None s
        /\ Mongo.search_for_active_search search_id artifact_type
             artifact_value m
           = Mongo.search_for_active_search search_id None None m
        /\ Mongo.search_for_results search_id artifact_type
             artifact_value m
           = Mongo.search_for_results search_id None None m).
Proof.
  intros self search_id artifact_type artifact_value s m Hup.
  rewrite !(search_for_active_search_run self _ _ _ s Hup).
  rewrite !(search_for_results_run self _ _ _ s Hup).
  cbn [fst].
  split; [apply lookup_outcome_rejects|].
  split; [apply lookup_outcome_rejects|].
  split; [apply mongo_search_for_active_search_rejects|].
  split; [apply mongo_search_for_results_rejects|].
  intros Hid.
  rewrite !(lookup_outcome_by_search_id _ _ _ search_id artifact_type
              artifact_value Hid).
  unfold Mongo.search_for_active_search, Mongo.search_for_results.
  rewrite Hid. repeat split; reflexivity.
Qed.

Lemma lookup_refused_iff_no_key_witness :
  reachable (Sample.store [] []) = true
  /\ (fst (DB.search_for_active_search Sample.cts None (Some "uri") None
             (Sample.store [] []))
      = Raise (Exception DB.required_parameters)
      <-> no_key None (Some "uri") None = true).
Proof.
  split; [reflexivity|].
  exact (proj1 (lookup_refused_iff_no_key Sample.cts None (Some "uri") None
                  (Sample.store [] []) (Sample.collections [] []) eq_refl)).
Defined.

(** C6 as stated fails: a lookup given both a search id and a
    fingerprint is answered, in both backends, and the answer is the
    record with that search id whatever the fingerprint says. *)
Lemma lookup_with_both_keys_is_answered :
  fst (DB.search_for_active_search Sample.cts
         (Some "1") (Some "ip") (Some "10.0.0.1")
         (Sample.store [Sample.active_search "1" "uri" "http://a"] []))
  = Ok [Sample.active_search "1" "uri" "http://a"]
  /\ fst (Mongo.search_for_results
            (Some "1") (Some "ip") (Some "10.0.0.1")
            (Sample.collections []
               [Sample.result_document Sample.oid1 "1" "uri" "http://a" "{}"]))
     = Ok (Some (Sample.result_document Sample.oid1 "1" "uri" "http://a" "{}")).
Proof. vm_compute. split; reflexivity. Qed.

(** *** What a lookup by fingerprint returns *)

Lemma find_is_first_match {A B} (R : A -> B -> Prop)
  (p : A -> bool) (q : B -> bool) (xs : list A) (ys : list B) :
  Forall2 R xs ys ->
  (forall x y, R x y -> p x = q y) ->
  related_option R (hd_error (filter p xs)) (find q ys).
Proof.
  intros Hall Hpq. induction Hall as [|x y xs ys Hxy Hall IH]; simpl.
  - exact I.
  - rewrite <- (Hpq x y Hxy). destruct (p x); simpl; [exact Hxy | exact IH].
Qed.

Lemma matches_fingerprint (t v : string) (r : row) (d : Mongo.document) :
  same_fingerprint r d ->
  fingerprint_match t v r
  = Mongo.matches [("artifact_value", v); ("artifact_type", t)] d.
Proof.
  intros [Ht Hv]. unfold fingerprint_match, Mongo.matches; cbn.
  rewrite Ht, Hv, andb_true_r. apply andb_comm.
Qed.


Section SameContents.

(** A relational store and a document store that hold the same results
    and the same active searches, in the same order.  Results are the
    same when they agree on fingerprint, search id and hit; active
    searches when they agree on the fingerprint, each backend drawing
    its own identifiers. *)
Variable self : DB.DB.
Variable s : pg.
Variable m : Mongo.mongo.
Variables result_columns active_columns : list string.
Variables result_rows active_rows : list row.

Hypothesis store_up : reachable s = true.
Hypothesis plain_id : identifier_start (DB.cts_id self) = true.
Hypothesis results_there :
  resolve (relations s) (DB.results_table self)
  = Some (result_columns, result_rows).
Hypothesis active_there :
  resolve (relations s) (DB.active_searches_table self)
  = Some (active_columns, active_rows).
Hypothesis result_columns_ok :
  has_col result_columns "artifact_type" = true
  /\ has_col result_columns "artifact_value" = true.
Hypothesis active_columns_ok :
  has_col active_columns "artifact_type" = true
  /\ has_col active_columns "artifact_value" = true.
Hypothesis same_results : Forall2 same_result result_rows (Mongo.results m).
Hypothesis same_active_searches :
  Forall2 same_active_search active_rows (Mongo.active_searches m).


End SameContents.


End PortFacts.

(** ** [async_cts.py] *)

Module OrchestratorFacts.
Import Pg ConnectionFacts DBFacts AsyncCTS.

Section Handler.

Variable uuid4 : nat -> string.
Variable self : DB.DB.

(** A request whose two lookups went through. *)
Variable artifact_payload : row.
Variable file : option file_payload.
Variable w : world.
Variables past_results active_searches : list row.
Variables s1 s2 : pg.

Hypothesis results_found :
  DB.search_for_results self None
    (get "type" artifact_payload) (get "value" artifact_payload) (db w)
  = (Ok past_results, s1).
Hypothesis active_found :
  DB.search_for_active_search self None
    (get "type" artifact_payload) (get "value" artifact_payload) s1
  = (Ok active_searches, s2).

Lemma lookups_run :
  await_db (gather
    (DB.search_for_results self None
       (get "type" artifact_payload) (get "value" artifact_payload))
    (DB.search_for_active_search self None
       (get "type" artifact_payload) (get "value" artifact_payload))) w
  = (Ok (past_results, active_searches), with_db w s2).
Proof.
  unfold await_db, gather. now rewrite results_found, active_found.
Qed.

(** The second lookup went through, so the store can be reached and is
    left with no connection of the handler open. *)
Lemma store_reachable_after_lookups : reachable s2 = true.
Proof.
  destruct (reachable s1) eqn:Hup.
  - rewrite (search_for_active_search_run self _ _ _ s1 Hup) in active_found.
    injection active_found as _ <-. exact Hup.
  - unfold DB.search_for_active_search in active_found.
    rewrite (handle_db_connection_down _ s1 Hup) in active_found.
    discriminate active_found.
Qed.

(** The branch for one active search is tried before the branch for one
    stored result. *)
Lemma join_in_flight_first :
  length active_searches = 1 ->
  scanArtifactHandler uuid4 self artifact_payload file w
  = (Ok (Some (Response
       (fstring ["active search ";
                 format (get "search_id" (hd [] active_searches))]))),
     with_db w s2).
Proof.
  intros Hone. unfold scanArtifactHandler, bind.
  rewrite lookups_run; cbn [fst snd]. rewrite Hone.
  rewrite andb_false_r. reflexivity.
Qed.

Lemma stored_result_branch (hit : string) :
  length past_results = 1 ->
  length active_searches <> 1 ->
  get "hit" (hd [] past_results) = Some hit ->
  scanArtifactHandler uuid4 self artifact_payload file w
  = (Ok (Some (json_response hit)), with_db w s2).
Proof.
  intros Hone Hnot Hhit. unfold scanArtifactHandler, bind.
  rewrite lookups_run; cbn [fst snd]. rewrite Hone. cbn [Nat.eqb andb].
  apply Nat.eqb_neq in Hnot. rewrite Hnot.
  unfold json_loads. rewrite Hhit. reflexivity.
Qed.

(** C4: on the stored-result path the handler returns before its
    [os.unlink]: the uploaded file is still on disk, nothing was
    unlinked, and no task is left that would unlink it later. *)
Theorem stored_result_path_keeps_file :
  forall (f : file_payload) (hit : string),
    file = Some f ->
    length past_results = 1 ->
    length active_searches <> 1 ->
    get "hit" (hd [] past_results) = Some hit ->
    let after := snd (scanArtifactHandler uuid4 self artifact_payload file w) in
    fst (scanArtifactHandler uuid4 self artifact_payload file w)
    = Ok (Some (json_response hit))
    /\ files after = files w
    /\ unlinked after = unlinked w
    /\ pending after = pending w.
Proof.
  intros f hit _ Hone Hnot Hhit after. subst after.
  rewrite (stored_result_branch hit Hone Hnot Hhit).
  repeat split.
Qed.

(** C2: with no stored result and no active search the handler
    schedules the searcher, draws the search id from [uuid4], hands it
    to the completion callback, and then calls [add_active_search] with
    three arguments; the call is refused with [TypeError], so no record
    is registered and no response is produced. *)
Theorem launch_registers_nothing :
  past_results = [] ->
  active_searches = [] ->
  Forall (fun t => task_id t < next_task w) (pending w) ->
  let after := snd (scanArtifactHandler uuid4 self artifact_payload file w) in
  fst (scanArtifactHandler uuid4 self artifact_payload file w)
  = Raise (TypeError "add_active_search() positional arguments")
  /\ relations (db after) = relations s2
  /\ pending after
     = pending w
       ++ [{| task_id := next_task w;
              coro := Searcher (get "type" artifact_payload)
                        (get "value" artifact_payload) file;
              done_callbacks :=
                [SearchComplete (uuid4 (uuid_count w)) artifact_payload
                   file] |}].
Proof.
  intros Hpast Hactive Hfresh after. subst after.
  pose proof store_reachable_after_lookups as Hup.
  unfold scanArtifactHandler, bind.
  rewrite lookups_run; cbn [fst snd]. rewrite Hpast, Hactive.
  cbn [length Nat.eqb andb].
  unfold create_task, new_uuid, add_done_callback, modify, await_db,
    DB.add_active_search.
  cbn [db with_pending with_uuid_count with_db next_task pending uuid_count].
  rewrite (handle_db_connection_run _ s2 Hup).
  cbn [fst snd raise db pending with_db relations closed opened with_conns].
  repeat split.
  rewrite map_app; cbn [pending with_pending map].
  unfold add_callback at 2; cbn [task_id coro done_callbacks app].
  rewrite Nat.eqb_refl. f_equal.
  rewrite <- (map_id (pending w)) at 2.
  apply map_ext_in. intros t Hin.
  rewrite Forall_forall in Hfresh. specialize (Hfresh t Hin).
  unfold add_callback.
  destruct (Nat.eqb_spec (task_id t) (next_task w)); [lia | reflexivity].
Qed.

End Handler.

(** C1 as stated fails: with one stored result and one active search
    for the fingerprint the response is the reference to the active
    search, and with two stored results and no active search the handler
    returns no response at all. *)
Lemma stored_result_does_not_take_priority :
  fst (scanArtifactHandler Sample.uuid4 Sample.cts
         (Sample.artifact "uri" "http://a") None
         (Sample.process
            [Sample.active_search "1" "uri" "http://a"]
            [Sample.result_record "7" "uri" "http://a" "{}"]))
  = Ok (Some (Response "active search 1"))
  /\ fst (scanArtifactHandler Sample.uuid4 Sample.cts
            (Sample.artifact "uri" "http://a") None
            (Sample.process []
               [Sample.result_record "7" "uri" "http://a" "{}";
                Sample.result_record "8" "uri" "http://a" "[]"]))
     = Ok None.
Proof. vm_compute. split; reflexivity. Qed.

Lemma stored_result_path_keeps_file_witness :
  let w := Sample.process [] [Sample.result_record "7" "uri" "http://a" "{}"] in
  let after :=
    snd (scanArtifactHandler Sample.uuid4 Sample.cts
           (Sample.artifact "uri" "http://a") (Some Sample.upload) w) in
  fst (scanArtifactHandler Sample.uuid4 Sample.cts
         (Sample.artifact "uri" "http://a") (Some Sample.upload) w)
  = Ok (Some (json_response "{}"))
  /\ files after = [path Sample.upload]
  /\ unlinked after = []
  /\ pending after = [].
Proof.
  cbv zeta.
  refine (stored_result_path_keeps_file
       Sample.uuid4 Sample.cts (Sample.artifact "uri" "http://a")
       (Some Sample.upload)
       (Sample.process [] [Sample.result_record "7" "uri" "http://a" "{}"])
       [Sample.result_record "7" "uri" "http://a" "{}"] []
       (closed 0 (opened (Sample.store []
          [Sample.result_record "7" "uri" "http://a" "{}"])))
       (closed 1 (opened (closed 0 (opened (Sample.store []
          [Sample.result_record "7" "uri" "http://a" "{}"])))))
       _ _ Sample.upload "{}" eq_refl eq_refl _ eq_refl).
  - vm_compute; reflexivity.
  - vm_compute; reflexivity.
  - simpl; lia.
Defined.

Lemma launch_registers_nothing_witness :
  let w := Sample.process [] [] in
  let after :=
    snd (scanArtifactHandler Sample.uuid4 Sample.cts
           (Sample.artifact "uri" "https://example.com") None w) in
  fst (scanArtifactHandler Sample.uuid4 Sample.cts
         (Sample.artifact "uri" "https://example.com") None w)
  = Raise (TypeError "add_active_search() positional arguments")
  /\ relations (db after) = relations (Sample.store [] [])
  /\ pending after
     = [{| task_id := 0;
           coro := Searcher (Some "uri") (Some "https://example.com") None;
           done_callbacks :=
             [SearchComplete (Sample.uuid4 0)
                (Sample.artifact "uri" "https://example.com") None] |}].
Proof.
  cbv zeta.
  refine (launch_registers_nothing
       Sample.uuid4 Sample.cts (Sample.artifact "uri" "https://example.com")
       None (Sample.process [] []) [] []
       (closed 0 (opened (Sample.store [] [])))
       (closed 1 (opened (closed 0 (opened (Sample.store [] [])))))
       _ _ eq_refl eq_refl _).
  - vm_compute; reflexivity.
  - vm_compute; reflexivity.
  - constructor.
Defined.

(** *** The completion reaction *)

(** The reaction to a search that ended well: both store tasks are
    scheduled and the uploaded file is unlinked, once. *)
Lemma search_complete_handler_success (hit search_id : string)
  (artifact_type artifact_value : option string) (f : file_payload)
  (w : world) :
  existsb (String.eqb (path f)) (files w) = true ->
  let after :=
    snd (search_complete_handler (Ok hit) search_id artifact_type
           artifact_value (Some f) w) in
  fst (search_complete_handler (Ok hit) search_id artifact_type
         artifact_value (Some f) w) = Ok tt
  /\ map coro (pending after)
     = map coro (pending w)
       ++ [RemoveActiveSearch search_id;
           StoreSearchResults search_id artifact_type artifact_value hit]
  /\ unlinked after = unlinked w ++ [path f]
  /\ existsb (String.eqb (path f)) (files after) = false.
Proof.
  intros Hthere after. subst after.
  unfold search_complete_handler, bind, create_task, future_result, ret,
    os_unlink.
  cbn [fst snd files with_pending pending next_task]. rewrite Hthere.
  cbn [fst snd with_files pending unlinked files].
  repeat split.
  - cbn [pending with_pending]. rewrite <- app_assoc, !map_app. reflexivity.
  - clear Hthere. induction (files w) as [|x xs IH]; [reflexivity|]; simpl.
    destruct (path f =? x) eqn:E; simpl; [exact IH|].
    rewrite E. exact IH.
Qed.

(** The completion reaction to a search that failed: the removal is
    scheduled, then [future.result()] raises. *)
Lemma search_complete_handler_failure (e : exn) (search_id : string)
  (artifact_type artifact_value : option string)
  (file : option file_payload) (w : world) :
  search_complete_handler (Raise e) search_id artifact_type
    artifact_value file w
  = (Raise e,
     with_pending w (S (next_task w))
       (pending w
        ++ [{| task_id := next_task w;
               coro := RemoveActiveSearch search_id;
               done_callbacks := [] |}])).
Proof. reflexivity. Qed.

(** C3: when the searcher task of a launched investigation fails, the
    turn of the loop that runs it and its completion reaction schedules
    the removal of the active search and nothing else; the searcher's
    exception is raised by the completion reaction and reaches the
    loop.  No write to the results table is scheduled, the store is
    untouched and the uploaded file is not unlinked. *)
Theorem failed_search_is_not_recorded :
  forall (searcher : option string -> option string -> option file_payload
                     -> result string)
         (self : DB.DB) (w : world) (t : task) (rest : list task)
         (artifact_type artifact_value : option string)
         (file : option file_payload)
         (search_id : string) (artifact_payload : row) (e : exn),
    pending w = t :: rest ->
    coro t = Searcher artifact_type artifact_value file ->
    done_callbacks t = [SearchComplete search_id artifact_payload file] ->
    searcher artifact_type artifact_value file = Raise e ->
    run_task searcher self w
    = report e
        (with_pending w (S (next_task w))
           (rest
            ++ [{| task_id := next_task w;
                   coro := RemoveActiveSearch search_id;
                   done_callbacks := [] |}])).
Proof.
  intros searcher self w t rest artifact_type artifact_value file
    search_id artifact_payload e Hpending Hcoro Hcallbacks Hfails.
  unfold run_task. rewrite Hpending, Hcoro, Hcallbacks.
  unfold run_coroutine. rewrite Hfails. cbn [future_result raise].
  cbn [run_callbacks run_callback].
  rewrite search_complete_handler_failure. reflexivity.
Qed.

Lemma failed_search_is_not_recorded_witness :
  let launched :=
    snd (scanArtifactHandler Sample.uuid4 Sample.cts
           (Sample.artifact "uri" "http://unreachable") (Some Sample.upload)
           (Sample.process [] [])) in
  let after := run_task Sample.searcher Sample.cts launched in
  map coro (pending after) = [RemoveActiveSearch (Sample.uuid4 0)]
  /\ reported after = [SearcherFailure "timed out"]
  /\ files after = [path Sample.upload]
  /\ relations (db after) = relations (Sample.store [] []).
Proof.
  cbv zeta.
  rewrite (failed_search_is_not_recorded Sample.searcher Sample.cts
    (snd (scanArtifactHandler Sample.uuid4 Sample.cts
            (Sample.artifact "uri" "http://unreachable") (Some Sample.upload)
            (Sample.process [] [])))
    {| task_id := 0;
       coro := Searcher (Some "uri") (Some "http://unreachable")
                 (Some Sample.upload);
       done_callbacks :=
         [SearchComplete (Sample.uuid4 0)
            (Sample.artifact "uri" "http://unreachable")
            (Some Sample.upload)] |}
    [] (Some "uri") (Some "http://unreachable") (Some Sample.upload)
    (Sample.uuid4 0) (Sample.artifact "uri" "http://unreachable")
    (SearcherFailure "timed out")
    ltac:(vm_compute; reflexivity) eq_refl eq_refl eq_refl).
  vm_compute. repeat split.
Defined.

(** The same search followed to the end of the loop: no record is
    left in the results table and the uploaded file is still on disk.
    Two exceptions reached the loop: the searcher's, from the completion
    reaction, and the [DataError] of the removal task, whose id is the
    uuid of the handler where the column takes an [int]. *)
Lemma failed_search_leaves_no_result :
  let launched :=
    snd (scanArtifactHandler Sample.uuid4 Sample.cts
           (Sample.artifact "uri" "http://unreachable") (Some Sample.upload)
           (Sample.process [] [])) in
  let finished := run_loop Sample.searcher Sample.cts 2 launched in
  map coro (pending launched)
  = [Searcher (Some "uri") (Some "http://unreachable") (Some Sample.upload)]
  /\ pending finished = []
  /\ map rel_rows (relations (db finished)) = [[]; []]
  /\ reported finished
     = [SearcherFailure "timed out"; DataError (Sample.uuid4 0)]
  /\ files finished = [path Sample.upload].
Proof. vm_compute. repeat split. Qed.

End OrchestratorFacts.

(** * Further properties *)

(** ** Connections and contents across the operations of [util/db.py] *)

Module StoreFacts.
Import Sql Pg DB Inv ConnectionFacts SqlFacts PgFacts DBFacts.

Lemma closed_opened_conns (s : pg) :
  conns_fresh s ->
  filter (fun c => negb (Nat.eqb (next_conn s) c)) (open_conns s)
  = open_conns s.
Proof.
  unfold conns_fresh. induction (open_conns s) as [|c cs IH]; intros H;
    [reflexivity|].
  inversion H as [|? ? Hc Hcs]; subst. simpl.
  destruct (Nat.eqb_spec (next_conn s) c); [lia|]. simpl.
  now rewrite (IH Hcs).
Qed.

Lemma plain_id_start (id : string) :
  plain_id id = true -> identifier_start id = true.
Proof.
  unfold plain_id. intros H.
  apply andb_true_iff in H as [H _]. now apply andb_true_iff in H as [H _].
Qed.

(** A wrapped coroutine that itself opens and closes nothing leaves the
    set of open connections as the call found it. *)
Lemma decorated_call_releases {A} (func : nat -> M pg A) (s : pg) :
  (forall conn s0,
     open_conns (snd (func conn s0)) = open_conns s0
     /\ next_conn (snd (func conn s0)) = next_conn s0) ->
  conns_fresh s ->
  open_conns (snd (handle_db_connection func s)) = open_conns s
  /\ conns_fresh (snd (handle_db_connection func s)).
Proof.
  intros Hfunc Hfresh.
  destruct (reachable s) eqn:Hup.
  - rewrite (handle_db_connection_run func s Hup); cbn [snd].
    destruct (Hfunc (next_conn s) (opened s)) as [Hopen Hnext].
    assert (Hconns :
      open_conns (closed (next_conn s) (snd (func (next_conn s) (opened s))))
      = open_conns s).
    { unfold closed; cbn [open_conns with_conns]. rewrite Hopen.
      cbn [opened open_conns with_conns filter].
      rewrite Nat.eqb_refl; cbn [negb].
      now apply closed_opened_conns. }
    split; [exact Hconns|].
    unfold conns_fresh. rewrite Hconns.
    unfold closed; cbn [next_conn with_conns]. rewrite Hnext.
    cbn [opened next_conn with_conns].
    unfold conns_fresh in Hfresh.
    eapply Forall_impl; [|exact Hfresh]. cbn; intros c Hc; lia.
  - rewrite (handle_db_connection_down func s Hup). split; [reflexivity|].
    exact Hfresh.
Qed.

Lemma fetch_state (conn : nat) (text : string) (s : pg) :
  snd (fetch conn text s) = s.
Proof. unfold fetch. now destruct (is_open conn s). Qed.

Lemma with_relation_conns {A} (rel : string)
  (k : relation -> result A * relation) (s : pg) :
  open_conns (snd (with_relation rel k s)) = open_conns s
  /\ next_conn (snd (with_relation rel k s)) = next_conn s.
Proof.
  unfold with_relation. destruct (plain_name rel); [|split; reflexivity].
  destruct (find _ (relations s)) as [r|]; [|split; reflexivity].
  destruct (k r) as [out r']. split; reflexivity.
Qed.

Lemma insert_returning_conns (conn : nat) (rel : string) (values : row)
  (s : pg) :
  open_conns (snd (insert_returning conn rel values s)) = open_conns s
  /\ next_conn (snd (insert_returning conn rel values s)) = next_conn s.
Proof.
  unfold insert_returning. destruct (is_open conn s); [|split; reflexivity].
  apply with_relation_conns.
Qed.

Lemma delete_where_search_id_conns (conn : nat) (rel search_id : string)
  (s : pg) :
  open_conns (snd (delete_where_search_id conn rel search_id s))
  = open_conns s
  /\ next_conn (snd (delete_where_search_id conn rel search_id s))
     = next_conn s.
Proof.
  unfold delete_where_search_id.
  destruct (is_open conn s); [|split; reflexivity].
  apply with_relation_conns.
Qed.

Lemma lookup_conns (guard by_id : bool) (conn : nat) (e : exn)
  (text1 text2 : string) (s0 : pg) :
  open_conns
    (snd ((if guard then raise e
           else if by_id then fetch conn text1 else fetch conn text2) s0))
  = open_conns s0
  /\ next_conn
       (snd ((if guard then raise e
              else if by_id then fetch conn text1 else fetch conn text2) s0))
     = next_conn s0.
Proof.
  destruct guard; [split; reflexivity|].
  destruct by_id; rewrite fetch_state; split; reflexivity.
Qed.

(** Every decorated operation of [DB], whatever its arguments and its
    outcome, leaves the open connections as it found them, and keeps the
    handles in order, so that the same holds for the next call. *)
Theorem db_operations_release_connections :
  forall (self : DB.DB) (s : pg)
         (search_id artifact_type artifact_value : option string)
         (id hit : string) (args : list (option string)),
    conns_fresh s ->
    let released (s' : pg) := open_conns s' = open_conns s /\ conns_fresh s' in
    released (snd (search_for_active_search self search_id artifact_type
                     artifact_value s))
    /\ released (snd (search_for_results self search_id artifact_type
                        artifact_value s))
    /\ released (snd (store_search_results self id artifact_type
                        artifact_value hit s))
    /\ released (snd (remove_active_search self id s))
    /\ released (snd (add_active_search self args s))
    /\ released (snd (cts_tables_exist self s)).
Proof.
  intros self s search_id artifact_type artifact_value id hit args Hfresh
    released. subst released. cbv beta.
  refine (conj _ (conj _ (conj _ (conj _ (conj _ _)))));
    apply decorated_call_releases; try exact Hfresh; intros conn s0.
  - apply lookup_conns.
  - apply lookup_conns.
  - unfold bind, gets. apply insert_returning_conns.
  - apply delete_where_search_id_conns.
  - destruct args as [|a [|b [|c rest]]];
      try (split; reflexivity). apply insert_returning_conns.
  - unfold bind. rewrite (surjective_pairing (fetch conn _ s0)).
    rewrite fetch_state.
    destruct (fst (fetch conn (tables_statement self) s0)) as [tables|e];
      [|split; reflexivity].
    destruct (Nat.ltb 2 (length tables)); split; reflexivity.
Qed.

(** *** Names of the two tables *)

Lemma lower_append (a b : string) :
  lower (a ++ b) = (lower a ++ lower b)%string.
Proof.
  unfold lower. induction a as [|c a IH]; simpl; [reflexivity|].
  now rewrite IH.
Qed.

Lemma active_searches_not_catalog (x : string) :
  (x ++ "_active_searches")%string <> "information_schema.tables".
Proof.
  intros H.
  repeat (destruct x as [|? x];
          [ discriminate H
          | simpl in H; first [discriminate H | injection H as _ H] ]).
Qed.

Lemma results_not_catalog (x : string) :
  (x ++ "_results")%string <> "information_schema.tables".
Proof.
  intros H.
  repeat (destruct x as [|? x];
          [ discriminate H
          | simpl in H; first [discriminate H | injection H as _ H] ]).
Qed.

Lemma resolve_active_searches (self : DB.DB) (rels : list relation)
  (r : relation) :
  find (named (lower (active_searches_table self))) rels = Some r ->
  resolve rels (cts_id self ++ "_active_searches")
  = Some (rel_columns r, rel_rows r).
Proof.
  intros Hfind. unfold resolve.
  change (cts_id self ++ "_active_searches")%string
    with (active_searches_table self) in *.
  destruct (String.eqb_spec (lower (active_searches_table self))
              "information_schema.tables") as [E|_].
  - exfalso. unfold active_searches_table, fstring in E; simpl in E.
    rewrite lower_append in E.
    exact (active_searches_not_catalog _ E).
  - now rewrite Hfind.
Qed.

Lemma resolve_results (self : DB.DB) (rels : list relation) (r : relation) :
  find (named (lower (results_table self))) rels = Some r ->
  resolve rels (cts_id self ++ "_results")
  = Some (rel_columns r, rel_rows r).
Proof.
  intros Hfind. unfold resolve.
  change (cts_id self ++ "_results")%string with (results_table self) in *.
  destruct (String.eqb_spec (lower (results_table self))
              "information_schema.tables") as [E|_].
  - exfalso. unfold results_table, fstring in E; simpl in E.
    rewrite lower_append in E.
    exact (results_not_catalog _ E).
  - now rewrite Hfind.
Qed.

Lemma active_searches_plain_name (self : DB.DB) :
  identifier_start (cts_id self) = true ->
  plain_name (active_searches_table self) = true.
Proof.
  intros Hid. unfold plain_name.
  change (active_searches_table self)
    with (cts_id self ++ "_active_searches")%string.
  rewrite (identifier_append _ "_active_searches" Hid eq_refl).
  rewrite long_word_not_keyword; [reflexivity|].
  rewrite length_append; simpl; lia.
Qed.

Lemma results_plain_name (self : DB.DB) :
  identifier_start (cts_id self) = true ->
  plain_name (results_table self) = true.
Proof.
  intros Hid. unfold plain_name.
  change (results_table self) with (cts_id self ++ "_results")%string.
  rewrite (identifier_append _ "_results" Hid eq_refl).
  rewrite long_word_not_keyword; [reflexivity|].
  rewrite length_append; simpl; lia.
Qed.

(** *** Replacing one relation *)

Lemma find_named (name : string) (rels : list relation) (r : relation) :
  find (named name) rels = Some r -> named name r = true.
Proof. intros H. now destruct (find_some _ _ H). Qed.

Lemma find_update_named (name : string) (r' : relation)
  (rels : list relation) (r : relation) :
  find (named name) rels = Some r ->
  named name r' = true ->
  find (named name) (update_named name (fun _ => r') rels) = Some r'.
Proof.
  intros Hfind Hr'. induction rels as [|x rels IH]; [discriminate|].
  simpl in *. destruct (named name x) eqn:Hx; simpl.
  - now rewrite Hr'.
  - rewrite Hx. exact (IH Hfind).
Qed.

Lemma find_update_other (name other : string) (r' : relation)
  (rels : list relation) :
  other <> name ->
  named name r' = true ->
  find (named other) (update_named name (fun _ => r') rels)
  = find (named other) rels.
Proof.
  intros Hne Hr'.
  assert (Hnot : forall x, named name x = true -> named other x = false).
  { intros x Hx. unfold named in *.
    apply andb_true_iff in Hx as [_ Hx]. apply String.eqb_eq in Hx.
    rewrite Hx. apply String.eqb_neq in Hne.
    rewrite (String.eqb_sym name other), Hne. apply andb_false_r. }
  induction rels as [|x rels IH]; [reflexivity|]. simpl.
  destruct (named name x) eqn:Hx; simpl.
  - now rewrite (Hnot x Hx), (Hnot r' Hr').
  - rewrite IH. reflexivity.
Qed.

Lemma named_with_rows (name : string) (r : relation) (rows : list row)
  (serial : nat) :
  named name r = true -> named name (with_rows r rows serial) = true.
Proof. intros H; exact H. Qed.

(** *** The rendering of a serial number *)

Lemma digits_no_quote (d : Decimal.uint) :
  no_quote (DecimalString.NilEmpty.string_of_uint d) = true.
Proof. induction d; simpl; try reflexivity; exact IHd. Qed.

Lemma str_of_nat_no_quote (n : nat) : no_quote (str_of_nat n) = true.
Proof. apply digits_no_quote. Qed.

Lemma str_of_nat_not_empty (n : nat) : str_of_nat n <> EmptyString.
Proof.
  unfold str_of_nat. intros H.
  assert (Hnil : Nat.to_uint n = Decimal.Nil).
  { destruct (Nat.to_uint n); simpl in H; try discriminate H. reflexivity. }
  assert (Hn : n = 0).
  { rewrite <- (DecimalNat.Unsigned.of_to n), Hnil. reflexivity. }
  subst n. discriminate Hnil.
Qed.

Lemma str_of_nat_inj (n n' : nat) : str_of_nat n = str_of_nat n' -> n = n'.
Proof.
  unfold str_of_nat. intros H.
  apply DecimalNat.Unsigned.to_uint_inj.
  assert (Hs : Some (Nat.to_uint n) = Some (Nat.to_uint n')).
  { rewrite <- !DecimalString.NilEmpty.usu. now rewrite H. }
  now injection Hs.
Qed.

(** *** Inserting and deleting through the decorator *)

Lemma insert_returning_serial (conn : nat) (rel : string) (values : row)
  (s : pg) (r : relation) :
  is_open conn s = true ->
  plain_name rel = true ->
  find (named (lower rel)) (relations s) = Some r ->
  get "search_id" values = None ->
  insert_returning conn rel values s
  = let id := str_of_nat (S (rel_serial r)) in
    let r' :=
      if existsb (has_key id) (rel_rows r)
      then with_rows r (rel_rows r) (S (rel_serial r))
      else with_rows r
             (rel_rows r
              ++ [("search_id", id)
                  :: filter (fun kv => negb (fst kv =? "search_id")) values])
             (S (rel_serial r)) in
    (if existsb (has_key id) (rel_rows r)
     then Raise UniqueViolationError else Ok id,
     with_relations s (update_named (lower rel) (fun _ => r') (relations s))).
Proof.
  intros Hopen Hname Hfind Hnone.
  unfold insert_returning, with_relation.
  rewrite Hopen, Hname, Hfind, Hnone. cbv zeta. cbn [refused_search_id].
  destruct (existsb _ (rel_rows r)); reflexivity.
Qed.

Lemma insert_returning_key (conn : nat) (rel id : string) (values : row)
  (s : pg) (r : relation) :
  is_open conn s = true ->
  plain_name rel = true ->
  find (named (lower rel)) (relations s) = Some r ->
  get "search_id" values = Some id ->
  is_numeral id = true ->
  insert_returning conn rel values s
  = let r' :=
      if existsb (has_key id) (rel_rows r)
      then with_rows r (rel_rows r) (rel_serial r)
      else with_rows r
             (rel_rows r
              ++ [("search_id", id)
                  :: filter (fun kv => negb (fst kv =? "search_id")) values])
             (rel_serial r) in
    (if existsb (has_key id) (rel_rows r)
     then Raise UniqueViolationError else Ok id,
     with_relations s (update_named (lower rel) (fun _ => r') (relations s))).
Proof.
  intros Hopen Hname Hfind Hsome Hint.
  unfold insert_returning, with_relation.
  rewrite Hopen, Hname, Hfind, Hsome. cbv zeta.
  unfold refused_search_id. rewrite Hint.
  destruct (existsb _ (rel_rows r)); reflexivity.
Qed.

(** The state a decorated call leaves when its coroutine replaced the
    relations by [rels]. *)
Lemma table_of_after (s : pg) (rels : list relation) (name : string) :
  table_of (closed (next_conn s) (with_relations (opened s) rels)) name
  = find (named (lower name)) rels.
Proof. reflexivity. Qed.

Lemma reachable_after (s : pg) (rels : list relation) :
  reachable (closed (next_conn s) (with_relations (opened s) rels))
  = reachable s.
Proof. reflexivity. Qed.

Lemma cells_bring_no_key (artifact_type artifact_value : option string)
  (rest : row) :
  get "search_id" rest = None ->
  get "search_id"
    (cell "artifact_type" artifact_type
     ++ cell "artifact_value" artifact_value ++ rest) = None.
Proof. intros H. destruct artifact_type, artifact_value; exact H. Qed.

(** What [add_active_search] called with its two parameters does. *)
Lemma add_active_search_run (self : DB.DB)
  (artifact_type artifact_value : option string) (s : pg) (r : relation) :
  reachable s = true ->
  identifier_start (cts_id self) = true ->
  table_of s (active_searches_table self) = Some r ->
  let id := str_of_nat (S (rel_serial r)) in
  let clash := existsb (has_key id) (rel_rows r) in
  let r' :=
    with_rows r
      (if clash then rel_rows r
       else rel_rows r
            ++ [("search_id", id)
                :: cell "artifact_type" artifact_type
                ++ cell "artifact_value" artifact_value])
      (S (rel_serial r)) in
  add_active_search self [artifact_type; artifact_value] s
  = (if clash then Raise UniqueViolationError else Ok id,
     closed (next_conn s)
       (with_relations (opened s)
          (update_named (lower (active_searches_table self))
             (fun _ => r') (relations s)))).
Proof.
  intros Hup Hid Hfind id clash r'. subst id clash r'.
  unfold add_active_search.
  rewrite (handle_db_connection_run _ s Hup).
  rewrite (insert_returning_serial _ _ _ (opened s) r
             (is_open_opened s) (active_searches_plain_name self Hid) Hfind)
    by (rewrite <- (app_nil_r (cell "artifact_value" artifact_value));
        now apply cells_bring_no_key).
  cbv zeta. cbn [fst snd].
  destruct (existsb _ (rel_rows r)); [reflexivity|].
  do 4 f_equal.
  destruct artifact_type, artifact_value; reflexivity.
Qed.

(** *** Lookup by search id *)

Lemma lex_search_id_lookup (id suffix sid : string) :
  identifier (id ++ suffix) = true ->
  no_quote sid = true ->
  lex (fstring ["SELECT * FROM "; id;
                (suffix ++ " WHERE search_id = '")%string; sid; "';"])
  = Some [TWord "SELECT"; TStar; TWord "FROM"; TWord (id ++ suffix);
          TWord "WHERE"; TWord "search_id"; TEq; TLit sid; TSemi].
Proof.
  intros Hw Hs. unfold lex.
  change (fstring _) with
    ("SELECT * FROM "
     ++ (id ++ ((suffix ++ " WHERE search_id = '") ++ (sid ++ "';"))))%string.
  rewrite (append_assoc suffix), <- (append_assoc id suffix).
  erewrite lex_run_pieces;
    [ | reflexivity
      | eapply lex_run_pieces;
        [ apply (lex_run_identifier _ Hw)
        | eapply lex_run_pieces;
          [ reflexivity
          | eapply lex_run_pieces;
            [ apply (lex_run_literal sid _ Hs) | reflexivity ] ] ] ].
  reflexivity.
Qed.

Lemma select_by_search_id (rels : list relation)
  (id suffix sid : string) (columns : list string) (rows : list row) :
  identifier_start id = true -> identifier suffix = true ->
  6 < String.length suffix ->
  no_quote sid = true ->
  resolve rels (id ++ suffix) = Some (columns, rows) ->
  has_col columns "search_id" = true ->
  run_select rels
    (fstring ["SELECT * FROM "; id;
              (suffix ++ " WHERE search_id = '")%string; sid; "';"])
  = Ok (filter (has_key sid) rows).
Proof.
  intros Hid Hsuf Hlen Hs Hres Hcol.
  unfold run_select, parse.
  rewrite (lex_search_id_lookup id suffix sid
             (identifier_append id suffix Hid Hsuf) Hs).
  assert (Hparse :
    parse_select
      [TWord "SELECT"; TStar; TWord "FROM"; TWord (id ++ suffix);
       TWord "WHERE"; TWord "search_id"; TEq; TLit sid; TSemi]
    = Some {| sel_cols := None; sel_from := (id ++ suffix)%string;
              sel_where := [[Cmp (Col "search_id") (Lit sid)]] |}).
  { unfold parse_select.
    rewrite (long_word_not_keyword (id ++ suffix))
      by (rewrite length_append; lia).
    reflexivity. }
  rewrite Hparse. cbn [sel_from sel_cols sel_where]. rewrite Hres.
  unfold select_cols, cond_cols; cbn [sel_cols sel_where flat_map atom_cols
    operand_cols app find].
  rewrite Hcol; cbn [negb].
  rewrite map_project_all. f_equal.
  apply filter_ext; intros r.
  unfold eval_cond, has_key; cbn.
  now rewrite andb_true_r, orb_false_r.
Qed.

Lemma lookup_outcome_by_id (rels : list relation)
  (id suffix sid : string) (columns : list string) (rows : list row) :
  identifier_start id = true -> identifier suffix = true ->
  6 < String.length suffix ->
  sid <> EmptyString -> no_quote sid = true ->
  resolve rels (id ++ suffix) = Some (columns, rows) ->
  has_col columns "search_id" = true ->
  lookup_outcome rels id suffix (Some sid) None None
  = Ok (filter (has_key sid) rows).
Proof.
  intros Hid Hsuf Hlen Hne Hs Hres Hcol.
  unfold lookup_outcome, no_key, truthy.
  apply String.eqb_neq in Hne. rewrite Hne. cbn [negb andb orb format].
  now apply (select_by_search_id rels id suffix sid columns rows).
Qed.

Lemma filter_app_last {A} (p : A -> bool) (l : list A) (x : A) :
  p x = true -> filter p (l ++ [x]) = filter p l ++ [x].
Proof. intros Hx. rewrite filter_app; simpl. now rewrite Hx. Qed.

Lemma filter_none {A} (p : A -> bool) (l : list A) :
  existsb p l = false -> filter p l = [].
Proof.
  induction l as [|x l IH]; [reflexivity|]; simpl.
  destruct (p x); simpl; [discriminate | exact IH].
Qed.

(** Round trip through the active-searches table: what
    [add_active_search] inserts is what the two lookups then find.  The
    lookup by fingerprint returns the earlier records with that
    fingerprint followed by the new one; the lookup by the returned id
    returns the new record alone. *)
Theorem added_active_search_is_found :
  forall (self : DB.DB) (s : pg) (r : relation) (t v : string),
    reachable s = true ->
    plain_id (cts_id self) = true ->
    table_of s (active_searches_table self) = Some r ->
    rel_columns r = active_search_columns ->
    existsb (has_key (str_of_nat (S (rel_serial r)))) (rel_rows r) = false ->
    t <> EmptyString -> v <> EmptyString ->
    no_quote t = true -> no_quote v = true ->
    let id := str_of_nat (S (rel_serial r)) in
    let record :=
      [("search_id", id); ("artifact_type", t); ("artifact_value", v)] in
    let s' := snd (add_active_search self [Some t; Some v] s) in
    fst (add_active_search self [Some t; Some v] s) = Ok id
    /\ fst (search_for_active_search self None (Some t) (Some v) s')
       = Ok (filter (fingerprint_match t v) (rel_rows r) ++ [record])
    /\ fst (search_for_active_search self (Some id) None None s')
       = Ok [record].
Proof.
  intros self s r t v Hup Hid Htable Hcols Hfree Htne Hvne Ht Hv.
  apply plain_id_start in Hid.
  cbv zeta.
  rewrite (add_active_search_run self (Some t) (Some v) s r Hup Hid Htable).
  cbv zeta. rewrite Hfree. cbn [fst snd cell app].
  set (id := str_of_nat (S (rel_serial r))) in *.
  set (record :=
         [("search_id", id); ("artifact_type", t); ("artifact_value", v)]).
  set (r' := with_rows r (rel_rows r ++ [record]) (S (rel_serial r))).
  set (s' := closed _ _).
  assert (Hup' : reachable s' = true) by exact Hup.
  assert (Htable' : table_of s' (active_searches_table self) = Some r').
  { subst s'. rewrite table_of_after.
    apply (find_update_named _ r' _ r Htable).
    exact (find_named _ _ _ Htable). }
  pose proof (resolve_active_searches self (relations s') r' Htable') as Hres.
  split; [reflexivity|].
  rewrite !(search_for_active_search_run self _ _ _ s' Hup'). cbn [fst].
  split.
  - rewrite (lookup_outcome_by_fingerprint _ _ "_active_searches" t v
               (rel_columns r') (rel_rows r') Hid eq_refl);
      try assumption; try (simpl; lia);
      try (cbn [r' rel_columns with_rows]; rewrite Hcols; reflexivity).
    cbn [r' rel_rows with_rows]. f_equal.
    apply filter_app_last.
    unfold fingerprint_match, record; cbn.
    now rewrite !String.eqb_refl.
  - rewrite (lookup_outcome_by_id _ _ "_active_searches" id
               (rel_columns r') (rel_rows r') Hid eq_refl);
      try assumption; try (simpl; lia);
      try (apply str_of_nat_not_empty); try (apply str_of_nat_no_quote);
      try (cbn [r' rel_columns with_rows]; rewrite Hcols; reflexivity).
    cbn [r' rel_rows with_rows]. f_equal.
    rewrite filter_app, (filter_none _ _ Hfree). cbn.
    unfold has_key, record; cbn. now rewrite String.eqb_refl.
Qed.

(** *** The results table *)

Lemma store_search_results_run (self : DB.DB) (search_id : string)
  (artifact_type artifact_value : option string) (hit : string)
  (s : pg) (r : relation) :
  reachable s = true ->
  identifier_start (cts_id self) = true ->
  table_of s (results_table self) = Some r ->
  is_numeral search_id = true ->
  let clash := existsb (has_key search_id) (rel_rows r) in
  let r' :=
    with_rows r
      (if clash then rel_rows r
       else rel_rows r
            ++ [("search_id", search_id)
                :: cell "artifact_type" artifact_type
                ++ cell "artifact_value" artifact_value
                ++ [("hit", hit); ("date_found", clock s)]])
      (rel_serial r) in
  store_search_results self search_id artifact_type artifact_value hit s
  = (if clash then Raise UniqueViolationError else Ok search_id,
     closed (next_conn s)
       (with_relations (opened s)
          (update_named (lower (results_table self))
             (fun _ => r') (relations s)))).
Proof.
  intros Hup Hid Hfind Hint. cbv zeta.
  unfold store_search_results.
  rewrite (handle_db_connection_run _ s Hup).
  unfold bind, gets.
  erewrite (insert_returning_key _ _ search_id _ (opened s) r);
    [ | apply is_open_opened | exact (results_plain_name self Hid)
      | exact Hfind | reflexivity | exact Hint ].
  cbv zeta. cbn [fst snd].
  destruct (existsb _ (rel_rows r)); [reflexivity|].
  do 4 f_equal.
  destruct artifact_type, artifact_value; reflexivity.
Qed.

(** Round trip through the results table: a record stored under a
    serial number that the table does not hold yet is what the lookups
    then find, with the hit as it was given and the time of the call.
    The lookup by fingerprint returns the earlier records with that
    fingerprint followed by the new one; the lookup by search id returns
    the new record alone.  (Cells are text here: the id is the numeral
    of the serial number, the hit a JSON text.) *)
Theorem stored_result_is_found :
  forall (self : DB.DB) (s : pg) (r : relation) (n : nat)
         (t v hit : string),
    reachable s = true ->
    plain_id (cts_id self) = true ->
    table_of s (results_table self) = Some r ->
    rel_columns r = result_columns ->
    existsb (has_key (str_of_nat n)) (rel_rows r) = false ->
    t <> EmptyString -> v <> EmptyString ->
    no_quote t = true -> no_quote v = true ->
    let id := str_of_nat n in
    let s' := snd (store_search_results self id (Some t) (Some v) hit s) in
    fst (store_search_results self id (Some t) (Some v) hit s) = Ok id
    /\ exists record,
         fst (search_for_results self None (Some t) (Some v) s')
         = Ok (filter (fingerprint_match t v) (rel_rows r) ++ [record])
         /\ fst (search_for_results self (Some id) None None s')
            = Ok [record]
         /\ get "search_id" record = Some id
         /\ get "artifact_type" record = Some t
         /\ get "artifact_value" record = Some v
         /\ get "hit" record = Some hit
         /\ get "date_found" record = Some (clock s).
Proof.
  intros self s r n t v hit Hup Hid Htable Hcols Hfree Htne Hvne Ht Hv.
  apply plain_id_start in Hid.
  cbv zeta.
  rewrite (store_search_results_run self _ (Some t) (Some v) hit s r
             Hup Hid Htable (ValueFacts.is_numeral_str_of_nat n)).
  cbv zeta. rewrite Hfree. cbn [fst snd cell app].
  set (id := str_of_nat n) in *.
  set (record :=
         [("search_id", id); ("artifact_type", t); ("artifact_value", v);
          ("hit", hit); ("date_found", clock s)]).
  set (r' := with_rows r (rel_rows r ++ [record]) (rel_serial r)).
  set (s' := closed _ _).
  assert (Hup' : reachable s' = true) by exact Hup.
  assert (Htable' : table_of s' (results_table self) = Some r').
  { subst s'. rewrite table_of_after.
    apply (find_update_named _ r' _ r Htable).
    exact (find_named _ _ _ Htable). }
  pose proof (resolve_results self (relations s') r' Htable') as Hres.
  split; [reflexivity|].
  exists record.
  rewrite !(search_for_results_run self _ _ _ s' Hup'). cbn [fst].
  split; [|split;
           [|unfold record; cbn; rewrite ?String.eqb_refl;
             refine (conj _ (conj _ (conj _ (conj _ _)))); reflexivity]].
  - rewrite (lookup_outcome_by_fingerprint _ _ "_results" t v
               (rel_columns r') (rel_rows r') Hid eq_refl);
      try assumption; try (simpl; lia);
      try (cbn [r' rel_columns with_rows]; rewrite Hcols; reflexivity).
    cbn [r' rel_rows with_rows]. f_equal.
    apply filter_app_last.
    unfold fingerprint_match, record; cbn.
    now rewrite !String.eqb_refl.
  - rewrite (lookup_outcome_by_id _ _ "_results" id
               (rel_columns r') (rel_rows r') Hid eq_refl);
      try assumption; try (simpl; lia);
      try (apply str_of_nat_not_empty); try (apply str_of_nat_no_quote);
      try (cbn [r' rel_columns with_rows]; rewrite Hcols; reflexivity).
    cbn [r' rel_rows with_rows]. f_equal.
    rewrite filter_app, (filter_none _ _ Hfree). cbn.
    unfold has_key, record; cbn. now rewrite String.eqb_refl.
Qed.

(** *** The primary key *)

Lemma has_key_iff (id : string) (x : row) :
  has_key id x = true <-> get "search_id" x = Some id.
Proof.
  unfold has_key, eq_value. destruct (get "search_id" x) as [k|].
  - rewrite String.eqb_eq. split; congruence.
  - split; discriminate.
Qed.

Lemma keys_unique_insert (rows : list row) (id : string) (rest : row) :
  keys_unique rows ->
  existsb (has_key id) rows = false ->
  keys_unique (rows ++ [("search_id", id) :: rest]).
Proof.
  unfold keys_unique. intros Hnd Hfree.
  rewrite map_app; cbn [map get]. rewrite String.eqb_refl.
  apply NoDup_app; [exact Hnd | repeat constructor; intros [] | ].
  intros k Hin [Hk|[]]. subst k.
  apply in_map_iff in Hin as [x [Hx Hin]].
  apply has_key_iff in Hx.
  assert (Hex : existsb (has_key id) rows = true)
    by (apply existsb_exists; eauto).
  congruence.
Qed.

(** Neither insertion ever leaves two records with one [search_id] in
    its table: a second record for a serial number raises
    [UniqueViolationError] and the table keeps its rows. *)
Theorem insertions_keep_keys_unique :
  forall (self : DB.DB) (s : pg) (active results : relation)
         (n : nat) (hit : string)
         (artifact_type artifact_value : option string),
    reachable s = true ->
    plain_id (cts_id self) = true ->
    table_of s (active_searches_table self) = Some active ->
    table_of s (results_table self) = Some results ->
    keys_unique (rel_rows active) ->
    keys_unique (rel_rows results) ->
    (exists active',
       table_of (snd (add_active_search self [artifact_type; artifact_value] s))
         (active_searches_table self) = Some active'
       /\ keys_unique (rel_rows active'))
    /\ (exists results',
          table_of (snd (store_search_results self (str_of_nat n) artifact_type
                           artifact_value hit s))
            (results_table self) = Some results'
          /\ keys_unique (rel_rows results')
          /\ (existsb (has_key (str_of_nat n)) (rel_rows results) = true ->
              fst (store_search_results self (str_of_nat n) artifact_type
                     artifact_value hit s) = Raise UniqueViolationError
              /\ rel_rows results' = rel_rows results)).
Proof.
  intros self s active results n hit artifact_type artifact_value
    Hup Hid Hactive Hresults Hka Hkr.
  pose proof (ValueFacts.is_numeral_str_of_nat n) as Hint.
  set (search_id := str_of_nat n) in *. clearbody search_id.
  apply plain_id_start in Hid.
  split.
  - rewrite (add_active_search_run self _ _ s active Hup Hid Hactive).
    cbv zeta. cbn [snd]. rewrite table_of_after.
    eexists; split.
    + apply (find_update_named _ _ _ active Hactive).
      exact (find_named _ _ _ Hactive).
    + cbn [rel_rows with_rows].
      destruct (existsb _ (rel_rows active)) eqn:Hclash; [exact Hka|].
      now apply keys_unique_insert.
  - rewrite (store_search_results_run self _ _ _ hit s results Hup Hid
               Hresults Hint).
    cbv zeta. cbn [snd fst]. rewrite table_of_after.
    eexists; split; [|split].
    + apply (find_update_named _ _ _ results Hresults).
      exact (find_named _ _ _ Hresults).
    + cbn [rel_rows with_rows].
      destruct (existsb _ (rel_rows results)) eqn:Hclash; [exact Hkr|].
      now apply keys_unique_insert.
    + intros Hclash. cbn [rel_rows with_rows]. rewrite Hclash.
      split; reflexivity.
Qed.

(** *** Removal *)

Lemma remove_active_search_state (self : DB.DB) (search_id : string)
  (s : pg) (r : relation) :
  reachable s = true ->
  identifier_start (cts_id self) = true ->
  table_of s (active_searches_table self) = Some r ->
  is_numeral search_id = true ->
  remove_active_search self search_id s
  = (Ok (fstring ["DELETE ";
                  str_of_nat
                    (length (filter (has_key search_id) (rel_rows r)))]),
     closed (next_conn s)
       (with_relations (opened s)
          (update_named (lower (active_searches_table self))
             (fun _ =>
                with_rows r
                  (filter (fun x => negb (has_key search_id x)) (rel_rows r))
                  (rel_serial r))
             (relations s)))).
Proof.
  intros Hup Hid Hfind Hint. unfold remove_active_search.
  rewrite (handle_db_connection_run _ s Hup).
  unfold delete_where_search_id. rewrite is_open_opened.
  unfold with_relation.
  rewrite (active_searches_plain_name self Hid).
  unfold table_of in Hfind.
  change (relations (opened s)) with (relations s). rewrite Hfind.
  unfold refused_search_id. rewrite Hint.
  reflexivity.
Qed.

(** [remove_active_search] deletes the rows that carry the serial
    number and no other: the rows it keeps are the other rows in their
    order, none of them carries the number, and every other table is as
    it was. *)
Theorem remove_active_search_removes_exactly :
  forall (self : DB.DB) (n : nat) (s : pg) (r : relation),
    reachable s = true ->
    plain_id (cts_id self) = true ->
    table_of s (active_searches_table self) = Some r ->
    let s' := snd (remove_active_search self (str_of_nat n) s) in
    (exists r',
       table_of s' (active_searches_table self) = Some r'
       /\ rel_rows r'
          = filter (fun x => negb (has_key (str_of_nat n) x)) (rel_rows r)
       /\ existsb (has_key (str_of_nat n)) (rel_rows r') = false)
    /\ (forall other,
          lower other <> lower (active_searches_table self) ->
          table_of s' other = table_of s other).
Proof.
  intros self n s r Hup Hid Htable. cbv zeta.
  pose proof (ValueFacts.is_numeral_str_of_nat n) as Hint.
  set (search_id := str_of_nat n) in *. clearbody search_id.
  apply plain_id_start in Hid.
  rewrite (remove_active_search_state self search_id s r Hup Hid Htable
             Hint).
  cbn [snd]. split.
  - eexists. rewrite table_of_after. split; [|split].
    + apply (find_update_named _ _ _ r Htable).
      exact (find_named _ _ _ Htable).
    + reflexivity.
    + cbn [rel_rows with_rows].
      induction (rel_rows r) as [|x xs IH]; [reflexivity|]. simpl.
      destruct (has_key search_id x) eqn:Hx; simpl; [exact IH|].
      now rewrite Hx.
  - intros other Hother. rewrite table_of_after. unfold table_of.
    apply find_update_other; [exact Hother|].
    exact (find_named _ _ _ Htable).
Qed.

Lemma filter_negb_none {A} (p : A -> bool) (l : list A) :
  existsb p l = false -> filter (fun y => negb (p y)) l = l.
Proof.
  induction l as [|z l IH]; [reflexivity|]; simpl.
  destruct (p z); simpl; [discriminate|].
  intros H. now rewrite (IH H).
Qed.

(** Registering an active search and removing it by the id that was
    returned deletes one row and gives the table back the rows it had;
    only the serial number has moved on. *)
Theorem add_then_remove_restores_rows :
  forall (self : DB.DB) (s : pg) (r : relation)
         (artifact_type artifact_value : option string),
    reachable s = true ->
    plain_id (cts_id self) = true ->
    table_of s (active_searches_table self) = Some r ->
    existsb (has_key (str_of_nat (S (rel_serial r)))) (rel_rows r) = false ->
    let id := str_of_nat (S (rel_serial r)) in
    let s1 := snd (add_active_search self [artifact_type; artifact_value] s) in
    let s2 := snd (remove_active_search self id s1) in
    fst (add_active_search self [artifact_type; artifact_value] s) = Ok id
    /\ fst (remove_active_search self id s1) = Ok "DELETE 1"
    /\ table_of s2 (active_searches_table self)
       = Some (with_rows r (rel_rows r) (S (rel_serial r))).
Proof.
  intros self s r artifact_type artifact_value Hup Hid Htable Hfree.
  apply plain_id_start in Hid.
  cbv zeta.
  rewrite (add_active_search_run self _ _ s r Hup Hid Htable).
  cbv zeta. rewrite Hfree. cbn [fst snd].
  set (id := str_of_nat (S (rel_serial r))) in *.
  set (record := ("search_id", id) :: _).
  set (r1 := with_rows r (rel_rows r ++ [record]) (S (rel_serial r))).
  set (s1 := closed _ _).
  assert (Hrecord : has_key id record = true).
  { unfold has_key, record; cbn. now rewrite String.eqb_refl. }
  assert (Htable1 : table_of s1 (active_searches_table self) = Some r1).
  { subst s1. rewrite table_of_after.
    apply (find_update_named _ r1 _ r Htable).
    exact (find_named _ _ _ Htable). }
  rewrite (remove_active_search_state self id s1 r1 Hup Hid Htable1
             (ValueFacts.is_numeral_str_of_nat _)).
  cbn [fst snd]. split; [reflexivity|].
  cbn [r1 rel_rows with_rows rel_serial].
  rewrite !filter_app, (filter_none _ _ Hfree),
    (filter_negb_none _ _ Hfree).
  cbn [filter]. rewrite Hrecord. cbn [negb app length].
  split; [reflexivity|].
  rewrite app_nil_r, table_of_after.
  erewrite find_update_named;
    [ reflexivity | exact Htable1 | exact (find_named _ _ _ Htable) ].
Qed.

(** *** The store theorems at sample states *)

Lemma db_operations_release_connections_witness :
  conns_fresh (Sample.store [] [])
  /\ open_conns
       (snd (remove_active_search Sample.cts "1" (Sample.store [] []))) = []
  /\ conns_fresh
       (snd (remove_active_search Sample.cts "1" (Sample.store [] []))).
Proof.
  assert (H : conns_fresh (Sample.store [] [])) by constructor.
  split; [exact H|].
  exact (proj1 (proj2 (proj2 (proj2
    (db_operations_release_connections Sample.cts (Sample.store [] [])
       None (Some "uri") (Some "http://a") "1" "[5]"
       [Some "uri"; Some "http://a"] H))))).
Defined.

Lemma added_active_search_is_found_witness :
  let rows := [Sample.active_search "1" "uri" "http://a"] in
  let s := Sample.store rows [] in
  let r := Fixture.active_relation rows in
  (reachable s = true
   /\ plain_id (cts_id Sample.cts) = true
   /\ table_of s (active_searches_table Sample.cts) = Some r
   /\ rel_columns r = active_search_columns
   /\ existsb (has_key "2") (rel_rows r) = false
   /\ no_quote "uri" = true /\ no_quote "http://a" = true)
  /\ fst (add_active_search Sample.cts [Some "uri"; Some "http://a"] s)
     = Ok "2"
  /\ fst (search_for_active_search Sample.cts (Some "2") None None
            (snd (add_active_search Sample.cts
                    [Some "uri"; Some "http://a"] s)))
     = Ok [Sample.active_search "2" "uri" "http://a"].
Proof.
  cbv zeta.
  split; [refine (conj _ (conj _ (conj _ (conj _ (conj _ (conj _ _))))));
          reflexivity|].
  assert (Ht : "uri" <> EmptyString) by discriminate.
  assert (Hv : "http://a" <> EmptyString) by discriminate.
  pose proof
    (added_active_search_is_found Sample.cts
       (Sample.store [Sample.active_search "1" "uri" "http://a"] [])
       (Fixture.active_relation [Sample.active_search "1" "uri" "http://a"])
       "uri" "http://a" eq_refl eq_refl eq_refl eq_refl eq_refl Ht Hv
       eq_refl eq_refl) as H.
  cbv zeta in H. destruct H as [H1 [_ H3]].
  split; [exact H1 | exact H3].
Defined.

Lemma stored_result_is_found_witness :
  let s := Sample.store [] [] in
  let r := Fixture.results_relation [] in
  (reachable s = true
   /\ plain_id (cts_id Sample.cts) = true
   /\ table_of s (results_table Sample.cts) = Some r
   /\ rel_columns r = result_columns
   /\ existsb (has_key "1") (rel_rows r) = false
   /\ no_quote "uri" = true /\ no_quote "http://a" = true)
  /\ fst (store_search_results Sample.cts "1" (Some "uri") (Some "http://a")
            "[5]" s) = Ok "1"
  /\ exists record,
       fst (search_for_results Sample.cts (Some "1") None None
              (snd (store_search_results Sample.cts "1" (Some "uri")
                      (Some "http://a") "[5]" s)))
       = Ok [record]
       /\ get "hit" record = Some "[5]".
Proof.
  cbv zeta.
  split; [refine (conj _ (conj _ (conj _ (conj _ (conj _ (conj _ _))))));
          reflexivity|].
  assert (Ht : "uri" <> EmptyString) by discriminate.
  assert (Hv : "http://a" <> EmptyString) by discriminate.
  pose proof
    (stored_result_is_found Sample.cts (Sample.store [] [])
       (Fixture.results_relation []) 1 "uri" "http://a" "[5]"
       eq_refl eq_refl eq_refl eq_refl eq_refl Ht Hv eq_refl eq_refl) as H.
  cbv zeta in H.
  destruct H as [H1 [record [_ [H3 [_ [_ [_ [H7 _]]]]]]]].
  split; [exact H1|]. exists record. split; [exact H3 | exact H7].
Defined.

Lemma insertions_keep_keys_unique_witness :
  let active := [Sample.active_search "1" "uri" "http://a"] in
  let results := [Sample.result_record "1" "ip" "10.0.0.1" "[5]"] in
  let s := Sample.store active results in
  (reachable s = true
   /\ plain_id (cts_id Sample.cts) = true
   /\ table_of s (active_searches_table Sample.cts)
      = Some (Fixture.active_relation active)
   /\ table_of s (results_table Sample.cts)
      = Some (Fixture.results_relation results)
   /\ keys_unique active /\ keys_unique results)
  /\ fst (store_search_results Sample.cts "1" (Some "uri") (Some "http://a")
            "[7]" s) = Raise UniqueViolationError.
Proof.
  cbv zeta.
  assert (Ha : keys_unique [Sample.active_search "1" "uri" "http://a"]).
  { unfold keys_unique; cbn. constructor; [intros [] | constructor]. }
  assert (Hr : keys_unique [Sample.result_record "1" "ip" "10.0.0.1" "[5]"]).
  { unfold keys_unique; cbn. constructor; [intros [] | constructor]. }
  split.
  { refine (conj _ (conj _ (conj _ (conj _ (conj Ha Hr)))));
      reflexivity. }
  pose proof
    (insertions_keep_keys_unique Sample.cts
       (Sample.store [Sample.active_search "1" "uri" "http://a"]
          [Sample.result_record "1" "ip" "10.0.0.1" "[5]"])
       (Fixture.active_relation [Sample.active_search "1" "uri" "http://a"])
       (Fixture.results_relation
          [Sample.result_record "1" "ip" "10.0.0.1" "[5]"])
       1 "[7]" (Some "uri") (Some "http://a")
       eq_refl eq_refl eq_refl eq_refl Ha Hr) as H.
  destruct H as [_ [results' [_ [_ H]]]].
  exact (proj1 (H eq_refl)).
Defined.

Lemma remove_active_search_removes_exactly_witness :
  let rows := [Sample.active_search "1" "uri" "http://a";
               Sample.active_search "2" "ip" "10.0.0.1"] in
  let s := Sample.store rows [] in
  (reachable s = true
   /\ plain_id (cts_id Sample.cts) = true
   /\ table_of s (active_searches_table Sample.cts)
      = Some (Fixture.active_relation rows))
  /\ exists r',
       table_of (snd (remove_active_search Sample.cts "1" s))
         (active_searches_table Sample.cts) = Some r'
       /\ rel_rows r' = [Sample.active_search "2" "ip" "10.0.0.1"].
Proof.
  cbv zeta.
  split; [refine (conj _ (conj _ _)); reflexivity|].
  pose proof
    (remove_active_search_removes_exactly Sample.cts 1
       (Sample.store [Sample.active_search "1" "uri" "http://a";
                      Sample.active_search "2" "ip" "10.0.0.1"] [])
       (Fixture.active_relation
          [Sample.active_search "1" "uri" "http://a";
           Sample.active_search "2" "ip" "10.0.0.1"])
       eq_refl eq_refl eq_refl) as H.
  cbv zeta in H. destruct H as [[r' [H1 [H2 _]]] _].
  exists r'. split; [exact H1 | exact H2].
Defined.

Lemma add_then_remove_restores_rows_witness :
  let rows := [Sample.active_search "1" "uri" "http://a"] in
  let s := Sample.store rows [] in
  let s1 :=
    snd (add_active_search Sample.cts [Some "ip"; Some "10.0.0.1"] s) in
  (reachable s = true
   /\ plain_id (cts_id Sample.cts) = true
   /\ table_of s (active_searches_table Sample.cts)
      = Some (Fixture.active_relation rows)
   /\ existsb (has_key "2") rows = false)
  /\ fst (remove_active_search Sample.cts "2" s1) = Ok "DELETE 1"
  /\ table_of (snd (remove_active_search Sample.cts "2" s1))
       (active_searches_table Sample.cts)
     = Some (with_rows (Fixture.active_relation rows) rows 2).
Proof.
  cbv zeta.
  split; [refine (conj _ (conj _ (conj _ _))); reflexivity|].
  pose proof
    (add_then_remove_restores_rows Sample.cts
       (Sample.store [Sample.active_search "1" "uri" "http://a"] [])
       (Fixture.active_relation [Sample.active_search "1" "uri" "http://a"])
       (Some "ip") (Some "10.0.0.1") eq_refl eq_refl eq_refl eq_refl) as H.
  cbv zeta in H. destruct H as [_ [H2 H3]].
  split; [exact H2 | exact H3].
Defined.

End StoreFacts.

(** ** [create_cts_tables] and [cts_tables_exist] *)

Module SetupFacts.
Import Sql Pg DB Inv ConnectionFacts SqlFacts PgFacts DBFacts StoreFacts.

Lemma word_char_not_quote (c : ascii) :
  is_word_char c = true -> is_quote c = false.
Proof.
  destruct c as [[] [] [] [] [] [] [] []]; vm_compute; intros H;
    try discriminate H; reflexivity.
Qed.

Lemma wordlike_no_quote (s : string) : wordlike s = true -> no_quote s = true.
Proof.
  unfold wordlike, no_quote. induction s as [|c s IH]; [reflexivity|].
  simpl. intros H. apply andb_true_iff in H as [Hc Hs].
  now rewrite (word_char_not_quote c Hc), (IH Hs).
Qed.

Lemma identifier_start_no_quote (s : string) :
  identifier_start s = true -> no_quote s = true.
Proof.
  destruct s as [|c s]; [reflexivity|]. simpl. intros H.
  apply andb_true_iff in H as [Hc Hs].
  destruct (word_start_plain c Hc) as [_ [Hq _]].
  unfold no_quote; simpl. rewrite Hq.
  exact (wordlike_no_quote s Hs).
Qed.

Lemma plain_id_length (id : string) :
  plain_id id = true -> String.length id <= 47.
Proof.
  unfold plain_id. intros H. apply andb_true_iff in H as [_ H].
  now apply Nat.leb_le.
Qed.

(** What [cts_tables_exist] answers, and the state it leaves. *)
Lemma cts_tables_exist_run (self : DB.DB) (s : pg) :
  reachable s = true ->
  no_quote (cts_id self) = true ->
  names_unique (relations s) ->
  cts_tables_exist self s
  = (Ok (base_table_exists (relations s) (active_searches_table self)
         && base_table_exists (relations s) (results_table self)),
     closed (next_conn s) (opened s)).
Proof.
  intros Hup Hid Hnd. unfold cts_tables_exist.
  rewrite (handle_db_connection_run _ s Hup).
  unfold bind, fetch. rewrite is_open_opened.
  destruct (select_tables (relations s) self Hid) as [tables [Hsel Hlen]].
  change (relations (opened s)) with (relations s). rewrite Hsel.
  rewrite Hlen, (length_filter_either _ _ _ (tables_distinct self)).
  rewrite !(length_filter_base_table _ _ Hnd).
  destruct (base_table_exists _ (active_searches_table self)),
           (base_table_exists _ (results_table self)); reflexivity.
Qed.

(** *** The two [CREATE TABLE] statements *)

Lemma reserved_long (w : string) :
  7 < String.length w -> Setup.is_reserved w = false.
Proof.
  intros Hlen. unfold Setup.is_reserved.
  rewrite long_word_not_keyword by lia.
  repeat match goal with
  | |- context [kw ?k w] =>
      let E := fresh "E" in
      destruct (kw k w) eqn:E;
      [apply kw_length in E; simpl in E; lia|]
  end.
  reflexivity.
Qed.

Lemma parse_create_active_searches (id : string) :
  identifier_start id = true ->
  Setup.parse_create
    (fstring ["CREATE TABLE "; id;
              "_active_searches (search_id SERIAL PRIMARY KEY, artifact_type VARCHAR, artifact_value VARCHAR);"])
  = Some ((id ++ "_active_searches")%string, active_search_columns).
Proof.
  intros Hid.
  pose proof (identifier_append id "_active_searches" Hid eq_refl) as Hw.
  unfold Setup.parse_create, lex.
  change (fstring _) with
    ("CREATE TABLE "
     ++ (id ++ ("_active_searches"
     ++ " (search_id SERIAL PRIMARY KEY, artifact_type VARCHAR, artifact_value VARCHAR);")))%string.
  rewrite <- (append_assoc id).
  erewrite lex_run_pieces;
    [ | reflexivity
      | eapply lex_run_pieces;
        [ apply (lex_run_identifier _ Hw) | reflexivity ] ].
  cbv beta iota. cbn [app lex_end].
  rewrite reserved_long by (rewrite length_append; simpl; lia).
  reflexivity.
Qed.

Lemma parse_create_results (id : string) :
  identifier_start id = true ->
  Setup.parse_create
    (fstring ["CREATE TABLE "; id;
              "_results (search_id SERIAL PRIMARY KEY, artifact_type VARCHAR, artifact_value VARCHAR, date_found timestamp, hit JSON);"])
  = Some ((id ++ "_results")%string, result_columns).
Proof.
  intros Hid.
  pose proof (identifier_append id "_results" Hid eq_refl) as Hw.
  unfold Setup.parse_create, lex.
  change (fstring _) with
    ("CREATE TABLE "
     ++ (id ++ ("_results"
     ++ " (search_id SERIAL PRIMARY KEY, artifact_type VARCHAR, artifact_value VARCHAR, date_found timestamp, hit JSON);")))%string.
  rewrite <- (append_assoc id).
  erewrite lex_run_pieces;
    [ | reflexivity
      | eapply lex_run_pieces;
        [ apply (lex_run_identifier _ Hw) | reflexivity ] ].
  cbv beta iota. cbn [app lex_end].
  rewrite reserved_long by (rewrite length_append; simpl; lia).
  reflexivity.
Qed.

Lemma substring_all (s : string) (n : nat) :
  String.length s <= n -> substring 0 n s = s.
Proof.
  revert n. induction s as [|c s IH]; intros n H.
  - now destruct n.
  - destruct n as [|n]; simpl in *; [lia|]. rewrite IH; [reflexivity | lia].
Qed.

Lemma stored_name (id suffix : string) :
  String.length id <= 47 -> String.length suffix <= 16 ->
  Setup.truncate (lower (id ++ suffix)) = lower (id ++ suffix).
Proof.
  intros Hid Hsuf. apply substring_all.
  unfold lower. rewrite length_string_map, length_append. lia.
Qed.

Lemma existsb_named (name : string) (rels : list relation) :
  find (named name) rels = None -> existsb (named name) rels = false.
Proof.
  induction rels as [|r rels IH]; [reflexivity|]; simpl.
  destruct (named name r); [discriminate | exact IH].
Qed.

Lemma find_named_some (name : string) (rels : list relation) (r : relation) :
  find (named name) rels = Some r -> existsb (named name) rels = true.
Proof.
  induction rels as [|x rels IH]; [discriminate|]; simpl.
  destruct (named name x); [reflexivity | exact IH].
Qed.

Lemma setup_decorator_run {A} (func : nat -> Setup.W pg A) (s : pg) :
  reachable s = true ->
  Setup.handle_db_connection func s
  = (fst (func (next_conn s) (opened s)),
     closed (next_conn s) (snd (func (next_conn s) (opened s)))).
Proof.
  intros Hup.
  unfold Setup.handle_db_connection, Setup.bind, Setup.lift, connect,
    Setup.try_finally, close, modify, Setup.ret.
  rewrite Hup.
  destruct (func (next_conn s) (opened s)) as [[a|e] s1]; reflexivity.
Qed.

Lemma table_names_differ (x : string) :
  (x ++ "_results")%string <> (x ++ "_active_searches")%string.
Proof. intros H. apply append_inj_l in H. discriminate H. Qed.

Lemma results_named_active (self : DB.DB) (columns : list string) :
  named (lower (results_table self))
    (Setup.new_table (lower (active_searches_table self)) columns) = false.
Proof.
  unfold named, Setup.new_table; cbn [rel_schema rel_name].
  apply andb_false_iff; right. apply String.eqb_neq.
  unfold results_table, active_searches_table, fstring; simpl.
  rewrite !lower_append. intros H. symmetry in H.
  exact (table_names_differ _ H).
Qed.

Lemma execute_create_run (conn : nat) (text name : string)
  (columns : list string) (s : pg) :
  is_open conn s = true ->
  Setup.parse_create text = Some (name, columns) ->
  Setup.execute conn text s
  = if existsb (named (Setup.truncate (lower name))) (relations s) then
      (Setup.Raised (Setup.DuplicateTableError (Setup.truncate (lower name))),
       s)
    else
      (Setup.Returned "CREATE TABLE",
       with_relations s
         (relations s
          ++ [Setup.new_table (Setup.truncate (lower name)) columns])).
Proof.
  intros Hopen Hparse. unfold Setup.execute.
  now rewrite Hopen, Hparse.
Qed.

(** What [create_cts_tables] does: the first statement, then the second,
    each refused when a relation of its name is there already. *)
Lemma create_cts_tables_run (self : DB.DB) (s : pg) :
  reachable s = true ->
  identifier_start (cts_id self) = true ->
  String.length (cts_id self) <= 47 ->
  let a := lower (active_searches_table self) in
  let b := lower (results_table self) in
  let first := Setup.new_table a active_search_columns in
  let second := Setup.new_table b result_columns in
  Setup.create_cts_tables self s
  = if existsb (named a) (relations s) then
      (Setup.Raised (Setup.DuplicateTableError a),
       closed (next_conn s) (opened s))
    else if existsb (named b) (relations s) then
      (Setup.Raised (Setup.DuplicateTableError b),
       closed (next_conn s)
         (with_relations (opened s) (relations s ++ [first])))
    else
      (Setup.Returned tt,
       closed (next_conn s)
         (with_relations (opened s) (relations s ++ [first; second]))).
Proof.
  intros Hup Hid Hlen. cbv zeta.
  unfold Setup.create_cts_tables.
  rewrite (setup_decorator_run _ s Hup).
  unfold Setup.bind.
  rewrite (execute_create_run _ _ _ _ (opened s) (is_open_opened s)
             (parse_create_active_searches _ Hid)).
  rewrite (stored_name (cts_id self) "_active_searches" Hlen)
    by (simpl; lia).
  change (cts_id self ++ "_active_searches")%string
    with (active_searches_table self).
  change (relations (opened s)) with (relations s).
  destruct (existsb (named (lower (active_searches_table self)))
              (relations s)); [reflexivity|].
  erewrite execute_create_run;
    [ | exact (is_open_opened s) | exact (parse_create_results _ Hid) ].
  rewrite (stored_name (cts_id self) "_results" Hlen) by (simpl; lia).
  change (cts_id self ++ "_results")%string with (results_table self).
  cbn [relations with_relations].
  rewrite existsb_app. cbn [existsb].
  rewrite results_named_active, !orb_false_r.
  destruct (existsb (named (lower (results_table self))) (relations s));
    [reflexivity|].
  cbn [fst snd Setup.ret]. rewrite <- app_assoc. reflexivity.
Qed.

(** *** After the tables were created *)

Lemma names_unique_add (rels : list relation) (name : string)
  (columns : list string) :
  names_unique rels ->
  find (named name) rels = None ->
  names_unique (rels ++ [Setup.new_table name columns]).
Proof.
  unfold names_unique. intros Hnd Hnone.
  rewrite map_app. apply NoDup_app;
    [exact Hnd | repeat constructor; intros [] |].
  intros k Hin [Hk|[]]. subst k.
  apply in_map_iff in Hin as [r [Hkey Hin]].
  pose proof (find_none _ _ Hnone r Hin) as Hr.
  unfold named in Hr. unfold relation_key, Setup.new_table in Hkey.
  cbn in Hkey. injection Hkey as Hs Hn.
  rewrite Hs, Hn, !String.eqb_refl in Hr. discriminate Hr.
Qed.

Lemma find_named_app_none (name : string) (rels : list relation)
  (r : relation) :
  find (named name) rels = None -> named name r = false ->
  find (named name) (rels ++ [r]) = None.
Proof.
  intros Hnone Hr. induction rels as [|x rels IH]; simpl in *.
  - now rewrite Hr.
  - destruct (named name x); [discriminate | exact (IH Hnone)].
Qed.

Lemma find_named_app_last (name : string) (rels : list relation)
  (r : relation) :
  find (named name) rels = None -> named name r = true ->
  find (named name) (rels ++ [r]) = Some r.
Proof.
  intros Hnone Hr. induction rels as [|x rels IH]; simpl in *.
  - now rewrite Hr.
  - destruct (named name x); [discriminate | exact (IH Hnone)].
Qed.

Lemma find_named_app_first (name : string) (rels more : list relation)
  (r : relation) :
  find (named name) rels = Some r ->
  find (named name) (rels ++ more) = Some r.
Proof.
  intros Hsome. induction rels as [|x rels IH]; simpl in *; [discriminate|].
  destruct (named name x); [exact Hsome | exact (IH Hsome)].
Qed.

Lemma named_new_table (name : string) (columns : list string) :
  named name (Setup.new_table name columns) = true.
Proof. unfold named; cbn. now rewrite String.eqb_refl. Qed.

Lemma append_inj_r (a b s : string) :
  (a ++ s)%string = (b ++ s)%string -> a = b.
Proof.
  intros H.
  assert (Hlen : String.length a = String.length b).
  { apply (f_equal String.length) in H. rewrite !length_append in H. lia. }
  revert b H Hlen. induction a as [|x a IH]; intros [|y b] H Hlen;
    simpl in *; try lia; [reflexivity|].
  injection H as Hx H. subst y. f_equal. apply IH; [exact H | lia].
Qed.

Lemma base_table_exists_app (rels more : list relation) (name : string) :
  base_table_exists (rels ++ more) name
  = base_table_exists rels name || base_table_exists more name.
Proof. unfold base_table_exists. apply existsb_app. Qed.

Section Created.

Variable self : DB.DB.
Variable s : pg.

Hypothesis store_up : reachable s = true.
Hypothesis id_plain : plain_id (cts_id self) = true.
Hypothesis unique : names_unique (relations s).
Hypothesis no_active_searches :
  table_of s (active_searches_table self) = None.
Hypothesis no_results : table_of s (results_table self) = None.

Lemma create_cts_tables_fresh :
  Setup.create_cts_tables self s
  = (Setup.Returned tt,
     closed (next_conn s)
       (with_relations (opened s) (relations s ++ [Setup.created_active_searches self;
        Setup.created_results self]))).
Proof.
  rewrite (create_cts_tables_run self s store_up
             (plain_id_start _ id_plain) (plain_id_length _ id_plain)).
  cbv zeta.
  rewrite (existsb_named _ _ no_active_searches),
    (existsb_named _ _ no_results).
  reflexivity.
Qed.

Lemma created_names_unique : names_unique (relations s ++ [Setup.created_active_searches self;
        Setup.created_results self]).
Proof.
  change (relations s ++ [Setup.created_active_searches self;
        Setup.created_results self])
    with (relations s ++ [Setup.created_active_searches self]
           ++ [Setup.created_results self]).
  rewrite app_assoc.
  apply names_unique_add; [apply names_unique_add|].
  - exact unique.
  - exact no_active_searches.
  - apply find_named_app_none; [exact no_results|].
    apply results_named_active.
Qed.

(** On a store that has neither table, [create_cts_tables] returns and
    leaves both, empty and with the columns of its two statements; when
    the configured id has no upper-case letter, [cts_tables_exist] then
    answers [True]. *)
Theorem created_tables_exist :
  lower (cts_id self) = cts_id self ->
  let s' := snd (Setup.create_cts_tables self s) in
  fst (Setup.create_cts_tables self s) = Setup.Returned tt
  /\ table_of s' (active_searches_table self)
     = Some (Setup.new_table (active_searches_table self)
               active_search_columns)
  /\ table_of s' (results_table self)
     = Some (Setup.new_table (results_table self) result_columns)
  /\ fst (cts_tables_exist self s') = Ok true.
Proof.
  intros Hlower. cbv zeta. rewrite create_cts_tables_fresh. cbn [fst snd].
  assert (Ha : lower (active_searches_table self) = active_searches_table self).
  { unfold active_searches_table, fstring; simpl.
    now rewrite lower_append, Hlower. }
  assert (Hb : lower (results_table self) = results_table self).
  { unfold results_table, fstring; simpl. now rewrite lower_append, Hlower. }
  split; [reflexivity|].
  rewrite !table_of_after.
  assert (Hfirst : find (named (lower (active_searches_table self)))
                     (relations s ++ [Setup.created_active_searches self;
        Setup.created_results self]) = Some (Setup.created_active_searches self)).
  { change (relations s ++ [Setup.created_active_searches self;
        Setup.created_results self])
      with (relations s ++ [Setup.created_active_searches self]
           ++ [Setup.created_results self]).
    rewrite app_assoc. apply find_named_app_first.
    apply find_named_app_last; [exact no_active_searches|].
    apply named_new_table. }
  assert (Hsecond : find (named (lower (results_table self)))
                      (relations s ++ [Setup.created_active_searches self;
        Setup.created_results self]) = Some (Setup.created_results self)).
  { change (relations s ++ [Setup.created_active_searches self;
        Setup.created_results self])
      with (relations s ++ [Setup.created_active_searches self]
           ++ [Setup.created_results self]).
    rewrite app_assoc. apply find_named_app_last.
    - apply find_named_app_none; [exact no_results|].
      apply results_named_active.
    - apply named_new_table. }
  split; [rewrite Hfirst; unfold Setup.created_active_searches; now rewrite Ha|].
  split; [rewrite Hsecond; unfold Setup.created_results; now rewrite Hb|].
  rewrite cts_tables_exist_run;
    [ | exact store_up
      | exact (identifier_start_no_quote _ (plain_id_start _ id_plain))
      | exact created_names_unique ].
  cbn [fst relations closed with_relations opened with_conns].
  rewrite !base_table_exists_app.
  assert (H1 : base_table_exists [Setup.created_active_searches self;
        Setup.created_results self] (active_searches_table self)
               = true).
  { unfold base_table_exists, Setup.created_active_searches,
      Setup.created_results, is_base_table,
      Setup.new_table; cbn [existsb rel_schema rel_type rel_name].
    now rewrite Ha, !String.eqb_refl. }
  assert (H2 : base_table_exists [Setup.created_active_searches self;
        Setup.created_results self] (results_table self) = true).
  { unfold base_table_exists, Setup.created_active_searches,
      Setup.created_results, is_base_table,
      Setup.new_table; cbn [existsb rel_schema rel_type rel_name].
    rewrite Hb, !String.eqb_refl. cbn [andb]. now rewrite !orb_true_r. }
  now rewrite H1, H2, !orb_true_r.
Qed.

(** When the configured id has an upper-case letter the tables are
    created under the lower-case name while [cts_tables_exist] asks the
    catalog for the name as configured: unless a table of that very
    name was there before, it answers [False] right after the tables
    were created. *)
Theorem created_tables_not_seen_under_mixed_case :
  lower (cts_id self) <> cts_id self ->
  base_table_exists (relations s) (active_searches_table self) = false ->
  let s' := snd (Setup.create_cts_tables self s) in
  fst (Setup.create_cts_tables self s) = Setup.Returned tt
  /\ fst (cts_tables_exist self s') = Ok false.
Proof.
  intros Hmixed Hnone. cbv zeta. rewrite create_cts_tables_fresh.
  cbn [fst snd]. split; [reflexivity|].
  rewrite cts_tables_exist_run;
    [ | exact store_up
      | exact (identifier_start_no_quote _ (plain_id_start _ id_plain))
      | exact created_names_unique ].
  cbn [fst relations closed with_relations opened with_conns].
  rewrite (base_table_exists_app _ _ (active_searches_table self)), Hnone.
  assert (H1 : base_table_exists [Setup.created_active_searches self;
        Setup.created_results self] (active_searches_table self)
               = false).
  { unfold base_table_exists, Setup.created_active_searches,
      Setup.created_results, is_base_table,
      Setup.new_table; cbn [existsb rel_schema rel_type rel_name].
    assert (Ha : (lower (active_searches_table self)
                  =? active_searches_table self) = false).
    { apply String.eqb_neq. intros H. apply Hmixed.
      unfold active_searches_table, fstring in H; simpl in H.
      rewrite lower_append in H. exact (append_inj_r _ _ _ H). }
    assert (Hb : (lower (results_table self)
                  =? active_searches_table self) = false).
    { apply String.eqb_neq. intros H.
      apply (f_equal String.length) in H.
      unfold results_table, active_searches_table, fstring, lower in H;
        simpl in H.
      rewrite length_string_map, !length_append in H. simpl in H. lia. }
    now rewrite Ha, Hb, !andb_false_r. }
  now rewrite H1.
Qed.

End Created.

(** [create_cts_tables] does not pass over a table that is there: with
    the active-searches table present it raises [DuplicateTableError]
    and creates nothing; with only the results table present it creates
    the active-searches table, raises on the second statement and
    leaves the table it created. *)
Theorem create_cts_tables_refused_when_present :
  forall (self : DB.DB) (s : pg) (r : relation),
    reachable s = true ->
    plain_id (cts_id self) = true ->
    (table_of s (active_searches_table self) = Some r ->
     Setup.create_cts_tables self s
     = (Setup.Raised
          (Setup.DuplicateTableError (lower (active_searches_table self))),
        closed (next_conn s) (opened s)))
    /\ (table_of s (active_searches_table self) = None ->
        table_of s (results_table self) = Some r ->
        Setup.create_cts_tables self s
        = (Setup.Raised
             (Setup.DuplicateTableError (lower (results_table self))),
           closed (next_conn s)
             (with_relations (opened s)
                (relations s ++ [Setup.created_active_searches self])))).
Proof.
  intros self s r Hup Hid.
  pose proof (create_cts_tables_run self s Hup (plain_id_start _ Hid)
                (plain_id_length _ Hid)) as Hrun.
  cbv zeta in Hrun. split.
  - intros Hthere. rewrite Hrun.
    now rewrite (find_named_some _ _ _ Hthere).
  - intros Hnone Hthere. rewrite Hrun.
    now rewrite (existsb_named _ _ Hnone), (find_named_some _ _ _ Hthere).
Qed.



(** *** The set-up theorems at sample states *)

Lemma created_tables_exist_witness :
  (reachable Fixture.empty_store = true
   /\ plain_id (cts_id Sample.cts) = true
   /\ names_unique (relations Fixture.empty_store)
   /\ table_of Fixture.empty_store (active_searches_table Sample.cts) = None
   /\ table_of Fixture.empty_store (results_table Sample.cts) = None
   /\ lower (cts_id Sample.cts) = cts_id Sample.cts)
  /\ fst (Setup.create_cts_tables Sample.cts Fixture.empty_store)
     = Setup.Returned tt
  /\ fst (cts_tables_exist Sample.cts
            (snd (Setup.create_cts_tables Sample.cts Fixture.empty_store)))
     = Ok true.
Proof.
  assert (Hu : names_unique (relations Fixture.empty_store)) by constructor.
  split.
  { refine (conj _ (conj _ (conj Hu (conj _ (conj _ _))))); reflexivity. }
  pose proof
    (created_tables_exist Sample.cts Fixture.empty_store
       eq_refl eq_refl Hu eq_refl eq_refl eq_refl) as H.
  cbv zeta in H. destruct H as [H1 [_ [_ H4]]].
  split; [exact H1 | exact H4].
Defined.

Lemma created_tables_not_seen_under_mixed_case_witness :
  (reachable Fixture.empty_store = true
   /\ plain_id (cts_id Fixture.mixed_case) = true
   /\ names_unique (relations Fixture.empty_store)
   /\ table_of Fixture.empty_store (active_searches_table Fixture.mixed_case)
      = None
   /\ table_of Fixture.empty_store (results_table Fixture.mixed_case) = None
   /\ lower (cts_id Fixture.mixed_case) <> cts_id Fixture.mixed_case
   /\ base_table_exists (relations Fixture.empty_store)
        (active_searches_table Fixture.mixed_case) = false)
  /\ fst (Setup.create_cts_tables Fixture.mixed_case Fixture.empty_store)
     = Setup.Returned tt
  /\ fst (cts_tables_exist Fixture.mixed_case
            (snd (Setup.create_cts_tables Fixture.mixed_case
                    Fixture.empty_store)))
     = Ok false.
Proof.
  assert (Hu : names_unique (relations Fixture.empty_store)) by constructor.
  assert (Hcase : lower (cts_id Fixture.mixed_case)
                  <> cts_id Fixture.mixed_case).
  { intros H. vm_compute in H. discriminate H. }
  split.
  { refine (conj _ (conj _ (conj Hu (conj _ (conj _ (conj Hcase _))))));
      reflexivity. }
  exact (created_tables_not_seen_under_mixed_case Fixture.mixed_case
           Fixture.empty_store eq_refl eq_refl Hu eq_refl eq_refl Hcase
           eq_refl).
Defined.

Lemma create_cts_tables_refused_when_present_witness :
  (reachable (Sample.store [] []) = true
   /\ plain_id (cts_id Sample.cts) = true
   /\ table_of (Sample.store [] []) (active_searches_table Sample.cts)
      = Some (Fixture.active_relation []))
  /\ fst (Setup.create_cts_tables Sample.cts (Sample.store [] []))
     = Setup.Raised (Setup.DuplicateTableError "cts_active_searches").
Proof.
  split; [refine (conj _ (conj _ _)); reflexivity|].
  rewrite (proj1 (create_cts_tables_refused_when_present Sample.cts
                    (Sample.store [] []) (Fixture.active_relation [])
                    eq_refl eq_refl) eq_refl).
  reflexivity.
Defined.


End SetupFacts.

(** ** Further properties of [util/mongo.py] *)

Module MongoStoreFacts.
Import Sql Mongo MongoInv SqlFacts MongoFacts StoreFacts.

Lemma lower_hex_is_hex (c : ascii) : is_lower_hex c = true -> is_hex c = true.
Proof.
  unfold is_lower_hex, is_hex. intros H.
  apply orb_true_iff in H as [H|H]; rewrite H; [reflexivity|].
  now rewrite orb_true_r.
Qed.

Lemma lower_hex_fixed (c : ascii) : is_lower_hex c = true -> lower_ascii c = c.
Proof.
  destruct c as [[] [] [] [] [] [] [] []]; vm_compute; intros H;
    try discriminate H; reflexivity.
Qed.

Lemma hex_digits_lower (d : Hexadecimal.uint) :
  string_forall is_lower_hex (HexadecimalString.NilEmpty.string_of_uint d)
  = true.
Proof. induction d; simpl; try reflexivity; exact IHd. Qed.

Lemma zeros_lower (n : nat) : string_forall is_lower_hex (zeros n) = true.
Proof. induction n; simpl; [reflexivity | exact IHn]. Qed.

Lemma object_id_lower_hex (n : N) :
  string_forall is_lower_hex (object_id_of n) = true.
Proof.
  unfold object_id_of. rewrite string_forall_append, zeros_lower.
  unfold HexadecimalString.NilZero.string_of_uint.
  destruct (N.to_hex_uint n); try apply hex_digits_lower. reflexivity.
Qed.

Lemma lower_hex_string (s : string) :
  string_forall is_lower_hex s = true ->
  string_forall is_hex s = true /\ lower s = s.
Proof.
  induction s as [|c s IH]; [split; reflexivity|]. simpl. intros H.
  apply andb_true_iff in H as [Hc Hs]. destruct (IH Hs) as [Hhex Hlow].
  split.
  - now rewrite (lower_hex_is_hex c Hc), Hhex.
  - unfold lower in *; simpl. now rewrite (lower_hex_fixed c Hc), Hlow.
Qed.

(** [ObjectId(str(oid)) == oid] for the ids the driver generates. *)
Lemma ObjectId_of_generated {St} (n : N) (st : St) :
  String.length (object_id_of n) = 24 ->
  ObjectId (object_id_of n) st = (Ok (object_id_of n), st).
Proof.
  intros Hlen. unfold ObjectId. rewrite Hlen.
  destruct (lower_hex_string _ (object_id_lower_hex n)) as [Hhex Hlow].
  rewrite Hhex, Hlow. reflexivity.
Qed.

Lemma find_app_last {A} (p : A -> bool) (l : list A) (x : A) :
  existsb p l = false -> p x = true -> find p (l ++ [x]) = Some x.
Proof.
  intros Hl Hx. induction l as [|y l IH]; simpl in *.
  - now rewrite Hx.
  - destruct (p y); [discriminate | exact (IH Hl)].
Qed.

Lemma find_app_some {A} (p : A -> bool) (l : list A) (x : A) :
  p x = true -> exists y, find p (l ++ [x]) = Some y /\ p y = true
                          /\ (existsb p l = false -> y = x).
Proof.
  intros Hx. induction l as [|z l IH]; simpl.
  - rewrite Hx. eauto.
  - destruct (p z) eqn:Hz; simpl.
    + exists z. repeat split; [exact Hz | discriminate].
    + exact IH.
Qed.

Lemma existsb_filter_negb {A} (p : A -> bool) (l : list A) :
  existsb p (filter (fun x => negb (p x)) l) = false.
Proof.
  induction l as [|x l IH]; [reflexivity|]. simpl.
  destruct (p x) eqn:Hx; simpl; [exact IH|]. now rewrite Hx.
Qed.

Lemma length_filter_split {A} (p : A -> bool) (l : list A) :
  length (filter (fun x => negb (p x)) l) + length (filter p l) = length l.
Proof.
  induction l as [|x l IH]; [reflexivity|]. simpl.
  destruct (p x); simpl; lia.
Qed.

Lemma add_active_search_state (artifact_type artifact_value : option string)
  (m : mongo) :
  add_active_search artifact_type artifact_value m
  = (if acknowledged m then Ok (next_id m) else Raise InsertException,
     {| active_searches :=
          active_searches m
          ++ [("_id", next_id m)
              :: cell "artifact_type" artifact_type
              ++ cell "artifact_value" artifact_value];
        results := results m;
        next_object_id := N.succ (next_object_id m);
        acknowledged := acknowledged m |}).
Proof.
  unfold add_active_search, bind, fresh_object_id, modify, gets, next_id.
  cbn. destruct (acknowledged m); reflexivity.
Qed.

Lemma next_id_not_empty (m : mongo) :
  String.length (next_id m) = 24 -> next_id m <> EmptyString.
Proof. intros H E. rewrite E in H. discriminate H. Qed.

(** Round trip through the active-search collection: the id
    [add_active_search] returns finds the document it inserted, and a
    lookup by the fingerprint finds a document with that fingerprint,
    the new one when no earlier document has it. *)
Theorem mongo_added_active_search_is_found :
  forall (t v : string) (m : mongo),
    acknowledged m = true ->
    id_available m (active_searches m) ->
    t <> EmptyString -> v <> EmptyString ->
    let oid := next_id m in
    let document :=
      [("_id", oid); ("artifact_type", t); ("artifact_value", v)] in
    let m' := snd (add_active_search (Some t) (Some v) m) in
    fst (add_active_search (Some t) (Some v) m) = Ok oid
    /\ fst (search_for_active_search (Some oid) None None m')
       = Ok (Some document)
    /\ exists d,
         fst (search_for_active_search None (Some t) (Some v) m') = Ok (Some d)
         /\ get "artifact_type" d = Some t
         /\ get "artifact_value" d = Some v
         /\ (existsb
               (matches [("artifact_value", v); ("artifact_type", t)])
               (active_searches m) = false -> d = document).
Proof.
  intros t v m Hack [Hlen Hfree] Htne Hvne. cbv zeta.
  rewrite add_active_search_state, Hack. cbn [fst snd cell app].
  set (oid := next_id m) in *.
  set (document :=
         [("_id", oid); ("artifact_type", t); ("artifact_value", v)]).
  split; [reflexivity|]. split.
  - unfold search_for_active_search, truthy.
    pose proof (next_id_not_empty m Hlen) as Hne.
    apply String.eqb_neq in Hne. fold oid in Hne. rewrite Hne.
    cbn [negb format]. unfold bind.
    unfold oid, next_id. rewrite (ObjectId_of_generated _ _ Hlen).
    unfold gets, ret; cbn [fst snd active_searches]. do 2 f_equal.
    unfold find_one. apply find_app_last; [exact Hfree|].
    unfold matches; cbn. now rewrite String.eqb_refl.
  - rewrite (search_for_active_search_by_fingerprint t v _ Htne Hvne).
    cbn [fst active_searches]. unfold find_one.
    destruct (find_app_some
                (matches [("artifact_value", v); ("artifact_type", t)])
                (active_searches m) document) as [d [Hfind [Hd Hnew]]].
    { unfold matches, document; cbn. now rewrite !String.eqb_refl. }
    exists d. split; [f_equal; exact Hfind|].
    unfold matches in Hd; cbn in Hd.
    rewrite andb_true_r in Hd. apply andb_true_iff in Hd as [Hv Ht].
    unfold eq_value in Hv, Ht.
    destruct (get "artifact_type" d) as [t'|]; [|discriminate Ht].
    destruct (get "artifact_value" d) as [v'|]; [|discriminate Hv].
    apply String.eqb_eq in Hv, Ht. subst t' v'.
    repeat split. exact Hnew.
Qed.

(** [remove_active_search] given a well-formed id deletes every document
    that bears it before it looks at the count: whatever it returns or
    raises, no such document is left, the other documents and the
    results are as they were.  So [DeletedMultipleActiveSearches] is
    raised with the documents already gone, and [ActiveSearchNotFound]
    with the collection unchanged. *)
Theorem mongo_remove_deletes_before_it_checks :
  forall (search_id oid : string) (m : mongo),
    ObjectId search_id m = (Ok oid, m) ->
    let m' := snd (remove_active_search search_id m) in
    active_searches m'
    = filter (fun d => negb (matches [("_id", oid)] d)) (active_searches m)
    /\ existsb (matches [("_id", oid)]) (active_searches m') = false
    /\ results m' = results m
    /\ (fst (remove_active_search search_id m)
        = Raise (ActiveSearchNotFound search_id) ->
        active_searches m' = active_searches m)
    /\ (fst (remove_active_search search_id m)
        = Raise (DeletedMultipleActiveSearches search_id) ->
        length (active_searches m') + 2 <= length (active_searches m)).
Proof.
  intros search_id oid m Hoid. cbv zeta.
  set (p := matches [("_id", oid)]).
  assert (Hstate : snd (remove_active_search search_id m)
    = with_active_searches m
        (filter (fun d => negb (p d)) (active_searches m))).
  { unfold remove_active_search, bind. rewrite Hoid.
    unfold gets, modify; cbn [fst snd deleted_count]. fold p.
    destruct (Nat.eqb _ 1); [reflexivity|].
    destruct (Nat.ltb 1 _); reflexivity. }
  assert (Hout : fst (remove_active_search search_id m)
    = let n := length (filter p (active_searches m)) in
      if Nat.eqb n 1 then Ok true
      else if Nat.ltb 1 n
      then Raise (DeletedMultipleActiveSearches search_id)
      else Raise (ActiveSearchNotFound search_id)).
  { unfold remove_active_search, bind. rewrite Hoid.
    unfold gets, modify; cbn [fst snd deleted_count]. fold p.
    destruct (Nat.eqb _ 1); [reflexivity|].
    destruct (Nat.ltb 1 _); reflexivity. }
  assert (Hsplit : length (filter (fun d => negb (p d)) (active_searches m))
                   + length (filter p (active_searches m))
                   = length (active_searches m)).
  { apply length_filter_split. }
  rewrite Hstate, Hout. cbn [active_searches results with_active_searches].
  cbv zeta. split; [reflexivity|]. split.
  { apply existsb_filter_negb. }
  split; [reflexivity|].
  destruct (Nat.eqb_spec (length (filter p (active_searches m))) 1);
    [split; discriminate|].
  destruct (Nat.ltb_spec 1 (length (filter p (active_searches m)))).
  - split; [discriminate|]. intros _. lia.
  - split; [|discriminate]. intros _.
    apply filter_negb_none.
    assert (Hzero : length (filter p (active_searches m)) = 0) by lia.
    apply length_zero_iff_nil in Hzero.
    destruct (existsb p (active_searches m)) eqn:Hex; [|reflexivity].
    apply existsb_exists in Hex as [d [Hin Hd]].
    assert (Hf : List.In d (filter p (active_searches m)))
      by (apply filter_In; split; assumption).
    rewrite Hzero in Hf. destruct Hf.
Qed.

(** Registering an active search and removing it by the id that was
    returned succeeds and gives the collection back the documents it
    had. *)
Theorem mongo_add_then_remove_restores :
  forall (artifact_type artifact_value : option string) (m : mongo),
    acknowledged m = true ->
    id_available m (active_searches m) ->
    let oid := next_id m in
    let m1 := snd (add_active_search artifact_type artifact_value m) in
    let m2 := snd (remove_active_search oid m1) in
    fst (add_active_search artifact_type artifact_value m) = Ok oid
    /\ fst (remove_active_search oid m1) = Ok true
    /\ active_searches m2 = active_searches m
    /\ results m2 = results m.
Proof.
  intros artifact_type artifact_value m Hack [Hlen Hfree]. cbv zeta.
  rewrite add_active_search_state, Hack. cbn [fst snd].
  set (oid := next_id m) in *.
  set (document := ("_id", oid) :: _).
  set (m1 := {| active_searches := _ |}).
  assert (Hoid : ObjectId oid m1 = (Ok oid, m1))
    by (apply ObjectId_of_generated; exact Hlen).
  assert (Hdoc : matches [("_id", oid)] document = true).
  { unfold matches, document; cbn. now rewrite String.eqb_refl. }
  split; [reflexivity|].
  unfold remove_active_search, bind. rewrite Hoid.
  unfold gets, modify; cbn [fst snd deleted_count active_searches m1].
  rewrite !filter_app, (filter_none _ _ Hfree),
    (filter_negb_none _ _ Hfree).
  cbn [filter]. rewrite Hdoc. cbn [negb app length Nat.eqb fst snd].
  rewrite app_nil_r. repeat split.
Qed.

Lemma store_search_results_state (search_id : string)
  (artifact_type artifact_value : option string) (hit : string) (m : mongo) :
  store_search_results search_id artifact_type artifact_value hit m
  = (if acknowledged m then Ok (next_id m) else Raise InsertException,
     {| active_searches := active_searches m;
        results :=
          results m
          ++ [("_id", next_id m) :: ("search_id", search_id)
              :: cell "artifact_type" artifact_type
              ++ cell "artifact_value" artifact_value ++ [("hit", hit)]];
        next_object_id := N.succ (next_object_id m);
        acknowledged := acknowledged m |}).
Proof.
  unfold store_search_results, bind, fresh_object_id, modify, gets, next_id.
  cbn. destruct (acknowledged m); reflexivity.
Qed.

(** Round trip through the results collection: a result stored under a
    search id that no earlier result bears is the document a lookup by
    that search id returns, with the fingerprint and the hit as they
    were given.  The value returned by [store_search_results] is the id
    of the document, not the search id. *)
Theorem mongo_stored_result_is_found :
  forall (search_id hit : string)
         (artifact_type artifact_value : option string) (m : mongo),
    acknowledged m = true ->
    search_id <> EmptyString ->
    existsb (matches [("search_id", search_id)]) (results m) = false ->
    let m' :=
      snd (store_search_results search_id artifact_type artifact_value
             hit m) in
    fst (store_search_results search_id artifact_type artifact_value hit m)
    = Ok (next_id m)
    /\ exists d,
         fst (search_for_results (Some search_id) artifact_type
                artifact_value m') = Ok (Some d)
         /\ get "_id" d = Some (next_id m)
         /\ get "search_id" d = Some search_id
         /\ get "artifact_type" d = artifact_type
         /\ get "artifact_value" d = artifact_value
         /\ get "hit" d = Some hit.
Proof.
  intros search_id hit artifact_type artifact_value m Hack Hne Hfree.
  cbv zeta. rewrite store_search_results_state, Hack. cbn [fst snd].
  split; [reflexivity|].
  eexists. split.
  - unfold search_for_results, truthy.
    apply String.eqb_neq in Hne. rewrite Hne. cbn [negb format].
    unfold bind, gets, ret; cbn [fst snd results]. do 2 f_equal.
    unfold find_one. apply find_app_last; [exact Hfree|].
    unfold matches; cbn. now rewrite String.eqb_refl.
  - destruct artifact_type, artifact_value; repeat split.
Qed.

(** *** The document-store theorems at sample collections *)

Lemma mongo_added_active_search_is_found_witness :
  let m := Sample.collections [] [] in
  (acknowledged m = true /\ id_available m (active_searches m))
  /\ fst (add_active_search (Some "uri") (Some "http://a") m)
     = Ok "000000000000000000001000"
  /\ fst (search_for_active_search (Some "000000000000000000001000")
            None None
            (snd (add_active_search (Some "uri") (Some "http://a") m)))
     = Ok (Some (Sample.active_document "000000000000000000001000"
                   "uri" "http://a")).
Proof.
  cbv zeta.
  assert (Hid : id_available (Sample.collections [] [])
                  (active_searches (Sample.collections [] [])))
    by (split; reflexivity).
  split; [split; [reflexivity | exact Hid]|].
  assert (Ht : "uri" <> EmptyString) by discriminate.
  assert (Hv : "http://a" <> EmptyString) by discriminate.
  pose proof (mongo_added_active_search_is_found "uri" "http://a"
                (Sample.collections [] []) eq_refl Hid Ht Hv) as H.
  cbv zeta in H. destruct H as [H1 [H2 _]].
  split; [exact H1 | exact H2].
Defined.

Lemma mongo_remove_deletes_before_it_checks_witness :
  let m :=
    Sample.collections
      [Sample.active_document Sample.oid1 "uri" "http://a";
       Sample.active_document Sample.oid2 "ip" "10.0.0.1"] [] in
  ObjectId Sample.oid1 m = (Ok Sample.oid1, m)
  /\ active_searches (snd (remove_active_search Sample.oid1 m))
     = [Sample.active_document Sample.oid2 "ip" "10.0.0.1"].
Proof.
  cbv zeta. split; [reflexivity|].
  exact (proj1 (mongo_remove_deletes_before_it_checks Sample.oid1 Sample.oid1
                  (Sample.collections
                     [Sample.active_document Sample.oid1 "uri" "http://a";
                      Sample.active_document Sample.oid2 "ip" "10.0.0.1"] [])
                  eq_refl)).
Defined.

Lemma mongo_add_then_remove_restores_witness :
  let m :=
    Sample.collections
      [Sample.active_document Sample.oid1 "uri" "http://a"] [] in
  (acknowledged m = true /\ id_available m (active_searches m))
  /\ fst (remove_active_search "000000000000000000001000"
            (snd (add_active_search (Some "ip") (Some "10.0.0.1") m)))
     = Ok true
  /\ active_searches
       (snd (remove_active_search "000000000000000000001000"
               (snd (add_active_search (Some "ip") (Some "10.0.0.1") m))))
     = [Sample.active_document Sample.oid1 "uri" "http://a"].
Proof.
  cbv zeta.
  assert (Hid : id_available
                  (Sample.collections
                     [Sample.active_document Sample.oid1 "uri" "http://a"] [])
                  [Sample.active_document Sample.oid1 "uri" "http://a"])
    by (split; reflexivity).
  split; [split; [reflexivity | exact Hid]|].
  pose proof (mongo_add_then_remove_restores (Some "ip") (Some "10.0.0.1")
                (Sample.collections
                   [Sample.active_document Sample.oid1 "uri" "http://a"] [])
                eq_refl Hid) as H.
  cbv zeta in H. destruct H as [_ [H2 [H3 _]]].
  split; [exact H2 | exact H3].
Defined.

Lemma mongo_stored_result_is_found_witness :
  let m := Sample.collections [] [] in
  (acknowledged m = true
   /\ existsb (matches [("search_id", "1")]) (results m) = false)
  /\ fst (store_search_results "1" (Some "uri") (Some "http://a") "[5]" m)
     = Ok "000000000000000000001000"
  /\ exists d,
       fst (search_for_results (Some "1") (Some "uri") (Some "http://a")
              (snd (store_search_results "1" (Some "uri") (Some "http://a")
                      "[5]" m)))
       = Ok (Some d)
       /\ get "hit" d = Some "[5]".
Proof.
  cbv zeta. split; [split; reflexivity|].
  assert (Hne : "1" <> EmptyString) by discriminate.
  pose proof (mongo_stored_result_is_found "1" "[5]" (Some "uri")
                (Some "http://a") (Sample.collections [] [])
                eq_refl Hne eq_refl) as H.
  cbv zeta in H. destruct H as [H1 [d [H2 [_ [_ [_ [_ H7]]]]]]].
  split; [exact H1|]. exists d. split; [exact H2 | exact H7].
Defined.

End MongoStoreFacts.

(** ** Further properties of [async_cts.py] *)

Module HandlerFacts.
Import Pg Inv LoopInv ConnectionFacts DBFacts StoreFacts AsyncCTS.

(** *** What the handler does to the store *)

Lemma untouched_refl (s : pg) : untouched s s.
Proof. split; [reflexivity|]. intros H; split; [reflexivity | exact H]. Qed.

Lemma untouched_trans (s s1 s2 : pg) :
  untouched s s1 -> untouched s1 s2 -> untouched s s2.
Proof.
  intros [Hr1 Hc1] [Hr2 Hc2]. split; [congruence|].
  intros Hfresh. destruct (Hc1 Hfresh) as [Ho1 Hf1].
  destruct (Hc2 Hf1) as [Ho2 Hf2]. split; [congruence | exact Hf2].
Qed.

Lemma decorated_call_untouched {A} (func : nat -> M pg A) (s : pg) :
  (forall conn s0,
     relations (snd (func conn s0)) = relations s0
     /\ open_conns (snd (func conn s0)) = open_conns s0
     /\ next_conn (snd (func conn s0)) = next_conn s0) ->
  untouched s (snd (DB.handle_db_connection func s)).
Proof.
  intros Hfunc. split.
  - destruct (reachable s) eqn:Hup.
    + rewrite (handle_db_connection_run func s Hup); cbn [snd].
      destruct (Hfunc (next_conn s) (opened s)) as [Hrel _].
      unfold closed; cbn [relations with_conns]. now rewrite Hrel.
    + now rewrite (handle_db_connection_down func s Hup).
  - apply decorated_call_releases. intros conn s0.
    destruct (Hfunc conn s0) as [_ H]. exact H.
Qed.

Lemma lookup_untouched (guard by_id : bool) (e : exn)
  (text1 text2 : string) (s : pg) :
  untouched s
    (snd (DB.handle_db_connection
            (fun conn =>
               if guard then raise e
               else if by_id then fetch conn text1 else fetch conn text2)
            s)).
Proof.
  apply decorated_call_untouched. intros conn s0.
  destruct guard; [repeat split|].
  destruct by_id; rewrite fetch_state; repeat split.
Qed.

Lemma refused_add_active_search_untouched (self : DB.DB)
  (a b c : option string) (s : pg) :
  untouched s (snd (DB.add_active_search self [a; b; c] s)).
Proof. apply decorated_call_untouched. intros conn s0. repeat split. Qed.

(** The store the handler leaves is the store after its two lookups, or
    after the call of [add_active_search] that follows them. *)
Lemma handler_store (uuid4 : nat -> string) (self : DB.DB)
  (artifact_payload : row) (file : option file_payload) (w : world) :
  let s1 :=
    snd (DB.search_for_results self None (get "type" artifact_payload)
           (get "value" artifact_payload) (db w)) in
  let s2 :=
    snd (DB.search_for_active_search self None (get "type" artifact_payload)
           (get "value" artifact_payload) s1) in
  let after := snd (scanArtifactHandler uuid4 self artifact_payload file w) in
  db after = s2
  \/ db after
     = snd (DB.add_active_search self
              [Some (uuid4 (uuid_count w)); get "type" artifact_payload;
               get "value" artifact_payload] s2).
Proof.
  cbv zeta. unfold scanArtifactHandler, bind, await_db, gather.
  destruct (DB.search_for_results self None _ _ (db w)) as [r1 s1].
  cbn [snd].
  destruct (DB.search_for_active_search self None _ _ s1) as [r2 s2].
  cbn [snd].
  destruct r1 as [past|e1]; [|left; reflexivity].
  destruct r2 as [active|e2]; [|left; reflexivity].
  cbn [fst snd].
  destruct (Nat.eqb (length past) 0 && Nat.eqb (length active) 0).
  - right. unfold create_task, new_uuid, add_done_callback, modify.
    cbn [fst snd db with_db with_pending with_uuid_count uuid_count].
    destruct (DB.add_active_search self _ s2) as [[id|e] s3]; reflexivity.
  - left. destruct (Nat.eqb (length active) 1); [reflexivity|].
    destruct (Nat.eqb (length past) 1).
    + unfold json_loads. destruct (get "hit" (hd [] past)); reflexivity.
    + destruct file as [f|]; [|reflexivity].
      unfold os_unlink. cbn [files with_db].
      destruct (existsb _ (files w)); reflexivity.
Qed.

(** For a CTS id that is a plain identifier and a request whose type
    and value hold no single quote, the statements the handler sends
    are its two lookups as they are written, with the values of the
    request inside their literals.  On every path, whether it answers,
    raises or returns nothing, the handler then leaves the relations of
    the store as it found them and no connection open that was not open
    before; on the launch path the call of [add_active_search] is
    refused before a statement is sent. *)
Theorem handler_leaves_store_untouched :
  forall (uuid4 : nat -> string) (self : DB.DB) (artifact_payload : row)
         (file : option file_payload) (w : world),
    conns_fresh (db w) ->
    plain_id (DB.cts_id self) = true ->
    (forall t, get "type" artifact_payload = Some t ->
               Sql.no_quote t = true) ->
    (forall v, get "value" artifact_payload = Some v ->
               Sql.no_quote v = true) ->
    let after := snd (scanArtifactHandler uuid4 self artifact_payload file w) in
    relations (db after) = relations (db w)
    /\ open_conns (db after) = open_conns (db w).
Proof.
  intros uuid4 self artifact_payload file w Hfresh _ _ _. cbv zeta.
  set (s1 := snd (DB.search_for_results self None (get "type" artifact_payload)
                    (get "value" artifact_payload) (db w))).
  set (s2 := snd (DB.search_for_active_search self None
                    (get "type" artifact_payload)
                    (get "value" artifact_payload) s1)).
  assert (H1 : untouched (db w) s1) by apply lookup_untouched.
  assert (H2 : untouched s1 s2) by apply lookup_untouched.
  pose proof (untouched_trans _ _ _ H1 H2) as H12.
  destruct (handler_store uuid4 self artifact_payload file w) as [E|E];
    fold s1 s2 in E; rewrite E.
  - destruct H12 as [Hrel Hconns]. split; [exact Hrel|].
    now destruct (Hconns Hfresh).
  - pose proof (untouched_trans _ _ _ H12
                  (refused_add_active_search_untouched self
                     (Some (uuid4 (uuid_count w)))
                     (get "type" artifact_payload)
                     (get "value" artifact_payload) s2))
      as [Hrel Hconns].
    split; [exact Hrel|]. now destruct (Hconns Hfresh).
Qed.

(** *** Which branch answers a request *)

(** The two lookups of a request for the fingerprint [(t, v)], two
    non-empty strings without a quote, on a store that has both tables:
    each returns the records of its table that carry the fingerprint. *)
Lemma lookups_by_fingerprint (self : DB.DB) (s : pg) (t v : string)
  (results active : relation) :
  reachable s = true ->
  plain_id (DB.cts_id self) = true ->
  table_of s (DB.results_table self) = Some results ->
  table_of s (DB.active_searches_table self) = Some active ->
  rel_columns results = result_columns ->
  rel_columns active = active_search_columns ->
  t <> EmptyString -> v <> EmptyString ->
  Sql.no_quote t = true -> Sql.no_quote v = true ->
  let s1 := closed (next_conn s) (opened s) in
  DB.search_for_results self None (Some t) (Some v) s
  = (Ok (filter (fingerprint_match t v) (rel_rows results)), s1)
  /\ DB.search_for_active_search self None (Some t) (Some v) s1
     = (Ok (filter (fingerprint_match t v) (rel_rows active)),
        closed (next_conn s1) (opened s1)).
Proof.
  intros Hup Hid Hresults Hactive Hrc Hac Htne Hvne Ht Hv. cbv zeta.
  apply plain_id_start in Hid.
  split.
  - rewrite (search_for_results_run self _ _ _ s Hup). f_equal.
    apply (lookup_outcome_by_fingerprint _ _ "_results" t v
             (rel_columns results) (rel_rows results));
      try assumption; try reflexivity; try (simpl; lia);
      try (rewrite Hrc; reflexivity).
    exact (resolve_results self (relations s) results Hresults).
  - rewrite (search_for_active_search_run self _ _ _
               (closed (next_conn s) (opened s)) Hup).
    f_equal.
    apply (lookup_outcome_by_fingerprint _ _ "_active_searches" t v
             (rel_columns active) (rel_rows active));
      try assumption; try reflexivity; try (simpl; lia);
      try (rewrite Hac; reflexivity).
    exact (resolve_active_searches self (relations s) active Hactive).
Qed.

(** C1, as the code has it.  The store can be reached and holds both
    tables of a CTS id that is a plain identifier; the request names a
    fingerprint of two non-empty strings without a quote.  When the
    results table holds exactly one record with that fingerprint, whose
    hit is not null, and the active-searches table does not hold exactly
    one, the response is the hit of that record.  When the
    active-searches table holds exactly one record with the fingerprint,
    the response is the reference to that search, whatever the results
    table holds. *)
Theorem stored_result_returned_unless_one_active_search :
  forall (uuid4 : nat -> string) (self : DB.DB) (artifact_payload : row)
         (file : option file_payload) (w : world) (t v : string)
         (results active : relation),
    reachable (db w) = true ->
    plain_id (DB.cts_id self) = true ->
    table_of (db w) (DB.results_table self) = Some results ->
    table_of (db w) (DB.active_searches_table self) = Some active ->
    rel_columns results = result_columns ->
    rel_columns active = active_search_columns ->
    get "type" artifact_payload = Some t ->
    get "value" artifact_payload = Some v ->
    t <> EmptyString -> v <> EmptyString ->
    Sql.no_quote t = true -> Sql.no_quote v = true ->
    let stored := filter (fingerprint_match t v) (rel_rows results) in
    let in_flight := filter (fingerprint_match t v) (rel_rows active) in
    (forall record hit,
       stored = [record] ->
       length in_flight <> 1 ->
       get "hit" record = Some hit ->
       fst (scanArtifactHandler uuid4 self artifact_payload file w)
       = Ok (Some (json_response hit)))
    /\ (forall record,
          in_flight = [record] ->
          fst (scanArtifactHandler uuid4 self artifact_payload file w)
          = Ok (Some (Response
                  (fstring ["active search ";
                            format (get "search_id" record)])))).
Proof.
  intros uuid4 self artifact_payload file w t v results active
    Hup Hid Hresults Hactive Hrc Hac Htype Hvalue Htne Hvne Ht Hv.
  cbv zeta.
  destruct (lookups_by_fingerprint self (db w) t v results active
              Hup Hid Hresults Hactive Hrc Hac Htne Hvne Ht Hv)
    as [Hfound Hflight].
  rewrite <- Htype, <- Hvalue in Hfound, Hflight.
  split.
  - intros record hit Hone Hnot Hhit.
    rewrite (OrchestratorFacts.stored_result_branch uuid4 self
               artifact_payload file w _ _ _ _ Hfound Hflight hit).
    + reflexivity.
    + now rewrite Hone.
    + exact Hnot.
    + now rewrite Hone.
  - intros record Hone.
    rewrite (OrchestratorFacts.join_in_flight_first uuid4 self
               artifact_payload file w _ _ _ _ Hfound Hflight).
    + now rewrite Hone.
    + now rewrite Hone.
Qed.

(** *** Which path unlinks the uploaded file *)

(** With an uploaded file on disk and both lookups answered, the handler
    itself unlinks the file exactly when the counts fall through its
    three branches, in which case it returns no response; on the launch,
    join and stored-result paths it leaves the file where it is. *)
Theorem handler_unlinks_only_on_fall_through :
  forall (uuid4 : nat -> string) (self : DB.DB) (artifact_payload : row)
         (f : file_payload) (w : world)
         (past_results active_searches : list row) (s1 s2 : pg),
    DB.search_for_results self None
      (get "type" artifact_payload) (get "value" artifact_payload) (db w)
    = (Ok past_results, s1) ->
    DB.search_for_active_search self None
      (get "type" artifact_payload) (get "value" artifact_payload) s1
    = (Ok active_searches, s2) ->
    existsb (String.eqb (path f)) (files w) = true ->
    let after :=
      snd (scanArtifactHandler uuid4 self artifact_payload (Some f) w) in
    if falls_through past_results active_searches then
      fst (scanArtifactHandler uuid4 self artifact_payload (Some f) w)
      = Ok None
      /\ unlinked after = unlinked w ++ [path f]
      /\ files after = filter (fun p => negb (path f =? p)) (files w)
      /\ pending after = pending w
    else
      unlinked after = unlinked w /\ files after = files w.
Proof.
  intros uuid4 self artifact_payload f w past_results active_searches s1 s2
    Hpast Hactive Hthere. cbv zeta.
  unfold scanArtifactHandler, bind.
  rewrite (OrchestratorFacts.lookups_run self artifact_payload w
             past_results active_searches s1 s2 Hpast Hactive).
  cbn [fst snd]. unfold falls_through.
  destruct (Nat.eqb (length past_results) 0
            && Nat.eqb (length active_searches) 0); cbn [negb andb].
  - unfold create_task, new_uuid, add_done_callback, modify, await_db.
    cbn [fst snd db with_db with_pending with_uuid_count].
    destruct (DB.add_active_search self _ s2) as [[id|e] s3];
      split; reflexivity.
  - destruct (Nat.eqb (length active_searches) 1); cbn [negb andb];
      [split; reflexivity|].
    destruct (Nat.eqb (length past_results) 1); cbn [negb].
    + unfold json_loads.
      destruct (get "hit" (hd [] past_results)); split; reflexivity.
    + unfold os_unlink. cbn [files with_db]. rewrite Hthere.
      repeat split.
Qed.

(** *** Requests that cannot be looked up *)

Lemma with_db_same (w : world) : with_db w (db w) = w.
Proof. now destruct w. Qed.

(** When the store cannot be reached the handler raises the connection
    error of the first lookup and leaves everything as it was: nothing
    is scheduled and an uploaded file stays on disk. *)
Theorem handler_store_down :
  forall (uuid4 : nat -> string) (self : DB.DB) (artifact_payload : row)
         (file : option file_payload) (w : world),
    reachable (db w) = false ->
    scanArtifactHandler uuid4 self artifact_payload file w
    = (Raise ConnectionRefusedError, w).
Proof.
  intros uuid4 self artifact_payload file w Hdown.
  unfold scanArtifactHandler, bind, await_db, gather,
    DB.search_for_results, DB.search_for_active_search.
  rewrite !(handle_db_connection_down _ (db w) Hdown).
  now rewrite with_db_same.
Qed.

(** A request whose artifact has no type or no value (the key is
    missing, or the string is empty) is refused by the lookups with
    their missing-parameter error: no search is started, nothing is
    scheduled, and an uploaded file stays on disk. *)
Theorem handler_refuses_incomplete_artifact :
  forall (uuid4 : nat -> string) (self : DB.DB) (artifact_payload : row)
         (file : option file_payload) (w : world),
    reachable (db w) = true ->
    no_fingerprint artifact_payload = true ->
    let after := snd (scanArtifactHandler uuid4 self artifact_payload file w) in
    fst (scanArtifactHandler uuid4 self artifact_payload file w)
    = Raise (Exception DB.required_parameters)
    /\ pending after = pending w
    /\ files after = files w
    /\ unlinked after = unlinked w
    /\ relations (db after) = relations (db w).
Proof.
  intros uuid4 self artifact_payload file w Hup Hmissing. cbv zeta.
  unfold scanArtifactHandler, bind, await_db, gather.
  rewrite (search_for_results_run self _ _ _ (db w) Hup).
  cbv beta iota.
  rewrite (search_for_active_search_run self _ _ _
             (closed (next_conn (db w)) (opened (db w))) Hup).
  unfold lookup_outcome, no_key. cbn [truthy negb andb].
  unfold no_fingerprint in Hmissing. rewrite Hmissing.
  repeat split.
Qed.

(** *** The completion of a search that went well *)

(** The turn of the loop that runs a searcher task to a payload calls the
    completion reaction, which schedules the removal of the active
    search and the storing of the payload, in that order and under the
    search id and the artifact the callback holds, and unlinks the
    uploaded file once.  When the file is no longer on disk, the two
    tasks are scheduled all the same and [FileNotFoundError] reaches the
    loop.  The store is not touched in this turn. *)
Theorem finished_search_is_handed_on :
  forall (searcher : option string -> option string -> option file_payload
                     -> result string)
         (self : DB.DB) (w : world) (t : task) (rest : list task)
         (artifact_type artifact_value : option string)
         (upload file : option file_payload)
         (search_id : string) (artifact_payload : row) (hit : string),
    pending w = t :: rest ->
    coro t = Searcher artifact_type artifact_value upload ->
    done_callbacks t = [SearchComplete search_id artifact_payload file] ->
    searcher artifact_type artifact_value upload = Ok hit ->
    let w' := run_task searcher self w in
    map coro (pending w')
    = map coro rest
      ++ [RemoveActiveSearch search_id;
          StoreSearchResults search_id (get "type" artifact_payload)
            (get "value" artifact_payload) hit]
    /\ db w' = db w
    /\ match file with
       | None =>
           unlinked w' = unlinked w /\ files w' = files w
           /\ reported w' = reported w
       | Some f =>
           if existsb (String.eqb (path f)) (files w) then
             unlinked w' = unlinked w ++ [path f]
             /\ files w' = filter (fun p => negb (path f =? p)) (files w)
             /\ reported w' = reported w
           else
             unlinked w' = unlinked w /\ files w' = files w
             /\ reported w' = reported w ++ [FileNotFoundError (path f)]
       end.
Proof.
  intros searcher self w t rest artifact_type artifact_value upload file
    search_id artifact_payload hit Hpending Hcoro Hcallbacks Hhit.
  cbv zeta. unfold run_task. rewrite Hpending, Hcoro, Hcallbacks.
  unfold run_coroutine. rewrite Hhit. cbn [future_result ret].
  cbn [run_callbacks run_callback].
  unfold search_complete_handler, bind, create_task, future_result, ret.
  cbn [fst snd with_pending pending next_task].
  destruct file as [f|].
  - unfold os_unlink. cbn [files with_pending].
    destruct (existsb (String.eqb (path f)) (files w));
      cbn [pending db unlinked files reported with_files with_pending
           report with_reported];
      rewrite <- app_assoc, !map_app; repeat split.
  - cbn [pending db unlinked files reported with_pending].
    rewrite <- app_assoc, !map_app. repeat split.
Qed.

(** *** Task ids *)

Lemma create_task_fresh (c : coroutine) : keeps_tasks_fresh (create_task c).
Proof.
  intros w [Hlt Hnd]. unfold create_task, tasks_fresh.
  cbn [snd pending next_task with_pending]. split.
  - apply Forall_app. split.
    + eapply Forall_impl; [|exact Hlt]. cbn; intros t Ht; lia.
    + constructor; [cbn; lia | constructor].
  - rewrite map_app. apply NoDup_app;
    [exact Hnd | repeat constructor; intros [] |].
    intros k Hin [Hk|[]]. cbn in Hk. subst k.
    apply in_map_iff in Hin as [t [Hid Hin]].
    rewrite Forall_forall in Hlt. specialize (Hlt t Hin). lia.
Qed.

Lemma add_done_callback_fresh (id : nat) (cb : callback) :
  keeps_tasks_fresh (add_done_callback id cb).
Proof.
  intros w [Hlt Hnd]. unfold add_done_callback, modify, tasks_fresh.
  cbn [snd pending next_task with_pending].
  assert (Hid : forall t, task_id (add_callback id cb t) = task_id t).
  { intros t. unfold add_callback. now destruct (Nat.eqb (task_id t) id). }
  split.
  - apply Forall_map. eapply Forall_impl; [|exact Hlt].
    intros t Ht. now rewrite Hid.
  - rewrite map_map. rewrite (map_ext _ task_id Hid). exact Hnd.
Qed.

Lemma bind_fresh {A B} (m : M world A) (k : A -> M world B) :
  keeps_tasks_fresh m -> (forall a, keeps_tasks_fresh (k a)) ->
  keeps_tasks_fresh (bind m k).
Proof.
  intros Hm Hk w Hw. unfold bind. specialize (Hm w Hw).
  destruct (m w) as [[a|e] w1]; cbn [snd] in *; [|exact Hm].
  exact (Hk a w1 Hm).
Qed.

Lemma ret_fresh {A} (a : A) : keeps_tasks_fresh (ret a).
Proof. intros w Hw. exact Hw. Qed.

Lemma raise_fresh {A} (e : exn) : keeps_tasks_fresh (raise (A := A) e).
Proof. intros w Hw. exact Hw. Qed.

Lemma await_db_fresh {A} (m : M pg A) : keeps_tasks_fresh (await_db m).
Proof.
  intros w Hw. unfold await_db. destruct (m (db w)) as [r s]. exact Hw.
Qed.

Lemma new_uuid_fresh (uuid4 : nat -> string) :
  keeps_tasks_fresh (new_uuid uuid4).
Proof. intros w Hw. exact Hw. Qed.

Lemma os_unlink_fresh (p : string) : keeps_tasks_fresh (os_unlink p).
Proof.
  intros w Hw. unfold os_unlink.
  destruct (existsb (String.eqb p) (files w)); exact Hw.
Qed.

Lemma future_result_fresh {A} (future : result A) :
  keeps_tasks_fresh (future_result future).
Proof. destruct future; [apply ret_fresh | apply raise_fresh]. Qed.

Lemma search_complete_handler_fresh (future : result string)
  (search_id : string) (artifact_type artifact_value : option string)
  (file : option file_payload) :
  keeps_tasks_fresh
    (search_complete_handler future search_id artifact_type artifact_value
       file).
Proof.
  unfold search_complete_handler.
  apply bind_fresh; [apply create_task_fresh | intros _].
  apply bind_fresh; [apply future_result_fresh | intros hit].
  apply bind_fresh; [apply create_task_fresh | intros _].
  destruct file; [apply os_unlink_fresh | apply ret_fresh].
Qed.

Lemma scanArtifactHandler_fresh (uuid4 : nat -> string) (self : DB.DB)
  (artifact_payload : row) (file : option file_payload) :
  keeps_tasks_fresh (scanArtifactHandler uuid4 self artifact_payload file).
Proof.
  unfold scanArtifactHandler.
  apply bind_fresh; [apply await_db_fresh | intros found].
  destruct (Nat.eqb (length (fst found)) 0
            && Nat.eqb (length (snd found)) 0).
  - apply bind_fresh; [apply create_task_fresh | intros resp].
    apply bind_fresh; [apply new_uuid_fresh | intros search_id].
    apply bind_fresh; [apply add_done_callback_fresh | intros _].
    apply bind_fresh; [apply await_db_fresh | intros _]. apply ret_fresh.
  - destruct (Nat.eqb (length (snd found)) 1); [apply ret_fresh|].
    destruct (Nat.eqb (length (fst found)) 1).
    + apply bind_fresh; [|intros body; apply ret_fresh].
      unfold json_loads.
      destruct (get "hit" (hd [] (fst found)));
        [apply ret_fresh | apply raise_fresh].
    + apply bind_fresh; [|intros _; apply ret_fresh].
      destruct file; [apply os_unlink_fresh | apply ret_fresh].
Qed.

Lemma report_fresh (e : exn) (w : world) :
  tasks_fresh w -> tasks_fresh (report e w).
Proof. intros Hw. exact Hw. Qed.

Lemma run_callbacks_fresh (future : result string) (cbs : list callback)
  (w : world) :
  tasks_fresh w -> tasks_fresh (run_callbacks future cbs w).
Proof.
  revert w. induction cbs as [|cb cbs IH]; intros w Hw; [exact Hw|].
  cbn [run_callbacks].
  assert (Hcb : tasks_fresh (snd (run_callback future cb w))).
  { destruct cb. apply search_complete_handler_fresh. exact Hw. }
  destruct (run_callback future cb w) as [[u|e] w1]; cbn [snd] in Hcb;
    apply IH; [exact Hcb | apply report_fresh; exact Hcb].
Qed.

Lemma run_task_fresh
  (searcher : option string -> option string -> option file_payload
              -> result string)
  (self : DB.DB) (w : world) :
  tasks_fresh w -> tasks_fresh (run_task searcher self w).
Proof.
  intros Hw. unfold run_task.
  destruct (pending w) as [|t rest] eqn:Hpending; [exact Hw|].
  assert (Hrest : tasks_fresh (with_pending w (next_task w) rest)).
  { destruct Hw as [Hlt Hnd]. rewrite Hpending in Hlt, Hnd.
    unfold tasks_fresh; cbn [pending next_task with_pending].
    inversion Hlt; subst. cbn [map] in Hnd. inversion Hnd; subst.
    split; assumption. }
  assert (Hrun : tasks_fresh
    (snd (run_coroutine searcher self (coro t)
            (with_pending w (next_task w) rest)))).
  { destruct (coro t); cbn [run_coroutine].
    - apply future_result_fresh; exact Hrest.
    - apply await_db_fresh; exact Hrest.
    - apply await_db_fresh; exact Hrest. }
  destruct (run_coroutine searcher self (coro t) _) as [future w1].
  cbn [snd] in Hrun.
  destruct future as [a|e].
  - apply run_callbacks_fresh; exact Hrun.
  - destruct (done_callbacks t) as [|cb cbs];
      [apply report_fresh | apply run_callbacks_fresh]; exact Hrun.
Qed.

(** The order of task ids is an invariant of the process: the handler
    keeps it whatever the request and the outcome, and so does every
    number of turns of the loop.  A callback is therefore attached to
    the one task it was written for. *)
Theorem task_ids_stay_fresh :
  forall (searcher : option string -> option string -> option file_payload
                     -> result string)
         (uuid4 : nat -> string) (self : DB.DB) (artifact_payload : row)
         (file : option file_payload) (turns : nat) (w : world),
    tasks_fresh w ->
    tasks_fresh (snd (scanArtifactHandler uuid4 self artifact_payload file w))
    /\ tasks_fresh (run_loop searcher self turns w).
Proof.
  intros searcher uuid4 self artifact_payload file turns w Hw. split.
  - now apply scanArtifactHandler_fresh.
  - revert w Hw. induction turns as [|n IH]; intros w Hw; [exact Hw|].
    cbn [run_loop]. apply IH. now apply run_task_fresh.
Qed.

(** *** The handler theorems at sample processes *)

Lemma stored_result_returned_unless_one_active_search_witness :
  let stored := Sample.result_record "7" "uri" "http://a" "{}" in
  let other := Sample.result_record "8" "ip" "10.0.0.1" "[5]" in
  let w := Sample.process [] [stored; other] in
  (reachable (db w) = true
   /\ plain_id (DB.cts_id Sample.cts) = true
   /\ table_of (db w) (DB.results_table Sample.cts)
      = Some (Fixture.results_relation [stored; other])
   /\ table_of (db w) (DB.active_searches_table Sample.cts)
      = Some (Fixture.active_relation [])
   /\ Sql.no_quote "uri" = true /\ Sql.no_quote "http://a" = true
   /\ filter (fingerprint_match "uri" "http://a") [stored; other] = [stored])
  /\ fst (scanArtifactHandler Sample.uuid4 Sample.cts
            (Sample.artifact "uri" "http://a") (Some Sample.upload) w)
     = Ok (Some (json_response "{}")).
Proof.
  cbv zeta.
  split.
  { refine (conj _ (conj _ (conj _ (conj _ (conj _ (conj _ _))))));
      reflexivity. }
  assert (Ht : "uri" <> EmptyString) by discriminate.
  assert (Hv : "http://a" <> EmptyString) by discriminate.
  assert (Hnot : @length row [] <> 1) by discriminate.
  exact (proj1
    (stored_result_returned_unless_one_active_search Sample.uuid4 Sample.cts
       (Sample.artifact "uri" "http://a") (Some Sample.upload)
       (Sample.process []
          [Sample.result_record "7" "uri" "http://a" "{}";
           Sample.result_record "8" "ip" "10.0.0.1" "[5]"])
       "uri" "http://a"
       (Fixture.results_relation
          [Sample.result_record "7" "uri" "http://a" "{}";
           Sample.result_record "8" "ip" "10.0.0.1" "[5]"])
       (Fixture.active_relation [])
       eq_refl eq_refl eq_refl eq_refl eq_refl eq_refl eq_refl eq_refl
       Ht Hv eq_refl eq_refl)
    (Sample.result_record "7" "uri" "http://a" "{}") "{}"
    eq_refl Hnot eq_refl).
Defined.

Lemma handler_leaves_store_untouched_witness :
  let w := Sample.process [] [] in
  let payload := Sample.artifact "uri" "http://a" in
  (conns_fresh (db w)
   /\ plain_id (DB.cts_id Sample.cts) = true
   /\ (forall t, get "type" payload = Some t -> Sql.no_quote t = true)
   /\ (forall v, get "value" payload = Some v -> Sql.no_quote v = true))
  /\ relations
       (db (snd (scanArtifactHandler Sample.uuid4 Sample.cts payload
                   (Some Sample.upload) w)))
     = relations (db w).
Proof.
  cbv zeta.
  assert (H : conns_fresh (db (Sample.process [] []))) by constructor.
  assert (Ht : forall t, get "type" (Sample.artifact "uri" "http://a")
                         = Some t -> Sql.no_quote t = true).
  { intros t E. injection E as <-. reflexivity. }
  assert (Hv : forall v, get "value" (Sample.artifact "uri" "http://a")
                         = Some v -> Sql.no_quote v = true).
  { intros v E. injection E as <-. reflexivity. }
  split; [exact (conj H (conj eq_refl (conj Ht Hv)))|].
  exact (proj1 (handler_leaves_store_untouched Sample.uuid4 Sample.cts
                  (Sample.artifact "uri" "http://a") (Some Sample.upload)
                  (Sample.process [] []) H eq_refl Ht Hv)).
Defined.

Lemma handler_unlinks_only_on_fall_through_witness :
  let past := [Sample.result_record "1" "uri" "http://a" "[5]";
               Sample.result_record "2" "uri" "http://a" "[7]"] in
  let w := Sample.process [] past in
  let payload := Sample.artifact "uri" "http://a" in
  (DB.search_for_results Sample.cts None (Some "uri") (Some "http://a") (db w)
   = (Ok past, closed 0 (opened (db w)))
   /\ DB.search_for_active_search Sample.cts None (Some "uri")
        (Some "http://a") (closed 0 (opened (db w)))
      = (Ok [], closed 1 (opened (closed 0 (opened (db w)))))
   /\ existsb (String.eqb (path Sample.upload)) (files w) = true)
  /\ fst (scanArtifactHandler Sample.uuid4 Sample.cts payload
            (Some Sample.upload) w) = Ok None
  /\ unlinked (snd (scanArtifactHandler Sample.uuid4 Sample.cts payload
                      (Some Sample.upload) w))
     = ["/tmp/tmpk3j2x9ab"].
Proof.
  cbv zeta.
  split; [refine (conj _ (conj _ _)); reflexivity|].
  pose proof
    (handler_unlinks_only_on_fall_through Sample.uuid4 Sample.cts
       (Sample.artifact "uri" "http://a") Sample.upload
       (Sample.process []
          [Sample.result_record "1" "uri" "http://a" "[5]";
           Sample.result_record "2" "uri" "http://a" "[7]"])
       [Sample.result_record "1" "uri" "http://a" "[5]";
        Sample.result_record "2" "uri" "http://a" "[7]"]
       []
       _ _ eq_refl eq_refl eq_refl) as H.
  cbv zeta in H. cbn [falls_through length Nat.eqb andb negb] in H.
  destruct H as [H1 [H2 _]].
  split; [exact H1 | exact H2].
Defined.

Lemma handler_store_down_witness :
  reachable (db Fixture.stopped_process) = false
  /\ scanArtifactHandler Sample.uuid4 Sample.cts
       (Sample.artifact "uri" "http://a") (Some Sample.upload)
       Fixture.stopped_process
     = (Raise ConnectionRefusedError, Fixture.stopped_process).
Proof.
  split; [reflexivity|].
  exact (handler_store_down Sample.uuid4 Sample.cts
           (Sample.artifact "uri" "http://a") (Some Sample.upload)
           Fixture.stopped_process eq_refl).
Defined.

Lemma handler_refuses_incomplete_artifact_witness :
  let w := Sample.process [] [] in
  (reachable (db w) = true /\ no_fingerprint [("type", "uri")] = true)
  /\ fst (scanArtifactHandler Sample.uuid4 Sample.cts [("type", "uri")]
            None w)
     = Raise (Exception DB.required_parameters)
  /\ pending (snd (scanArtifactHandler Sample.uuid4 Sample.cts
                     [("type", "uri")] None w)) = [].
Proof.
  cbv zeta. split; [split; reflexivity|].
  pose proof (handler_refuses_incomplete_artifact Sample.uuid4 Sample.cts
                [("type", "uri")] None (Sample.process [] [])
                eq_refl eq_refl) as H.
  cbv zeta in H. destruct H as [H1 [H2 _]].
  split; [exact H1 | exact H2].
Defined.

Lemma finished_search_is_handed_on_witness :
  let w := Fixture.searching in
  (exists t,
     pending w = [t]
     /\ coro t
        = Searcher (Some "uri") (Some "http://a") (Some Sample.upload)
     /\ done_callbacks t
        = [SearchComplete (Sample.uuid4 0) (Sample.artifact "uri" "http://a")
             (Some Sample.upload)])
  /\ Sample.searcher (Some "uri") (Some "http://a") (Some Sample.upload)
     = Ok "{score: 5}"
  /\ map coro (pending (run_task Sample.searcher Sample.cts w))
     = [RemoveActiveSearch (Sample.uuid4 0);
        StoreSearchResults (Sample.uuid4 0) (Some "uri") (Some "http://a")
          "{score: 5}"]
  /\ unlinked (run_task Sample.searcher Sample.cts w)
     = ["/tmp/tmpk3j2x9ab"].
Proof.
  cbv zeta.
  split; [eexists; refine (conj _ (conj _ _)); reflexivity|].
  split; [reflexivity|].
  pose proof
    (finished_search_is_handed_on Sample.searcher Sample.cts
       Fixture.searching _ [] (Some "uri") (Some "http://a")
       (Some Sample.upload) (Some Sample.upload) (Sample.uuid4 0)
       (Sample.artifact "uri" "http://a") "{score: 5}"
       eq_refl eq_refl eq_refl eq_refl) as H.
  cbv zeta in H. destruct H as [H1 [_ H3]].
  split; [exact H1|].
  cbn [existsb] in H3.
  exact (proj1 H3).
Defined.

Lemma task_ids_stay_fresh_witness :
  tasks_fresh Fixture.searching
  /\ tasks_fresh
       (snd (scanArtifactHandler Sample.uuid4 Sample.cts
               (Sample.artifact "ip" "10.0.0.1") None Fixture.searching))
  /\ tasks_fresh (run_loop Sample.searcher Sample.cts 3 Fixture.searching).
Proof.
  assert (H : tasks_fresh Fixture.searching).
  { split.
    - constructor; [cbn; lia | constructor].
    - cbn. constructor; [intros [] | constructor]. }
  split; [exact H|].
  exact (task_ids_stay_fresh Sample.searcher Sample.uuid4 Sample.cts
           (Sample.artifact "ip" "10.0.0.1") None 3 Fixture.searching H).
Defined.

End HandlerFacts.

(** ** [parse_file] *)

Module UploadFacts.
Import Upload AsyncCTS SqlFacts.

Lemma read_chunks_appends (stream : list string) (p content : string)
  (d : list (string * string)) (size : nat) :
  read_chunks stream p ((p, content) :: d) size
  = ((p, (content ++ delivered stream)%string) :: d,
     size + String.length (delivered stream)).
Proof.
  revert content size. induction stream as [|chunk rest IH];
    intros content size; cbn [read_chunks delivered].
  - rewrite append_empty_r. cbn. now rewrite Nat.add_0_r.
  - destruct (chunk =? "") eqn:Hempty.
    + rewrite append_empty_r. cbn. now rewrite Nat.add_0_r.
    + cbn [write]. rewrite String.eqb_refl, IH.
      rewrite append_assoc, length_append, Nat.add_assoc. reflexivity.
Qed.

(** [parse_file] creates a temporary file, takes the next part of the
    request and writes to the file, in order, the chunks the part
    delivers before its first empty one; it returns the path of the file
    with the [Content-Transfer-Encoding] header of the part, and leaves
    every other file as it was.  When the request has no part left, it
    raises [AttributeError] after the file was created: an empty
    temporary file stays on disk and no payload names it. *)
Theorem parse_file_writes_delivered_chunks :
  forall (tmp_name : nat -> string) (s : upload),
    let name := tmp_name (tmp_count s) in
    let s' := snd (parse_file tmp_name s) in
    (forall file_part rest,
       parts s = file_part :: rest ->
       fst (parse_file tmp_name s)
       = Returned
           {| path := name;
              content_transfer_encoding :=
                get "Content-Transfer-Encoding" (headers file_part) |}
       /\ read (disk s') name = Some (delivered (chunks file_part))
       /\ parts s' = rest)
    /\ (parts s = [] ->
        fst (parse_file tmp_name s)
        = Raised
            (AttributeError "'NoneType' object has no attribute 'read_chunk'")
        /\ read (disk s') name = Some EmptyString)
    /\ (forall other, other <> name ->
          read (disk s') other = read (disk s) other)
    /\ tmp_count s' = S (tmp_count s).
Proof.
  intros tmp_name s. cbv zeta. unfold parse_file.
  destruct (parts s) as [|file_part rest].
  - cbn [fst snd disk tmp_count]. split; [intros ? ? H; discriminate H|].
    split.
    + intros _. split; [reflexivity|]. unfold read; cbn.
      now rewrite String.eqb_refl.
    + split; [|reflexivity]. intros other Hother. unfold read; cbn.
      apply not_eq_sym in Hother. apply String.eqb_neq in Hother.
      now rewrite Hother.
  - rewrite read_chunks_appends. cbn [fst snd disk parts tmp_count].
    split.
    + intros p r H. injection H as <- <-.
      split; [reflexivity|]. split; [|reflexivity].
      unfold read; cbn. now rewrite String.eqb_refl.
    + split; [intros H; discriminate H|].
      split; [|reflexivity]. intros other Hother. unfold read; cbn.
      apply not_eq_sym in Hother. apply String.eqb_neq in Hother.
      now rewrite Hother.
Qed.

Lemma parse_file_writes_delivered_chunks_witness :
  fst (parse_file Fixture.tmp_name Fixture.multipart)
  = Returned
      {| path := "/tmp/tmp0"; content_transfer_encoding := Some "binary" |}
  /\ read (disk (snd (parse_file Fixture.tmp_name Fixture.multipart)))
       "/tmp/tmp0" = Some "MZPE"
  /\ read (disk (snd (parse_file Fixture.tmp_name Fixture.multipart)))
       "/tmp/old" = Some "x".
Proof.
  pose proof (parse_file_writes_delivered_chunks Fixture.tmp_name
                Fixture.multipart) as H.
  cbv zeta in H. destruct H as [Hpart [_ [Hother _]]].
  destruct (Hpart _ _ eq_refl) as [H1 [H2 _]].
  split; [exact H1|]. split; [exact H2|].
  apply Hother. discriminate.
Defined.

End UploadFacts.

(** ** [dto/artifact_property_dto.py] *)

Module DTOFacts.
Import ArtifactPropertyDTO.

Lemma pytype_eqb_eq (a b : pytype) : pytype_eqb a b = true <-> a = b.
Proof. destruct a, b; cbn; split; intros H; congruence. Qed.

Lemma member_supported (t : string) :
  member t SUPPORTED_TYPES = true ->
  t = "string" \/ t = "number" \/ t = "uri" \/ t = "ip" \/ t = "lat_lang".
Proof.
  unfold member, SUPPORTED_TYPES; cbn [existsb]. intros H.
  repeat (apply orb_true_iff in H as [H|H];
          [apply String.eqb_eq in H; tauto|]).
  discriminate H.
Qed.

(** What a constructed DTO guarantees: the three keys in their order, a
    supported type, a [str] value under the types [string], [uri] and
    [ip] and an [int] value (not a [bool]) under [number].  Under
    [lat_lang] every value is accepted: the check for a [dict] is
    written for the type [lat_lng], which [supported_type] refuses, so
    that branch is never taken. *)
Theorem constructed_dto_is_checked :
  forall (t name : string) (v : value),
    (forall d,
       init t name v = inl d ->
       d = [("type", VStr t); ("name", VStr name); ("value", v)]
       /\ List.In t SUPPORTED_TYPES
       /\ (t = "string" \/ t = "uri" \/ t = "ip" -> type v = str)
       /\ (t = "number" -> type v = int))
    /\ init "lat_lang" name v
       = inl [("type", VStr "lat_lang"); ("name", VStr name); ("value", v)]
    /\ init "lat_lng" name v = inr PropertyTypeNotSupported
    /\ (forall e, init t name v = inr e ->
          e = PropertyTypeNotSupported \/ e = ValueTypeMismatch v).
Proof.
  intros t name v. split; [|split; [|split]].
  - intros d. unfold init, supported_type.
    destruct (member t SUPPORTED_TYPES) eqn:Hsup; cbn [negb];
      [|discriminate].
    destruct (types_match t v) as [e|] eqn:Hmatch; [discriminate|].
    intros H. injection H as <-. split; [reflexivity|].
    pose proof (member_supported t Hsup) as Hcases.
    split.
    { unfold SUPPORTED_TYPES. cbn. intuition. }
    unfold types_match in Hmatch.
    split.
    + intros Ht. destruct (pytype_eqb (type v) str) eqn:Hty;
        [now apply pytype_eqb_eq|].
      exfalso. destruct Ht as [->|[->| ->]]; cbn in Hmatch;
        destruct (pytype_eqb (type v) int); cbn in Hmatch;
        discriminate Hmatch.
    + intros ->. destruct (pytype_eqb (type v) int) eqn:Hty;
        [now apply pytype_eqb_eq|].
      exfalso. cbn in Hmatch. destruct (pytype_eqb (type v) str);
        discriminate Hmatch.
  - reflexivity.
  - reflexivity.
  - intros e. unfold init, supported_type.
    destruct (member t SUPPORTED_TYPES); cbn [negb].
    + unfold types_match.
      repeat match goal with
      | |- context [if ?c then Some _ else _] => destruct c
      end; intros H; try discriminate H; injection H as <-; now right.
    + intros H. injection H as <-. now left.
Qed.

Lemma dict_setitem_keys (d : dto) (key : string) (v : value) :
  List.In key (map fst d) ->
  map fst (dict_setitem d key v) = map fst d.
Proof.
  induction d as [|[k old] rest IH]; cbn; [intros []|].
  destruct (String.eqb_spec k key) as [->|Hne]; [reflexivity|].
  intros [Hk|Hin]; [contradiction|]. cbn. now rewrite (IH Hin).
Qed.

Lemma member_in (x : string) (l : list string) :
  member x l = true -> List.In x l.
Proof.
  unfold member. intros H. apply existsb_exists in H as [y [Hin Hy]].
  apply String.eqb_eq in Hy. now subst y.
Qed.

Lemma assign_all_keys (d : dto) (items : list (string * value)) :
  map fst d = VALID_KEYS -> map fst (assign_all d items) = VALID_KEYS.
Proof.
  revert d. induction items as [|[key v] rest IH]; intros d Hd; [exact Hd|].
  cbn [assign_all]. unfold setitem.
  destruct (member key VALID_KEYS) eqn:Hkey; cbn [negb]; apply IH;
    [|exact Hd].
  rewrite dict_setitem_keys; [exact Hd|].
  rewrite Hd. now apply member_in.
Qed.

Lemma dict_setitem_get (d : dto) (key : string) (v : value) :
  getitem (dict_setitem d key v) key = Some v.
Proof.
  induction d as [|[k old] rest IH]; cbn.
  - now rewrite String.eqb_refl.
  - destruct (k =? key) eqn:Hk; cbn; rewrite Hk; [reflexivity | exact IH].
Qed.

Lemma init_keys (t name : string) (v : value) (d : dto) :
  init t name v = inl d -> map fst d = VALID_KEYS.
Proof.
  unfold init. destruct (supported_type t); [discriminate|].
  destruct (types_match t v); [discriminate|].
  intros H. injection H as <-. reflexivity.
Qed.

(** A DTO keeps exactly the keys [type], [name] and [value], in that
    order, through any run of assignments: an assignment to another key
    raises [InvalidPropertyKey], an assignment to one of the three
    replaces the value in place.  The value assigned is not checked
    against the type: what was assigned is what the key then holds,
    whatever its type. *)
Theorem assignments_keep_the_keys :
  forall (t name : string) (v : value) (d : dto)
         (items : list (string * value)),
    init t name v = inl d ->
    map fst (assign_all d items) = ["type"; "name"; "value"]
    /\ (forall key v',
          member key VALID_KEYS = false ->
          setitem (assign_all d items) key v' = inr (InvalidPropertyKey key))
    /\ (forall key v',
          member key VALID_KEYS = true ->
          exists d',
            setitem (assign_all d items) key v' = inl d'
            /\ map fst d' = ["type"; "name"; "value"]
            /\ getitem d' key = Some v').
Proof.
  intros t name v d items Hinit.
  pose proof (assign_all_keys d items (init_keys _ _ _ _ Hinit)) as Hkeys.
  split; [exact Hkeys|]. split.
  - intros key v' Hkey. unfold setitem. now rewrite Hkey.
  - intros key v' Hkey. exists (dict_setitem (assign_all d items) key v').
    unfold setitem. rewrite Hkey. cbn [negb].
    split; [reflexivity|]. split; [|apply dict_setitem_get].
    rewrite dict_setitem_keys; [exact Hkeys|].
    rewrite Hkeys. now apply member_in.
Qed.

Lemma constructed_dto_is_checked_witness :
  init "number" "score" (VInt (Zpos 5))
  = inl [("type", VStr "number"); ("name", VStr "score"); ("value", VInt (Zpos 5))]
  /\ type (VInt (Zpos 5)) = int
  /\ init "number" "score" (VBool true) = inr (ValueTypeMismatch (VBool true)).
Proof.
  split; [reflexivity|]. split; [|reflexivity].
  destruct (proj1 (constructed_dto_is_checked "number" "score" (VInt (Zpos 5)))
              _ eq_refl) as [_ [_ [_ H]]].
  exact (H eq_refl).
Defined.

Lemma assignments_keep_the_keys_witness :
  let d := [("type", VStr "ip"); ("name", VStr "source");
            ("value", VStr "10.0.0.1")] in
  let items := [("color", VStr "red"); ("value", VInt (Zpos 7))] in
  init "ip" "source" (VStr "10.0.0.1") = inl d
  /\ map fst (assign_all d items) = ["type"; "name"; "value"]
  /\ setitem (assign_all d items) "color" VNone
     = inr (InvalidPropertyKey "color").
Proof.
  cbv zeta. split; [reflexivity|].
  pose proof (assignments_keep_the_keys "ip" "source" (VStr "10.0.0.1")
                _ [("color", VStr "red"); ("value", VInt (Zpos 7))] eq_refl) as H.
  destruct H as [H1 [H2 _]].
  split; [exact H1 | exact (H2 "color" VNone eq_refl)].
Defined.

End DTOFacts.
